(* ===== verification/_CoqProject ===== *)
-Q . S2P
Prelude.v
Resumption.v
Store.v
Credential.v
Session.v
Passport.v
App.v
SessionRefinement.v
Identity.v
Concurrency.v
Refinement.v
Props.v
Cookie.v
Interleaving.v
