(* ===== verification/Prelude.v ===== *)
(** * A verification development of the "secrets" web application

    The program is [src/app.js]: an Express server that registers and
    logs in users with passport-local-mongoose, logs them in through
    Google with passport-google-oauth20 and mongoose-findorcreate,
    keeps who is logged in in an express-session session whose id
    travels in a cookie, and shows the page [secrets.ejs] only to an
    authenticated request. Every request runs through the session
    middleware and [passport.session()] (app.js lines 18-25), then one
    route handler (lines 83-173), then the end of the response, where
    the session is stored and the cookie sent.

    ** Files, and the code each one models

    - [Prelude] (this file): the state monad [St] in which every
      handler is written (a callback of the source is a bind), lenses
      and [zoom] that run a component's operation on the whole server
      state, JavaScript truthiness ([truthy_val], the [!x] tests of
      the libraries), invariant combinators ([preserves]) and Hoare
      triples ([triple]) over [St], generic list lemmas, and the hint
      database [app].
    - [Resumption]: handlers that wait. A [Node] is finished or holds
      the next atomic segment; [Res] is the monad of segments, with
      [lift] (a sequential operation inside a segment), [wait] (a
      scheduling point of the event loop) and [res_zoom]. [runs r m]
      (run alone, with enough fuel, [r] computes the sequential [m])
      and the rely-guarantee judgement [rsafe] are proved
      compositionally, and so is [within n r] (run among other
      requests, [r] finishes after at most [n] of its own segments).
    - [Store] (Module [Store]): the [User] collection (schema, lines
      31-49). [Doc] is a document, [Db] the collection in natural order
      with the ObjectId source and the state of the connection that
      [mongoose.connect] opens (line 28). [dup_key] and [save] are the
      insert with its E11000 error under the two unique indexes of the
      schema, which are not sparse: a missing field is indexed as
      [null]. [findOne], [findByUsername], [findOrCreate] are the
      queries the plugins add (lines 45-46). With the connection down,
      [findOne] and [save] fail with mongoose's buffering timeout, and
      the callers pass the error on. Invariant [db_wf].
    - [Credential] (Module [Credential]): passport-local-mongoose
      (line 45, and the strategy of line 51): [setPassword],
      [authenticate], [verify_local], [register]. pbkdf2 and the salt
      source are the class [Kdf]; every theorem holds for every
      instance, the rejection of a wrong password for every instance
      without collisions ([KdfInjective]). [authenticate] throws
      ([VThrow]) on a salt without a hash, as the plugin's
      [Buffer.from(undefined)] does. [demo_kdf] is a concrete
      instance used to evaluate the witnesses.
    - [Session] (Module [Session]): express-session with the default
      MemoryStore ([store], a [gmap] from session ids) and passport's
      session manager: [serializeUser]/[deserializeUser] (lines
      53-67), [begin_request] (load the cookie's session or
      [generate] a new one), [logIn] (regenerate, serialise, save),
      [logOut] (save, regenerate), [isAuthenticated], and
      [end_request]: express-session's own [shouldSave] and
      [shouldSetcookie] ([saveUninitialized: false], [resave: false])
      over the request context [Ctx], which keeps [originalId],
      [originalHash] and [savedHash] as the library does. Invariant
      [sess_wf]: ids below the counter, and the context either
      untouched since it was loaded or regenerated.
    - [Passport] (Module [Passport]): the server state [Server]
      (accounts, sessions, and the console that [console.log] writes
      to, [LogLine]), the two strategies ([local_strategy];
      [google_strategy] with the verify callback [google_verify] of
      lines 75-80) and [passport.authenticate] ([authenticate]), whose
      [next] the route supplies: an error reaches it with its status
      (502 or 503 for the codes of an [AuthorizationError],
      [authz_status]; 500 otherwise), and an exception thrown in a
      library callback ends the process ([Crashed]). The token
      exchange and userinfo request to Google are the class
      [Provider].
    - [App] (Module [App]): one definition per route handler of
      app.js, the route table [route], Express's final handler
      [express_next], [handle] (the static files of
      [express.static], then the session middleware, the route and
      the end of the response, which a crash never reaches) and [serve] for one request, the
      start-up [boot] after [mongoose.connect] succeeded or failed
      ([server0] when it succeeded), a change of the connection
      [set_connected], and the step relation [reachable]. [startup]
      evaluates the module from top to bottom with the environment of
      [dotenv_config] ([import 'dotenv/config']): the constructor of
      the Google strategy throws without a client id, and [app.listen]
      fails on a busy port. The
      invariant [server_wf] is preserved by every request
      ([serve_wf]); the closed forms of the handlers; the
      request-level properties. [steps] is any number of requests
      from a given state.
    - [SessionRefinement] (Module [SessionRefinement]): the contract
      of the Session Manager (spec 4.3) as a map from tokens to
      identities ([abs_establish], [abs_invalidate], [abs_restore],
      the step [abs_step]), and the abstraction [sess_view] of the
      MemoryStore to the sessions that hold a user.
    - [Identity] (Module [Identity]): the identities sessions hold
      against the collection. [payload_ok] (an issued ObjectId, and
      the projection of a document or of no document at all),
      [db_ext] (the collection only grows, with ids issued later),
      and the invariant [id_inv] kept by every handler.
    - [Concurrency] (Module [Concurrency]): concurrent requests at the
      collection. [findOrCreate] and [User.register] split at the
      points where they wait ([foc_step], [reg_start], [reg_step]),
      and the interleaving [cstep] of the calls in flight.
    - [Refinement] (Module [Refinement]): the abstract credential
      store of the specification ([abs_register], [abs_login] on a map
      from usernames to passwords), the relation [accounts_refine]
      between it and the collection, and the refinement theorems.
    - [Props] (Module [Props]): a browser [browse] that sends a list of
      requests with the cookie of the last Set-Cookie, and the
      end-to-end properties over such sequences.
    - [Cookie] (Module [Cookie]): the signed cookie of express-session
      with the secret of line 19: cookie-signature's [sign] and
      [unsign], express-session's [getcookie] and [signed_sid]
      ([setcookie]), the HMAC and the string form of an id as the
      class [Signer], and [serve_http], one request on the wire around
      [serve], with the browser [browse_http] that keeps raw
      cookies.
    - [Interleaving] (Module [Interleaving]): whole requests in
      flight at once. Every handler, strategy and library call of the
      request path is written again as a resumption split at the
      scheduling points of the event loop ([handle_c], [route_c],
      [logIn_c], [logOut_c], [regenerate_c], [register_c],
      [findOrCreate_c], ...): the session store's [get], [set] and
      [destroy] (effect when called, callback through [setImmediate]),
      MongoDB's queries (effect when their callback runs),
      [randomBytes], [pbkdf2] and the requests to Google. A [World] is
      the server with the requests in flight, each keeping its own
      session context ([Thread]); [wstep] starts a request, runs the
      next segment of one, or changes the connection, while no request
      has crashed ([alive]); [schedule] runs a list of such events.

    ** What is proved

    - The defect of [POST /login] (C1): on every collection whose
      salted documents have a hash (every reachable one), any body
      gets a cookie that opens /secrets, because [req.login] runs
      before the password is checked (line 140).
    - The access gate (C2, C13): GET /secrets renders exactly for a
      cookie naming a stored session with a user; after GET /logout
      it redirects to /login.
    - The invariant of every reachable state (C3): unique [_id],
      [googleId] and [username] (missing ones included) and issued
      session ids.
    - The local flow (C4-C8): registration, the reply of POST /login
      on every branch (a salt without a hash ends the process; a
      database error reaches the handler's arrow, which redirects to
      /secrets), register then login, a duplicate username, and
      the refusal of every registration after the first local account
      (the [null] key of the non-sparse [googleId_1] index).
    - The Google flow (C9-C11, C14, C23, C36): the replies of the
      callback and of the initiating route on every branch (a provider
      error answered with the status of its [AuthorizationError]), the 500
      for a second Google account (the [null] key of [username_1]),
      an existing account logged in again without a new document, and
      the callback then /secrets from a fresh browser.
    - The end of a response (C24): express-session's decision equals
      the reference rule [end_request_ref] (store the session and send
      its id exactly when the request regenerated it) on every
      well-formed state. Logout (C25, C13): GET /logout always stores
      a new empty session under a fresh id and sends its cookie, so
      the store keeps its size when the cookie named a stored session
      and grows by one otherwise.
    - No session fixation at the login route (C33): after POST /login
      with a cookie, whatever the body, the presented session is gone
      and any new cookie names another id.
    - Session refinement (C34): on every collection whose salted
      documents have a hash, every request is one step of the
      abstract session map (keep, establish a fresh token, or
      invalidate the presented one).
    - Crashes (C22, C35): a request ends the process exactly when it
      is a [POST /login] whose user document has a salt and no hash,
      sending no response and no cookie; no reachable state has such
      a document, so the server never crashes from its own requests.
    - The credential round trip and
      the rejection of a wrong password (C16, C17); the session round
      trip and the regeneration of the session id at login (C18, C19).
    - Refinement (C20, C21): every request keeps the relation with the
      abstract store, each matched by no abstract step or by one
      abstract [Register]; the reply of [POST /login] follows the
      abstract [Login] exactly.
    - Liveness (C26): after any sequence of requests from a state in
      which a pair is registered, logging in with it succeeds and
      opens the protected page.
    - Session identities (C27): in every reachable state a stored
      session's user is the projection of a document or names no
      document (the ghost of [POST /login]), and its id was issued.
    - Concurrency (C30, C32): every interleaving of registrations and
      [findOrCreate]s keeps the unique indexes, and without new
      requests every interleaving ends.
    - Concurrent requests (C12, C15, C28, C31): every request sends its
      response after at most ten of its own segments, whatever runs
      between them; by a rely-guarantee argument over every segment of
      every handler, no interleaving stores a user again under a
      session id that holds none (once logged out, or destroyed by a
      login), unless a request in flight regenerated its session into
      it: a request that loaded the session before the logout cannot
      bring it back, as express-session saves a loaded session only
      when it changed ([resave: false]); but a [GET /secrets] that
      loaded the session before a logout still renders the page; and
      two Google callbacks for the same new profile whose [findOne]s
      both run before either [save] end with the second answered
      500.
    - Start-up (C29): the process serves requests exactly when the
      Google client id is a non-empty string (from the process
      environment, else from [.env]) and the port is free, whatever
      [mongoose.connect] does; the client secret is not checked.
    - An unreachable collection (C37): [POST /register] redirects to
      /register and adds nothing, [POST /login] is redirected to
      /secrets (the handler's arrow ignores the error passed to it),
      and the Google callback is answered with a 500; the server started after a
      failed [mongoose.connect] serves requests all the same.
    - The console (C40): a request only appends to the console, and
      a credential reaches it exactly when a [POST /register] is
      refused, the submitted password then being written in clear
      after the error.
    - Signed cookies (C38, C39): on the wire, GET /secrets renders
      exactly for [s:] and the signature of the id of a stored session
      with a user under the secret, and a browser that keeps the raw
      signed cookie sees what the id-level browser sees.
    Each theorem with hypotheses has a witness evaluated at a concrete
    state reached from [server0] (or from [boot false]).

    ** Bounds and what is not modelled

    Every definition is structural and executable. The only fuel is
    that of [reg_run] and [foc_run] in [Concurrency] and of [run] in
    [Resumption] (see below).
    ObjectIds and session ids are natural numbers issued by counters,
    so fresh ids are fresh by construction (the source draws 96-bit
    and 24-byte random values); a generated session id also differs
    from the request's cookie ([next_id]), as a random id does with
    overwhelming probability. No property depends on their width.
    Static files: the repository has no public directory, so
    [public_files] is empty and [express.static] passes every request
    on. The connection: [mongoose.connect] either succeeds, and every
    buffered operation runs, or fails, and every operation times out;
    the driver may lose or regain it between requests ([reach_conn]),
    and it is fixed while the calls of [Concurrency] interleave.
    The console: the two start-up messages come from callbacks in
    either order, and [boot] writes that of [app.listen] first; a
    Google profile is written as its id.
    Not modelled: the ejs views (a view is its name; they take no
    data from the handlers); the reading of the [.env] file and the
    listening socket, which are I/O (their results are the parameters
    of [startup]: the variables of the file, and whether the port is
    free; serving requests is the step relation [reachable]); the Google authorization server (its answer is the class
    [Provider]); the HMAC itself (the class [Signer]) and the URI
    encoding of the cookie header, which gives back the value sent;
    session expiry (none is configured); path normalisation (paths
    are matched exactly, while Express's router, with [strict] and
    [caseSensitive] off, also sends [/secrets/] or [/SECRETS] to the
    handler of [/secrets]; the model answers those with 404); non-string body and query fields; and the
    [code] that passport-oauth2 also accepts in the body of the
    callback (a GET from the browser carries none). Outside
    [Concurrency] and [Interleaving], each request runs to its end
    before the next starts. [Concurrency] interleaves the two calls
    that wait on the collection at the granularity of their library
    steps; [Interleaving] interleaves whole requests at every
    scheduling point of the event loop. Callbacks of
    [process.nextTick] and promise continuations are not scheduling
    points (the event loop drains them before it takes another
    callback), and consecutive waits with nothing shared between them
    (the two HTTPS requests to Google; the stat of the static
    middleware and the reading of the body) are one. A MongoDB
    operation takes effect at the end of its wait, in the segment of
    its callback. A call run alone takes at most three steps after
    its start ([reg_run 3], [foc_run 2]), which is the number of its
    waits; [run] of [Resumption] takes one unit of fuel per wait, and
    [runs] states that some fuel suffices from every state (every
    resumption of the development has a bounded number of waits:
    [within] gives the bound, ten segments for a whole request, the
    longest being [POST /register] with its four waits in
    [User.register], two in the local strategy and two in
    [req.login]). The repository pins no library versions;
    the model follows passport 0.6 and later (the session is
    regenerated at login and logout), passport-local-mongoose 8,
    mongoose-findorcreate, and mongoose 7 and later (commands issued
    while disconnected are buffered and time out). *)

From stdpp Require Export base list strings gmap.
From Stdlib Require Export Lia.

(** ** The state monad of the handlers *)

Definition St (S A : Type) : Type := S -> A * S.

Definition st_ret {S A} (a : A) : St S A := fun s => (a, s).
Definition st_bind {S A B} (m : St S A) (k : A -> St S B) : St S B :=
  fun s => let (a, s') := m s in k a s'.
Definition st_get {S} : St S S := fun s => (s, s).
Definition st_put {S} (s : S) : St S unit := fun _ => (tt, s).
Definition st_modify {S} (f : S -> S) : St S unit := fun s => (tt, f s).
Definition st_gets {S A} (f : S -> A) : St S A := fun s => (f s, s).

Declare Scope st_scope.
Delimit Scope st_scope with st.
Notation "x <- c1 ;; c2" := (st_bind c1 (fun x => c2))
  (at level 100, c1 at next level, right associativity) : st_scope.
Notation "c1 ;; c2" := (st_bind c1 (fun _ => c2))
  (at level 100, right associativity) : st_scope.
Notation "'ret' a" := (st_ret a) (at level 10) : st_scope.

(** ** Lenses: running a component's operation on a larger state *)

Record Lens (S T : Type) := {
  view : S -> T;
  update : T -> S -> S;
  view_update : forall t s, view (update t s) = t;
  update_view : forall s, update (view s) s = s;
  update_update : forall t t' s, update t' (update t s) = update t' s
}.
Arguments view {S T} _ _.
Arguments update {S T} _ _ _.

Definition zoom {S T A} (l : Lens S T) (m : St T A) : St S A :=
  fun s => let (a, t) := m (view l s) in (a, update l t s).

(** ** JavaScript values of request fields *)

(** A field of [req.body] is [undefined] ([None]) or a string; the
    source tests it with [!x], which holds of [undefined] and of the
    empty string. *)
Definition truthy_val (o : option string) : option string :=
  match o with Some s => if bool_decide (s = "") then None else Some s | None => None end.

Definition truthy (o : option string) : bool := bool_decide (is_Some (truthy_val o)).

Arguments truthy_val : simpl never.

(** [s.lastIndexOf(c)] for a one-character [c]: the position of its
    last occurrence, [None] standing for JavaScript's [-1]. *)
Fixpoint last_index_of (c : Ascii.ascii) (s : string) : option nat :=
  match s with
  | EmptyString => None
  | String a s' =>
      match last_index_of c s' with
      | Some i => Some (S i)
      | None => if bool_decide (a = c) then Some 0 else None
      end
  end.

Create HintDb app discriminated.

(** ** Results of fallible library calls: the [err] argument of a
    Node-style callback, or the value *)

Inductive result (E A : Type) : Type :=
| Ok (a : A)
| Err (e : E).
Arguments Ok {E A} a.
Arguments Err {E A} e.

Definition is_ok {E A} (r : result E A) : bool :=
  match r with Ok _ => true | Err _ => false end.

(** ** Invariants of monadic operations, and Hoare triples over [St]:
    a precondition on the state before, a postcondition on the result
    and the state after *)

Definition preserves {S A} (P : S -> Prop) (m : St S A) : Prop :=
  forall s, P s -> P (snd (m s)).

Definition triple {S A} (P : S -> Prop) (m : St S A) (Q : A -> S -> Prop) : Prop :=
  forall s, P s -> Q (fst (m s)) (snd (m s)).

(** ** JavaScript truthiness *)

Lemma truthy_val_Some o s : truthy_val o = Some s -> o = Some s /\ s <> "".
Proof.
  destruct o as [t|]; unfold truthy_val; [|done].
  case_bool_decide; [done|]. intros [= <-]. done.
Qed.

Lemma truthy_val_nonempty s : s <> "" -> truthy_val (Some s) = Some s.
Proof. intros H. unfold truthy_val. by rewrite bool_decide_eq_false_2. Qed.


(** ** Strings *)

(** The last [c] of [s1 ++ c ++ s2], when [s2] has none, is at the
    length of [s1]. *)
Lemma last_index_of_app c s1 s2 :
  last_index_of c s2 = None -> last_index_of c (s1 +:+ String c s2) = Some (String.length s1).
Proof.
  intros H. induction s1 as [|a s1 IH]; simpl.
  - rewrite H. by rewrite bool_decide_eq_true_2.
  - by rewrite IH.
Qed.

Lemma substring_app_length s1 s2 : String.substring 0 (String.length s1) (s1 +:+ s2) = s1.
Proof. induction s1 as [|a s1 IH]; simpl; [by destruct s2 | by rewrite IH]. Qed.


(** ** Generic lemmas shared by the components *)

Section Generic.
Context {A B : Type}.

(** A key that is duplicate-free over a list identifies its elements. *)
Lemma NoDup_map_same_key (f : A -> B) (l : list A) x y :
  NoDup (map f l) -> x ∈ l -> y ∈ l -> f x = f y -> x = y.
Proof.
  induction l as [|z l IH]; simpl; [set_solver|].
  rewrite NoDup_cons, !elem_of_cons. intros [Hz Hnd] Hx Hy Hf.
  destruct Hx as [->|Hx], Hy as [->|Hy]; auto; exfalso; apply Hz;
    [rewrite Hf | rewrite <- Hf]; apply list_elem_of_fmap_2; assumption.
Qed.

(** [existsb] of a boolean test is false exactly when no element passes. *)
Lemma existsb_false_iff (p : A -> bool) (l : list A) :
  existsb p l = false <-> Forall (fun x => p x = false) l.
Proof.
  induction l as [|x l IH]; simpl; [split; auto|].
  rewrite orb_false_iff, Forall_cons, IH. tauto.
Qed.

Lemma NoDup_map_snoc (f : A -> B) (l : list A) x :
  NoDup (map f l) -> f x ∉ map f l -> NoDup (map f (l ++ [x])).
Proof.
  intros Hnd Hx. rewrite map_app. simpl.
  apply NoDup_app. split; [exact Hnd|]. split; [|apply NoDup_singleton].
  intros y Hy Hy'. apply list_elem_of_singleton in Hy' as ->. contradiction.
Qed.
(** A key that is duplicate-free over a list is carried by exactly one
    element. *)
Lemma NoDup_map_filter_single `{EqDecision B} (f : A -> B) (l : list A) x :
  NoDup (map f l) -> x ∈ l -> length (filter (fun y => f y = f x) l) = 1.
Proof.
  induction l as [|z l IH]; simpl; [set_solver|].
  rewrite NoDup_cons, elem_of_cons. intros [Hz Hnd] [->|Hx].
  - rewrite filter_cons_True by done. simpl. f_equal.
    destruct (filter _ l) as [|y ys] eqn:E; [done|]. exfalso.
    assert (Hy : y ∈ filter (fun y => f y = f z) l) by (rewrite E; constructor).
    apply list_elem_of_filter in Hy as [Hfy Hy]. apply Hz. rewrite <- Hfy. by apply list_elem_of_fmap_2.
  - rewrite filter_cons_False; [by apply IH|]. intros Hf. apply Hz. rewrite Hf. by apply list_elem_of_fmap_2.
Qed.
End Generic.

(** Removing a present key shrinks a map by one. *)
Lemma map_size_delete_lookup `{Countable K} {V} (m : gmap K V) k v :
  m !! k = Some v -> S (size (delete k m)) = size m.
Proof.
  intros Hk. rewrite <- (map_size_insert_None k v) by apply lookup_delete_eq.
  by rewrite insert_delete_id.
Qed.

(** Replacing an element of a list by one of smaller measure lowers
    the sum of the measure. *)
Lemma sum_list_with_insert_lt {A} (f : A -> nat) (l : list A) i x y :
  l !! i = Some x -> f y < f x -> sum_list_with f (<[i := y]> l) < sum_list_with f l.
Proof.
  revert i. induction l as [|z l IH]; intros [|i] Hi Hlt; simpl in *; try discriminate.
  - injection Hi as ->. lia.
  - specialize (IH i Hi Hlt). lia.
Qed.

#[export] Hint Resolve NoDup_map_snoc : app.

(** ** Running a monadic definition on a concrete or symbolic state *)

Ltac st_unfold := unfold st_bind, st_ret, st_get, st_put, st_gets, st_modify, zoom in *.

(** ** Invariants of monadic operations *)


Lemma preserves_ret {S A} (P : S -> Prop) (a : A) : preserves P (st_ret a).
Proof. by intros s. Qed.

Lemma preserves_bind {S A B} (P : S -> Prop) (m : St S A) (k : A -> St S B) :
  preserves P m -> (forall a, preserves P (k a)) -> preserves P (st_bind m k).
Proof.
  intros Hm Hk s Hs. unfold st_bind. specialize (Hm s Hs).
  destruct (m s) as [a s']. by apply Hk.
Qed.

(** An invariant [P] of the whole state is kept by a component's
    operation that keeps the component's invariant [Q], when [P] is
    [Q] of the component together with something the update does not
    touch. *)
Lemma preserves_zoom {S T A} (P : S -> Prop) (Q : T -> Prop) (l : Lens S T) (m : St T A) :
  (forall s, P s -> Q (view l s)) ->
  (forall s t, P s -> Q t -> P (update l t s)) ->
  preserves Q m -> preserves P (zoom l m).
Proof.
  intros Hv Hu Hm s Hs. unfold zoom. specialize (Hm _ (Hv s Hs)).
  destruct (m (view l s)) as [a t]. by apply Hu.
Qed.

#[export] Hint Resolve preserves_ret preserves_bind : app.

(** ** Hoare triples over [St]: a precondition on the state before,
    a postcondition on the result and the state after *)


Lemma triple_bind {S A B} (P : S -> Prop) (m : St S A) (Q : A -> S -> Prop)
    (k : A -> St S B) (R : B -> S -> Prop) :
  triple P m Q -> (forall a, triple (Q a) (k a) R) -> triple P (st_bind m k) R.
Proof.
  intros Hm Hk s Hs. unfold st_bind. specialize (Hm s Hs).
  destruct (m s) as [a s']. by apply Hk.
Qed.

Lemma triple_ret {S A} (P : S -> Prop) (a : A) (Q : A -> S -> Prop) :
  (forall s, P s -> Q a s) -> triple P (st_ret a) Q.
Proof. intros H s Hs. by apply H. Qed.

Lemma triple_conseq {S A} (P P' : S -> Prop) (m : St S A) (Q Q' : A -> S -> Prop) :
  triple P' m Q' -> (forall s, P s -> P' s) -> (forall a s, Q' a s -> Q a s) -> triple P m Q.
Proof. intros H HP HQ s Hs. by apply HQ, H, HP. Qed.

Lemma triple_pre {S A} (P P' : S -> Prop) (m : St S A) (Q : A -> S -> Prop) :
  triple P' m Q -> (forall s, P s -> P' s) -> triple P m Q.
Proof. intros H HP. eapply triple_conseq; eauto. Qed.

(** One step of a handler proof: a lemma for the step, its
    precondition discharged from the current one. *)
Ltac tstep H := eapply triple_pre; [apply H | simpl; intros; eauto].
