(* ===== verification/Resumption.v ===== *)
(** * Resumptions: handlers that wait

    A Node.js handler runs without interruption until it calls an
    asynchronous operation; the rest of it runs in the callback, and
    other requests run meanwhile. A computation over a state [X] that
    waits is a resumption: a [Node] is finished with a value, or waits
    and holds the next atomic segment, which runs on the state when the
    event loop calls back and yields the next node. [Res X A], the
    segment that runs now, is a state monad over nodes, with [res_ret],
    [res_bind], [lift] (a sequential operation inside the current
    segment), [wait] (a scheduling point) and [res_zoom] (a component's
    resumption on a larger state).

    Two tools relate resumptions to the sequential model:
    - [run fuel r] runs [r] alone, each wait taking one unit of fuel;
      [runs r m] says that, from every state, enough fuel runs [r] to
      the value and the state of the sequential [m]. [runs] is proved
      compositionally ([runs_bind], [runs_lift], [runs_wait_l],
      [runs_zoom]).
    - [rsafe P r Q] is a rely-guarantee judgement: from a state with the
      invariant [I] and a local part satisfying [P], every segment of
      [r], whatever runs between the segments, keeps [I], relates the
      states before and after by the guarantee [G], and [r] ends with
      [Q].
    - [within n r] bounds the waits: from every state, [r] finishes
      after at most [n] segments of its own, whatever runs between
      them. It is proved compositionally ([rwithin_bind],
      [rwithin_wait], [rwithin_zoom]) with the hint database
      [within]. *)

From S2P Require Import Prelude.

(** ** Resumptions *)

Inductive Node (X A : Type) : Type :=
| NDone (a : A)
| NWait (m : St X (Node X A)).
Arguments NDone {X A} a.
Arguments NWait {X A} m.

Definition Res (X A : Type) : Type := St X (Node X A).

(** Induction on nodes, through the segments' results. *)
Section NodeInd.
Context {X A : Type} (P : Node X A -> Prop).
Context (Hd : forall a, P (NDone a)) (Hw : forall m, (forall x, P (fst (m x))) -> P (NWait m)).

Fixpoint node_ind' (n : Node X A) : P n :=
  match n with
  | NDone a => Hd a
  | NWait m => Hw m (fun x => match m x as p return P (fst p) with (n', _) => node_ind' n' end)
  end.
End NodeInd.

Definition res_ret {X A} (a : A) : Res X A := fun x => (NDone a, x).

Fixpoint node_bind {X A B} (n : Node X A) (f : A -> Res X B) : Res X B :=
  match n with
  | NDone a => f a
  | NWait m => fun x => (NWait (st_bind m (fun n' => node_bind n' f)), x)
  end.

Definition res_bind {X A B} (r : Res X A) (f : A -> Res X B) : Res X B :=
  st_bind r (fun n => node_bind n f).

(** A sequential operation, run inside the current segment. *)
Definition lift {X A} (m : St X A) : Res X A :=
  fun x => let (a, x') := m x in (NDone a, x').

(** A scheduling point: the rest runs in a later callback. *)
Definition wait {X} : Res X unit := fun x => (NWait (res_ret tt), x).

Declare Scope res_scope.
Delimit Scope res_scope with res.
Notation "x <- r ;; k" := (res_bind r (fun x => k))
  (at level 100, r at next level, right associativity) : res_scope.
Notation "r ;; k" := (res_bind r (fun _ => k))
  (at level 100, right associativity) : res_scope.
Notation "'ret' a" := (res_ret a) (at level 10) : res_scope.

(** An operation whose effect takes place when its callback is called:
    a query of MongoDB, [randomBytes]. *)
Definition await {X A} (m : St X A) : Res X A := (wait ;; lift m)%res.

Fixpoint node_zoom {X T A} (l : Lens X T) (n : Node T A) : Node X A :=
  match n with
  | NDone a => NDone a
  | NWait m => NWait (fun x => let (n', t) := m (view l x) in (node_zoom l n', update l t x))
  end.

Definition res_zoom {X T A} (l : Lens X T) (r : Res T A) : Res X A :=
  fun x => let (n, t) := r (view l x) in (node_zoom l n, update l t x).

(** Running a resumption alone: each wait takes one unit of fuel. *)
Fixpoint run_node {X A} (fuel : nat) (n : Node X A) {struct fuel} : St X (option A) :=
  match n with
  | NDone a => st_ret (Some a)
  | NWait m => match fuel with 0 => st_ret None | Datatypes.S f => st_bind m (run_node f) end
  end.

Definition run {X A} (fuel : nat) (r : Res X A) : St X (option A) :=
  st_bind r (run_node fuel).

(** [r], run alone with enough fuel, computes what [m] computes. *)
Definition runs {X A} (r : Res X A) (m : St X A) : Prop :=
  forall x, exists n, run n r x = (Some (fst (m x)), snd (m x)).

(** [nd] finishes after at most [n] more segments, whatever the state
    each of them starts from, that is whatever runs between them. *)
Fixpoint within {X A} (n : nat) (nd : Node X A) : Prop :=
  match nd with
  | NDone _ => True
  | NWait m => match n with 0 => False | Datatypes.S n' => forall x, within n' (fst (m x)) end
  end.

Definition rwithin {X A} (n : nat) (r : Res X A) : Prop := forall x, within n (fst (r x)).

(** ** Rely and guarantee *)

Section Safety.
Context {X L : Type} (loc : X -> L) (I : X -> Prop) (G : X -> X -> Prop).

(** A node is safe with the local part [l]: each later segment, run
    from a state with the invariant and the local part [l], keeps the
    invariant, satisfies the guarantee, and leaves a safe node. *)
Inductive nsafe {A} (Q : A -> L -> Prop) : L -> Node X A -> Prop :=
| nsafe_done l a : Q a l -> nsafe Q l (NDone a)
| nsafe_wait l m :
    (forall x, I x -> loc x = l -> I (snd (m x))) ->
    (forall x, I x -> loc x = l -> G x (snd (m x))) ->
    (forall x, I x -> loc x = l -> nsafe Q (loc (snd (m x))) (fst (m x))) ->
    nsafe Q l (NWait m).

Definition rsafe {A} (P : L -> Prop) (r : Res X A) (Q : A -> L -> Prop) : Prop :=
  forall x, I x -> P (loc x) -> I (snd (r x)) /\ G x (snd (r x)) /\ nsafe Q (loc (snd (r x))) (fst (r x)).
End Safety.

(** ** Running alone *)

Section Runs.
Context {X : Type}.

Lemma run_node_wait {A} n (m : St X (Node X A)) x :
  run_node (S n) (NWait m) x = let (nd, x') := m x in run_node n nd x'.
Proof. done. Qed.

Lemma run_node_mono {A} n n' (nd : Node X A) x a x' :
  run_node n nd x = (Some a, x') -> n <= n' -> run_node n' nd x = (Some a, x').
Proof.
  revert n' nd x. induction n as [|n IH]; intros n' [b|m] x H Hle; simpl in H; unfold st_ret in H.
  - by destruct n'.
  - done.
  - by destruct n'.
  - destruct n' as [|n']; [lia|]. simpl. unfold st_bind in *.
    destruct (m x) as [nd' x1]. apply IH; [done|lia].
Qed.

Lemma run_mono {A} n n' (r : Res X A) x a x' :
  run n r x = (Some a, x') -> n <= n' -> run n' r x = (Some a, x').
Proof. unfold run, st_bind. destruct (r x). apply run_node_mono. Qed.

Lemma run_node_bind {A B} n1 (nd : Node X A) (f : A -> Res X B) x a x1 n2 b x2 :
  run_node n1 nd x = (Some a, x1) -> run n2 (f a) x1 = (Some b, x2) ->
  run (n1 + n2) (node_bind nd f) x = (Some b, x2).
Proof.
  revert nd x. induction n1 as [|n1 IH]; intros [a'|m] x H1 H2; simpl in H1; unfold st_ret in H1.
  - simplify_eq. exact H2.
  - done.
  - simplify_eq. cbn [node_bind]. eapply run_mono; [exact H2|lia].
  - unfold run, st_bind in *. cbn [node_bind fst snd].
    rewrite Nat.add_succ_l, run_node_wait. unfold st_bind. destruct (m x) as [nd' x'].
    specialize (IH nd' x' H1 H2). unfold run, st_bind in IH. exact IH.
Qed.

Lemma runs_bind {A B} (r : Res X A) (m : St X A) (f : A -> Res X B) (g : A -> St X B) :
  runs r m -> (forall a, runs (f a) (g a)) -> runs (res_bind r f) (st_bind m g).
Proof.
  intros Hr Hf x. destruct (Hr x) as [n1 H1]. unfold st_bind at 2.
  destruct (m x) as [a x1] eqn:Em. cbn [fst snd] in H1.
  destruct (Hf a x1) as [n2 H2]. exists (n1 + n2).
  unfold run, res_bind, st_bind in *. destruct (r x) as [nd x0].
  pose proof (run_node_bind n1 nd f x0 a x1 n2 _ _ H1 H2) as H. unfold run, st_bind in H. rewrite ?Em. exact H.
Qed.

Lemma runs_lift {A} (m : St X A) : runs (lift m) m.
Proof. intros x. exists 0. unfold run, lift, st_bind. by destruct (m x). Qed.

Lemma runs_ret {A} (a : A) : runs (X:=X) (res_ret a) (st_ret a).
Proof. intros x. by exists 0. Qed.

Lemma runs_wait_l {A} (r : Res X A) (m : St X A) : runs r m -> runs (wait ;; r)%res m.
Proof.
  intros Hr x. destruct (Hr x) as [n H]. exists (S n).
  unfold run, res_bind, wait, st_bind in *. simpl. unfold st_bind, res_ret. simpl. exact H.
Qed.

Lemma runs_await {A} (m : St X A) : runs (await m) m.
Proof. apply runs_wait_l, runs_lift. Qed.

Lemma runs_wait : runs (X:=X) wait (st_ret tt).
Proof. intros x. by exists 1. Qed.

Lemma st_bind_ret_unit (m : St X unit) x : st_bind m (fun _ => st_ret tt) x = m x.
Proof. unfold st_bind, st_ret. by destruct (m x) as [[] ?]. Qed.

Lemma runs_ext {A} (r : Res X A) (m m' : St X A) : runs r m -> (forall x, m x = m' x) -> runs r m'.
Proof. intros Hr He x. rewrite <- He. apply Hr. Qed.

(** A segment, or a resumption, followed by a wait or by nothing. *)
Lemma runs_seq_ret (r : Res X unit) (m : St X unit) : runs r m -> runs (r ;; ret tt)%res m.
Proof.
  intros H. eapply runs_ext; [apply (runs_bind _ m _ (fun _ => st_ret tt)); [exact H|intros; apply runs_ret]|].
  apply st_bind_ret_unit.
Qed.

Lemma runs_seq_wait (r : Res X unit) (m : St X unit) : runs r m -> runs (r ;; wait)%res m.
Proof.
  intros H. eapply runs_ext; [apply (runs_bind _ m _ (fun _ => st_ret tt)); [exact H|intros; apply runs_wait]|].
  apply st_bind_ret_unit.
Qed.

Lemma run_node_zoom {T A} (l : Lens X T) n (nd : Node T A) t a t' x :
  run_node n nd t = (Some a, t') -> run_node n (node_zoom l nd) (update l t x) = (Some a, update l t' x).
Proof.
  revert nd t. induction n as [|n IH]; intros [b|m] t H; simpl in H |- *; unfold st_ret in *.
  - by simplify_eq.
  - done.
  - by simplify_eq.
  - unfold st_bind in *. rewrite view_update. destruct (m t) as [nd' t1].
    rewrite update_update. by apply IH.
Qed.

Lemma runs_zoom {T A} (l : Lens X T) (r : Res T A) (m : St T A) : runs r m -> runs (res_zoom l r) (zoom l m).
Proof.
  intros Hr x. destruct (Hr (view l x)) as [n H]. exists n.
  unfold run, res_zoom, zoom, st_bind in *. destruct (r (view l x)) as [nd t].
  destruct (m (view l x)) as [a t']. cbn [fst snd] in *. by apply run_node_zoom.
Qed.

End Runs.

#[export] Hint Resolve runs_lift runs_ret runs_await : app.

(** One step of a proof of [runs]: the resumption and the sequential
    operation are taken apart together, a wait of the resumption being
    dropped. *)
Ltac runs_step :=
  match goal with
  | |- runs (res_bind wait _) _ => apply runs_wait_l
  | |- runs (await _) _ => apply runs_await
  | |- runs (res_bind _ _) _ => first [apply runs_bind | eapply runs_bind]; [|intros ?]
  | |- runs (lift _) _ => apply runs_lift
  | |- runs (res_ret _) _ => apply runs_ret
  | |- runs (res_zoom _ _) (zoom _ _) => apply runs_zoom
  | |- runs (let _ := _ in _) _ => cbv zeta
  | |- runs _ _ => case_match
  end.

Ltac runs_tac := repeat runs_step.

(** ** Rely and guarantee, compositionally *)

Section SafetyLemmas.
Context {X L : Type} {loc : X -> L} {I : X -> Prop} {G : X -> X -> Prop}.
Context `{!Reflexive G} `{!Transitive G}.

Lemma nsafe_mono {A} (Q Q' : A -> L -> Prop) l (nd : Node X A) :
  nsafe loc I G Q l nd -> (forall a l, Q a l -> Q' a l) -> nsafe loc I G Q' l nd.
Proof.
  intros H HQ. induction H as [l a Ha|l m H1 H2 _ IH]; constructor; auto.
Qed.

Lemma rsafe_conseq {A} (P P' : L -> Prop) (r : Res X A) (Q Q' : A -> L -> Prop) :
  rsafe loc I G P r Q -> (forall l, P' l -> P l) -> (forall a l, Q a l -> Q' a l) ->
  rsafe loc I G P' r Q'.
Proof.
  intros H HP HQ x Hx Hl. destruct (H x Hx (HP _ Hl)) as (? & ? & ?).
  split_and!; [done|done|]. by eapply nsafe_mono.
Qed.

Lemma rsafe_ext {A} (P : L -> Prop) (r r' : Res X A) (Q : A -> L -> Prop) :
  rsafe loc I G P r Q -> (forall x, r x = r' x) -> rsafe loc I G P r' Q.
Proof. intros H He x. rewrite <- He. apply H. Qed.

Lemma rsafe_ret {A} (P : L -> Prop) (a : A) (Q : A -> L -> Prop) :
  (forall l, P l -> Q a l) -> rsafe loc I G P (res_ret a) Q.
Proof. intros H x Hx Hl. split_and!; [done|reflexivity|]. constructor. by apply H. Qed.

Lemma rsafe_lift {A} (P : L -> Prop) (m : St X A) (Q : A -> L -> Prop) :
  (forall x, I x -> P (loc x) ->
     I (snd (m x)) /\ G x (snd (m x)) /\ Q (fst (m x)) (loc (snd (m x)))) ->
  rsafe loc I G P (lift m) Q.
Proof.
  intros H x Hx Hl. specialize (H x Hx Hl). unfold lift.
  destruct (m x) as [a x']. destruct H as (? & ? & ?). split_and!; [done|done|]. by constructor.
Qed.

Lemma rsafe_wait (P : L -> Prop) : rsafe loc I G P wait (fun _ => P).
Proof.
  intros x Hx Hl. split_and!; [done|reflexivity|].
  constructor; intros x' Hx' Hl'; [done|reflexivity|]. constructor. cbn. by rewrite Hl'.
Qed.

Lemma nsafe_bind {A B} (Q : A -> L -> Prop) (f : A -> Res X B) (R : B -> L -> Prop) l (nd : Node X A) :
  nsafe loc I G Q l nd -> (forall a, rsafe loc I G (Q a) (f a) R) ->
  forall x, I x -> loc x = l ->
  I (snd (node_bind nd f x)) /\ G x (snd (node_bind nd f x)) /\
  nsafe loc I G R (loc (snd (node_bind nd f x))) (fst (node_bind nd f x)).
Proof.
  intros H Hf. induction H as [l a Ha|l m H1 H2 H3 IH]; intros x Hx Hl; cbn [node_bind].
  - subst l. by apply Hf.
  - cbn [fst snd]. split_and!; [done|reflexivity|]. subst l.
    constructor; intros x0 Hx0 Hl0; unfold st_bind;
      pose proof (H1 x0 Hx0 Hl0) as I1; pose proof (H2 x0 Hx0 Hl0) as G1;
      specialize (IH x0 Hx0 Hl0 _ I1 eq_refl);
      destruct (m x0) as [nd' x1]; cbn [fst snd] in *; destruct IH as (? & ? & ?);
      [done|by etrans|done].
Qed.

Lemma rsafe_bind {A B} (P : L -> Prop) (r : Res X A) (Q : A -> L -> Prop) (f : A -> Res X B) (R : B -> L -> Prop) :
  rsafe loc I G P r Q -> (forall a, rsafe loc I G (Q a) (f a) R) -> rsafe loc I G P (res_bind r f) R.
Proof.
  intros Hr Hf x Hx Hl. destruct (Hr x Hx Hl) as (H1 & H2 & H3). unfold res_bind, st_bind.
  destruct (r x) as [nd x1]. cbn [fst snd] in *.
  destruct (nsafe_bind Q f R _ nd H3 Hf x1 H1 eq_refl) as (? & ? & ?).
  split_and!; [done| |done]. by etrans.
Qed.

Lemma lift_zoom {T A} (l : Lens X T) (m : St T A) x : res_zoom l (lift m) x = lift (zoom l m) x.
Proof. unfold res_zoom, lift, zoom. by destruct (m (view l x)). Qed.

(** A component's resumption that changes neither the local part nor
    what the invariant and the guarantee read. *)
Lemma rsafe_zoom {T A} (l : Lens X T) (P : L -> Prop) (r : Res T A) :
  (forall x t, loc (update l t x) = loc x) ->
  (forall x t, I x -> I (update l t x)) ->
  (forall x t, I x -> G x (update l t x)) ->
  rsafe loc I G P (res_zoom l r) (fun _ => P).
Proof.
  intros Hloc HI HG.
  assert (Hn : forall (nd : Node T A) x, P (loc x) -> nsafe loc I G (fun _ : A => P) (loc x) (node_zoom l nd)).
  { intros nd. induction nd as [a|m IH] using node_ind'; intros x Hx; cbn [node_zoom]; constructor.
    - done.
    - intros x0 Hx0 _. destruct (m (view l x0)). by apply HI.
    - intros x0 Hx0 _. destruct (m (view l x0)). by apply HG.
    - intros x0 Hx0 Hl0. specialize (IH (view l x0)). destruct (m (view l x0)) as [nd' t].
      cbn [fst snd] in *. apply IH. by rewrite Hloc, Hl0. }
  intros x Hx Hl. unfold res_zoom. destruct (r (view l x)) as [nd t]. cbn [fst snd].
  split_and!; [by apply HI|by apply HG|]. apply Hn. by rewrite Hloc.
Qed.

(** A component's resumption, safe for the component's invariant and
    guarantee, when the whole state's ones are the component's. *)
Lemma rsafe_zoom_view {T A} (l : Lens X T) (locT : T -> L) (IT : T -> Prop) (GT : T -> T -> Prop)
    (P : L -> Prop) (r : Res T A) (Q : A -> L -> Prop) :
  (forall x, loc x = locT (view l x)) -> (forall x, I x <-> IT (view l x)) ->
  (forall x y, G x y <-> GT (view l x) (view l y)) ->
  rsafe locT IT GT P r Q -> rsafe loc I G P (res_zoom l r) Q.
Proof.
  intros Hloc HI HG Hr.
  assert (Hn : forall lt (nd : Node T A), nsafe locT IT GT Q lt nd -> nsafe loc I G Q lt (node_zoom l nd)).
  { intros lt nd H. induction H as [lt a Ha|lt m H1 H2 _ IH]; cbn [node_zoom]; constructor; [done| | |].
    - intros x Hx Hl. rewrite Hloc in Hl. rewrite HI in Hx. specialize (H1 _ Hx Hl).
      destruct (m (view l x)) as [nd' t]. cbn in *. by rewrite HI, view_update.
    - intros x Hx Hl. rewrite Hloc in Hl. rewrite HI in Hx. specialize (H2 _ Hx Hl).
      destruct (m (view l x)) as [nd' t]. cbn in *. by rewrite HG, view_update.
    - intros x Hx Hl. rewrite Hloc in Hl. rewrite HI in Hx. specialize (IH _ Hx Hl).
      destruct (m (view l x)) as [nd' t]. cbn in *. by rewrite Hloc, view_update. }
  intros x Hx Hl. rewrite HI in Hx. rewrite Hloc in Hl. destruct (Hr _ Hx Hl) as (H1 & H2 & H3).
  unfold res_zoom. destruct (r (view l x)) as [nd t]. cbn in *.
  rewrite HI, HG, Hloc, view_update. split_and!; [done|done|]. by apply Hn.
Qed.

End SafetyLemmas.

(** ** Bounds on the number of segments *)

Section Bounds.
Context {X : Type}.

Lemma within_mono {A} n n' (nd : Node X A) : within n nd -> n <= n' -> within n' nd.
Proof.
  revert n n'. induction nd as [a|m IH] using node_ind'; intros n n' H Hle; [by destruct n'|].
  destruct n as [|n]; [by destruct H|]. destruct n' as [|n']; [lia|]. intros x. apply (IH x n); [apply H|lia].
Qed.

Lemma rwithin_mono {A} n n' (r : Res X A) : rwithin n r -> n <= n' -> rwithin n' r.
Proof. intros H Hle x. by apply (within_mono n). Qed.

Lemma rwithin_ret {A} n (a : A) : rwithin (X:=X) n (res_ret a).
Proof. intros x. by destruct n. Qed.

Lemma rwithin_lift {A} n (m : St X A) : rwithin n (lift m).
Proof. intros x. unfold lift. destruct (m x). by destruct n. Qed.

Lemma rwithin_wait n : rwithin (X:=X) (Datatypes.S n) wait.
Proof. intros x y. by destruct n. Qed.

Lemma within_bind {A B} n m (nd : Node X A) (f : A -> Res X B) :
  within n nd -> (forall a, rwithin m (f a)) -> rwithin (n + m) (node_bind nd f).
Proof.
  revert n. induction nd as [a|mm IH] using node_ind'; intros n Hnd Hf x; cbn.
  - apply (within_mono m); [apply Hf | lia].
  - destruct n as [|n]; [by destruct Hnd|]. intros y. unfold st_bind. cbn in Hnd.
    specialize (Hnd y). pose proof (IH y n) as IH'. destruct (mm y) as [nd' y'] eqn:E. cbn in *.
    exact (IH' Hnd Hf y').
Qed.

Lemma rwithin_bind {A B} n m (r : Res X A) (f : A -> Res X B) :
  rwithin n r -> (forall a, rwithin m (f a)) -> rwithin (n + m) (res_bind r f).
Proof.
  intros Hr Hf x. unfold res_bind, st_bind. specialize (Hr x). destruct (r x) as [nd x']. by apply within_bind.
Qed.

(** The form the proofs use: the bound of the rest is what the first
    part leaves. *)
Lemma rwithin_bind_sub {A B} n k (r : Res X A) (f : A -> Res X B) :
  rwithin n r -> (forall a, rwithin (k - n) (f a)) -> n <= k -> rwithin k (res_bind r f).
Proof. intros Hr Hf Hle. apply (rwithin_mono (n + (k - n))); [by apply rwithin_bind | lia]. Qed.

Lemma rwithin_await {A} n (m : St X A) : rwithin (Datatypes.S n) (await m).
Proof. apply (rwithin_bind_sub 1); [apply rwithin_wait | intros; apply rwithin_lift | lia]. Qed.

Lemma within_zoom {T A} (l : Lens X T) n (nd : Node T A) : within n nd -> within n (node_zoom l nd).
Proof.
  revert n. induction nd as [a|m IH] using node_ind'; intros n H; [by destruct n|].
  destruct n as [|n]; [by destruct H|]. intros x. cbn. specialize (H (view l x)).
  pose proof (IH (view l x) n) as IH'. destruct (m (view l x)) as [nd' t] eqn:E. cbn in *. exact (IH' H).
Qed.

Lemma rwithin_zoom {T A} (l : Lens X T) n (r : Res T A) : rwithin n r -> rwithin n (res_zoom l r).
Proof. intros H x. unfold res_zoom. specialize (H (view l x)). destruct (r (view l x)). by apply within_zoom. Qed.

End Bounds.

(** The bounds of the components, as hints. *)
Create HintDb within.

(** The first part of a sequence, with its exact bound. *)
Ltac within_first :=
  first [ apply (rwithin_ret 0) | apply (rwithin_lift 0) | apply (rwithin_wait 0) | apply (rwithin_await 0)
        | apply rwithin_zoom; within_first | solve [eauto with within] ].

(** One step of a proof of [rwithin] with a known bound. *)
Ltac within_step :=
  match goal with
  | |- rwithin _ (res_bind _ _) => eapply rwithin_bind_sub; [within_first | intros ? | lia]
  | |- rwithin _ (res_ret _) => apply rwithin_ret
  | |- rwithin _ (lift _) => apply rwithin_lift
  | |- rwithin _ wait => eapply rwithin_mono; [apply (rwithin_wait 0) | lia]
  | |- rwithin _ (await _) => eapply rwithin_mono; [apply (rwithin_await 0) | lia]
  | |- rwithin _ (res_zoom _ _) => apply rwithin_zoom
  | |- rwithin _ (let _ := _ in _) => cbv zeta
  | |- rwithin _ _ => first [eapply rwithin_mono; [solve [eauto with within] | lia] | case_match]
  end.

