(* ===== verification/Store.v ===== *)
(** * The user collection: the mongoose model [User] of app.js

    The schema (app.js lines 31-43) declares [password], [googleId] and
    [username]; the passport-local-mongoose plugin (line 45) adds the
    [hash] and [salt] fields. [googleId] and [username] carry
    [unique: true] without [sparse], so MongoDB builds two unique
    indexes in which a document that lacks the field is indexed under
    [null]: at most one document may lack each field. [save] of a new
    document inserts it or fails with the E11000 duplicate-key error
    of the first index it violates. The collection is a list in
    insertion (natural) order, which is the order [findOne] scans.
    [connected] is the state of the connection of line 28: while it is
    down, mongoose buffers every query and insert and rejects it after
    [bufferTimeoutMS]. *)

From S2P Require Import Prelude.

Module Store.

(** ** Documents and the collection *)

(** A [User] document. [_id] is the ObjectId that mongoose assigns
    when the document object is constructed; fields absent from the
    document are [None]. *)
Record Doc := mkDoc {
  _id : nat;
  username : option string;
  googleId : option string;
  password : option string;
  salt : option string;
  hash : option string
}.

#[export] Instance Doc_eq_dec : EqDecision Doc.
Proof. solve_decision. Defined.

(** The collection, the ObjectId source, and whether the connection
    that [mongoose.connect] opens (app.js line 28) is up. *)
Record Db := mkDb {
  docs : list Doc;
  next_oid : nat;
  connected : bool
}.

(** The duplicate-key error of the server, and mongoose's error for an
    operation buffered while the connection is down: it is rejected
    after [bufferTimeoutMS] ("Operation `users.findOne()` buffering
    timed out after 10000ms"). *)
Inductive MongoError :=
| E11000 (index : string)
| BufferTimeout (op : string).

#[export] Instance MongoError_eq_dec : EqDecision MongoError.
Proof. solve_decision. Defined.

(** The unique indexes of the schema, by their MongoDB names: the key
    of a document in an index is the field's value, [None] standing
    for the [null] under which MongoDB indexes a missing field. *)
Definition unique_indexes : list (string * (Doc -> option string)) :=
  [("googleId_1", googleId); ("username_1", username)].

(** ** Operations *)

(** [new ObjectId()]: a fresh identifier. *)
Definition new_oid : St Db nat :=
  fun db => (next_oid db, mkDb (docs db) (S (next_oid db)) (connected db)).

(** [Model.findOne(conditions)]: the first document, in natural order,
    that matches the conditions; without a connection the buffered
    query times out. *)
Definition findOne (cond : Doc -> bool) : St Db (result MongoError (option Doc)) :=
  fun db =>
    if connected db then (Ok (List.find cond (docs db)), db)
    else (Err (BufferTimeout "users.findOne()"), db).

(** The condition [{ field: v }] for a string [v]: a document without
    the field does not match. *)
Definition field_is (f : Doc -> option string) (v : string) (d : Doc) : bool :=
  bool_decide (f d = Some v).

(** Whether the key of [d] in index [k] is already taken in [c]. *)
Definition key_taken {K} `{EqDecision K} (k : Doc -> K) (d : Doc) (c : list Doc) : bool :=
  existsb (fun e => bool_decide (k e = k d)) c.

(** The first unique index that the insertion of [d] violates. *)
Definition dup_key (d : Doc) (c : list Doc) : option string :=
  if key_taken _id d c then Some "_id_"
  else option_map fst
         (List.find (fun ix => key_taken (snd ix) d c) unique_indexes).

(** [doc.save()] of a new document: an insert, refused with E11000 by
    the first unique index it violates; without a connection the
    buffered insert times out. *)
Definition save (d : Doc) : St Db (result MongoError Doc) :=
  fun db =>
    if connected db then
      match dup_key d (docs db) with
      | Some ix => (Err (E11000 ix), db)
      | None => (Ok d, mkDb (docs db ++ [d]) (next_oid db) (connected db))
      end
    else (Err (BufferTimeout "users.insertOne()"), db).

(** passport-local-mongoose's [findByUsername(username)]: a [findOne]
    on [{ $or: [{ username: username }] }]. *)
Definition findByUsername (u : string) : St Db (result MongoError (option Doc)) :=
  findOne (field_is username u).

(** mongoose-findorcreate's [findOrCreate({ googleId: g })]: the first
    document with that [googleId], or else a new document built from
    the conditions and saved; the error of [findOne]
    ([if (err || result) callback(err, result)]) and that of [save] are
    passed on. *)
Definition findOrCreate (g : string) : St Db (result MongoError Doc) :=
  (found <- findOne (field_is googleId g) ;;
   match found with
   | Err e => ret (Err e)
   | Ok (Some d) => ret (Ok d)
   | Ok None =>
       oid <- new_oid ;;
       save (mkDoc oid None (Some g) None None None)
   end)%st.

(** ** The invariant of the collection *)

(** Every unique index holds (missing fields included, as MongoDB
    enforces it), and every [_id] was issued by the ObjectId source. *)
Definition db_wf (db : Db) : Prop :=
  NoDup (map _id (docs db)) /\
  NoDup (map googleId (docs db)) /\
  NoDup (map username (docs db)) /\
  Forall (fun d => _id d < next_oid db) (docs db).

(** Every document with a salt has a hash: a document [setPassword]
    completed has both, one [findOrCreate] builds has neither. *)
Definition hashed (db : Db) : Prop :=
  Forall (fun d => is_Some (salt d) -> is_Some (hash d)) (docs db).


(** ** Lemmas on the duplicate-key check *)

Lemma key_taken_false {K} `{EqDecision K} (k : Doc -> K) d c : key_taken k d c = false <-> k d ∉ map k c.
Proof.
  unfold key_taken. rewrite existsb_false_iff, Forall_forall. split.
  - intros H Hin. apply list_elem_of_fmap in Hin as [e [He Hin]].
    specialize (H e Hin).
    rewrite bool_decide_eq_false in H. congruence.
  - intros H e Hin. apply bool_decide_eq_false. intros He. apply H.
    rewrite <- He. by apply list_elem_of_fmap_2.
Qed.

Lemma dup_key_None d c :
  dup_key d c = None <->
  (_id d ∉ map _id c) /\ (googleId d ∉ map googleId c) /\ (username d ∉ map username c).
Proof.
  rewrite <- !key_taken_false. unfold dup_key. simpl.
  destruct (key_taken _id d c), (key_taken googleId d c), (key_taken username d c);
    simpl; naive_solver.
Qed.

(** [findOne] and [save] with the connection up, and down. *)
Lemma findOne_up cond db :
  connected db = true -> findOne cond db = (Ok (List.find cond (docs db)), db).
Proof. intros H. unfold findOne. by rewrite H. Qed.

Lemma findOne_down cond db :
  connected db = false -> findOne cond db = (Err (BufferTimeout "users.findOne()"), db).
Proof. intros H. unfold findOne. by rewrite H. Qed.

Lemma save_ok d db :
  connected db = true -> dup_key d (docs db) = None ->
  save d db = (Ok d, mkDb (docs db ++ [d]) (next_oid db) (connected db)).
Proof. intros Hc H. unfold save. by rewrite Hc, H. Qed.

Lemma save_err d db ix :
  connected db = true -> dup_key d (docs db) = Some ix -> save d db = (Err (E11000 ix), db).
Proof. intros Hc H. unfold save. by rewrite Hc, H. Qed.

Lemma save_down d db :
  connected db = false -> save d db = (Err (BufferTimeout "users.insertOne()"), db).
Proof. intros Hc. unfold save. by rewrite Hc. Qed.

(** [save] fails and changes nothing, or inserts at the end. *)
Lemma save_cases d db :
  (exists e, save d db = (Err e, db)) \/
  (connected db = true /\ dup_key d (docs db) = None /\
   save d db = (Ok d, mkDb (docs db ++ [d]) (next_oid db) (connected db))).
Proof.
  unfold save. destruct (connected db); [|left; by eexists].
  destruct (dup_key d (docs db)); [left; by eexists | right; by split_and!].
Qed.

(** [findOne] on a collection grown at the end by [save]. *)
Lemma find_snoc (p : Doc -> bool) c d :
  List.find p (c ++ [d]) =
  match List.find p c with Some e => Some e | None => if p d then Some d else None end.
Proof. induction c as [|e c IH]; simpl; [done|]. by destruct (p e). Qed.

Lemma find_none_forall (p : Doc -> bool) c :
  List.find p c = None -> Forall (fun e => p e = false) c.
Proof.
  induction c as [|e c IH]; simpl; [constructor|].
  destruct (p e) eqn:E; [done|]. intros H. constructor; auto.
Qed.

Lemma find_some_in (p : Doc -> bool) c d :
  List.find p c = Some d -> d ∈ c /\ p d = true.
Proof.
  intros H. apply List.find_some in H as [H1 H2].
  split; [apply list_elem_of_In|]; done.
Qed.

Lemma key_taken_true {K} `{EqDecision K} (k : Doc -> K) d e c :
  e ∈ c -> k e = k d -> key_taken k d c = true.
Proof.
  intros Hin Hk. unfold key_taken. apply existsb_exists.
  exists e. split; [by apply list_elem_of_In|]. by apply bool_decide_eq_true.
Qed.

#[export] Hint Resolve save_ok save_err save_down key_taken_true : app.

(** ** The invariant is preserved *)

Lemma new_oid_wf db : db_wf db -> db_wf (snd (new_oid db)).
Proof.
  intros (H1 & H2 & H3 & H4). split_and!; try done. simpl.
  eapply Forall_impl; [exact H4|]. simpl. lia.
Qed.

Lemma save_wf d db : db_wf db -> _id d < next_oid db -> db_wf (snd (save d db)).
Proof.
  intros (H1 & H2 & H3 & H4) Hd.
  destruct (save_cases d db) as [[e ->] | (_ & Hn & ->)]; simpl; [by split_and!|].
  apply dup_key_None in Hn as (N1 & N2 & N3).
  simpl. split_and!; try (apply NoDup_map_snoc; assumption).
  apply Forall_app. split; [done|]. by constructor.
Qed.

(** ** [findOrCreate] on each branch *)

Lemma findOrCreate_found g db d :
  connected db = true -> List.find (field_is googleId g) (docs db) = Some d ->
  findOrCreate g db = (Ok d, db).
Proof. intros Hc H. unfold findOrCreate, st_bind. by rewrite findOne_up, H. Qed.

Lemma findOrCreate_create g db :
  connected db = true -> List.find (field_is googleId g) (docs db) = None ->
  findOrCreate g db =
  save (mkDoc (next_oid db) None (Some g) None None None)
       (mkDb (docs db) (S (next_oid db)) (connected db)).
Proof. intros Hc H. unfold findOrCreate, st_bind. by rewrite findOne_up, H. Qed.

Lemma findOrCreate_down g db :
  connected db = false -> findOrCreate g db = (Err (BufferTimeout "users.findOne()"), db).
Proof. intros Hc. unfold findOrCreate, st_bind. by rewrite findOne_down. Qed.

(** The three branches of [findOrCreate]: the query fails, finds a
    document, or finds none and the new document is saved. *)
Lemma findOrCreate_cases g db :
  (connected db = false /\ findOrCreate g db = (Err (BufferTimeout "users.findOne()"), db)) \/
  (exists d, connected db = true /\ List.find (field_is googleId g) (docs db) = Some d /\
     findOrCreate g db = (Ok d, db)) \/
  (connected db = true /\ List.find (field_is googleId g) (docs db) = None /\
   findOrCreate g db = save (mkDoc (next_oid db) None (Some g) None None None)
                            (mkDb (docs db) (S (next_oid db)) (connected db))).
Proof.
  destruct (decide (connected db = true)) as [Hc|Hc%not_true_is_false];
    [|left; split; [done|by apply findOrCreate_down]].
  right. destruct (List.find (field_is googleId g) (docs db)) eqn:E;
    [left; eexists; split_and!; [done..|by apply findOrCreate_found] | right; split_and!; [done..|by apply findOrCreate_create]].
Qed.

Lemma findOrCreate_wf g db : db_wf db -> db_wf (snd (findOrCreate g db)).
Proof.
  intros Hwf. destruct (findOrCreate_cases g db) as [(_ & ->)|[(d & _ & _ & ->)|(_ & _ & ->)]]; [done..|].
  apply (save_wf _ (mkDb _ _ _)); [apply (new_oid_wf db Hwf) | simpl; lia].
Qed.

#[export] Hint Resolve new_oid_wf save_wf findOrCreate_wf : app.

(** ** Documents with a salt keep a hash *)

Lemma new_oid_hashed db : hashed db -> hashed (snd (new_oid db)).
Proof. done. Qed.

Lemma save_hashed d db :
  hashed db -> (is_Some (salt d) -> is_Some (hash d)) -> hashed (snd (save d db)).
Proof.
  intros H Hd. destruct (save_cases d db) as [[e ->] | (_ & _ & ->)]; [done|].
  apply Forall_app. split; [done|]. by constructor.
Qed.

Lemma findOrCreate_hashed g db : hashed db -> hashed (snd (findOrCreate g db)).
Proof.
  intros H. destruct (findOrCreate_cases g db) as [(_ & ->)|[(d & _ & _ & ->)|(_ & _ & ->)]]; [done..|].
  apply (save_hashed _ (mkDb _ _ _)); [done | by intros []].
Qed.

(** Under the invariant, two documents that share a key of a unique
    index are the same document. *)
Lemma db_wf_same_key db d e :
  db_wf db -> d ∈ docs db -> e ∈ docs db ->
  _id d = _id e \/ googleId d = googleId e \/ username d = username e -> d = e.
Proof.
  intros (H1 & H2 & H3 & _) Hd He [Hk|[Hk|Hk]];
    [apply (NoDup_map_same_key _id _ d e H1) | apply (NoDup_map_same_key googleId _ d e H2)
    | apply (NoDup_map_same_key username _ d e H3)]; done.
Qed.

(** A document returned by [findOrCreate g] carries [googleId = g], and
    the collection afterwards contains it. *)
Lemma findOrCreate_ok g db d db' :
  findOrCreate g db = (Ok d, db') ->
  googleId d = Some g /\ d ∈ docs db' /\
  List.find (field_is googleId g) (docs db') = Some d /\ connected db' = true.
Proof.
  destruct (findOrCreate_cases g db) as [(_ & ->)|[(e & Hc & E & ->)|(Hc & E & ->)]]; [done| |].
  - intros [= <- <-].
    pose proof (find_some_in _ _ _ E) as [Hin Hg]. unfold field_is in Hg.
    apply bool_decide_eq_true in Hg. auto.
  - destruct (save_cases (mkDoc (next_oid db) None (Some g) None None None)
                         (mkDb (docs db) (S (next_oid db)) (connected db)))
      as [[e ->] | (_ & _ & ->)]; [done|].
    intros [= <- <-]. simpl. split_and!; [done| | |done].
    + apply elem_of_app. right. by constructor.
    + rewrite find_snoc, E. unfold field_is. simpl. by rewrite bool_decide_eq_true_2.
Qed.

(** A [findOrCreate] that fails adds no document. *)
Lemma findOrCreate_err_docs g db e db' :
  findOrCreate g db = (Err e, db') -> docs db' = docs db.
Proof.
  destruct (findOrCreate_cases g db) as [(_ & ->)|[(d & _ & _ & ->)|(_ & _ & ->)]];
    [by intros [= _ <-] | done |].
  destruct (save_cases (mkDoc (next_oid db) None (Some g) None None None)
                       (mkDb (docs db) (S (next_oid db)) (connected db))) as [[e' ->] | (_ & _ & ->)];
    [by intros [= _ <-] | done].
Qed.

(** ** Duplicate keys on missing fields *)

Lemma fresh_oid_notin db : db_wf db -> next_oid db ∉ map _id (docs db).
Proof.
  intros (_ & _ & _ & H4) Hin. apply list_elem_of_fmap in Hin as [e [He Hin]].
  rewrite Forall_forall in H4. specialize (H4 e Hin). lia.
Qed.

Lemma find_exists (p : Doc -> bool) c e :
  e ∈ c -> p e = true -> exists e', List.find p c = Some e'.
Proof.
  intros Hin Hp. destruct (List.find p c) as [e'|] eqn:E; [by eauto|].
  apply find_none_forall in E. rewrite Forall_forall in E.
  specialize (E e Hin). congruence.
Qed.

(** No document matches [{ f: v }] exactly when [v] is no document's [f]. *)
Lemma find_none_field (f : Doc -> option string) v c :
  List.find (field_is f v) c = None -> Some v ∉ map f c.
Proof.
  intros Hf Hin. apply list_elem_of_fmap in Hin as [e [He Hin]].
  apply find_none_forall in Hf. rewrite Forall_forall in Hf.
  specialize (Hf e Hin). unfold field_is in Hf. rewrite bool_decide_eq_false in Hf. congruence.
Qed.

(** A document without [googleId] is refused by [googleId_1] once the
    collection holds one: both are indexed under [null]. *)
Lemma dup_key_missing_googleId d c e :
  e ∈ c -> googleId e = None -> googleId d = None -> _id d ∉ map _id c ->
  dup_key d c = Some "googleId_1".
Proof.
  intros He Hg Hd Hid. unfold dup_key.
  rewrite (proj2 (key_taken_false _ _ _) Hid). simpl.
  by rewrite (key_taken_true googleId d e) by congruence.
Qed.

(** Likewise [username_1] refuses a second document without [username]
    (whose [googleId] is new). *)
Lemma dup_key_missing_username d c e :
  e ∈ c -> username e = None -> username d = None ->
  _id d ∉ map _id c -> googleId d ∉ map googleId c ->
  dup_key d c = Some "username_1".
Proof.
  intros He Hu Hd Hid Hg. unfold dup_key.
  rewrite (proj2 (key_taken_false _ _ _) Hid). simpl.
  rewrite (proj2 (key_taken_false _ _ _) Hg).
  by rewrite (key_taken_true username d e) by congruence.
Qed.

(** A new [googleId] is refused by [username_1] once some document
    lacks [username] (every Google account does): the new document
    lacks it too. *)
Lemma findOrCreate_missing_username g db e :
  db_wf db -> connected db = true -> List.find (field_is googleId g) (docs db) = None ->
  e ∈ docs db -> username e = None ->
  findOrCreate g db = (Err (E11000 "username_1"), mkDb (docs db) (S (next_oid db)) (connected db)).
Proof.
  intros Hwf Hc Hf Hin Hu. rewrite (findOrCreate_create _ _ Hc Hf).
  apply save_err; [done|]. simpl. apply (dup_key_missing_username _ _ e); [done..| |].
  - by apply fresh_oid_notin.
  - by apply find_none_field.
Qed.

(** Idempotence of [findOrCreate] (spec 4.1 and section 8): once
    it has returned a document for [googleId = g], called again on the
    resulting collection it returns the same document and changes
    nothing. *)
Theorem findOrCreate_idempotent g db d db1 :
  findOrCreate g db = (Ok d, db1) -> findOrCreate g db1 = (Ok d, db1).
Proof. intros H. destruct (findOrCreate_ok _ _ _ _ H) as (_ & _ & Hf & Hc). by apply findOrCreate_found. Qed.

Lemma findOrCreate_idempotent_witness :
  findOrCreate "g-42" (mkDb [] 0 true) =
    (Ok (mkDoc 0 None (Some "g-42") None None None), mkDb [mkDoc 0 None (Some "g-42") None None None] 1 true) /\
  findOrCreate "g-42" (mkDb [mkDoc 0 None (Some "g-42") None None None] 1 true) =
    (Ok (mkDoc 0 None (Some "g-42") None None None), mkDb [mkDoc 0 None (Some "g-42") None None None] 1 true).
Proof.
  assert (H : findOrCreate "g-42" (mkDb [] 0 true) =
    (Ok (mkDoc 0 None (Some "g-42") None None None), mkDb [mkDoc 0 None (Some "g-42") None None None] 1 true))
    by reflexivity.
  split; [exact H | exact (findOrCreate_idempotent _ _ _ _ H)].
Defined.

End Store.
