(* ===== verification/Credential.v ===== *)
(** * Local credentials: the passport-local-mongoose plugin

    [userSchema.plugin(passportLocalMongoose)] (app.js line 45) gives
    the [User] model [register], the document methods [setPassword]
    and [authenticate], and the verify function of the local strategy
    that [User.createStrategy()] (line 51) installs. The hash function
    (pbkdf2) and the salt source ([crypto.randomBytes]) are the
    interface [Kdf]; the development is proved for every instance, and
    the rejection of a wrong password for every instance that is
    collision-free on passwords ([KdfInjective]). A document with a
    salt and no hash makes [authenticate] throw ([VThrow]): the plugin
    reads the missing hash with [Buffer.from] in the callback of
    pbkdf2, where nothing catches the [TypeError]. [register] never
    writes such a document ([register_hashed]). *)

From S2P Require Import Prelude Store.
Import Store.

Module Credential.

(** ** The interface of the hash and the salt source *)

Class Kdf := {
  (** [pbkdf2(password, salt)], encoded as the stored hex string *)
  pbkdf2 : string -> string -> string;
  (** the hex string of the [n]-th draw of [randomBytes(saltlen)] *)
  gen_salt : nat -> string;
  gen_salt_nonempty : forall n, gen_salt n <> "";
  gen_salt_inj : forall n m, gen_salt n = gen_salt m -> n = m
}.

Class KdfInjective `{Kdf} :=
  pbkdf2_inj : forall p p' s, pbkdf2 p s = pbkdf2 p' s -> p = p'.

(** A concrete instance, for evaluating the witnesses: the salt of the
    [n]-th draw is ["s"] followed by [n] letters, and the hash is the
    salt, a colon and the password. *)
Fixpoint a_string (n : nat) : string :=
  match n with 0 => "" | S m => ("a" +:+ a_string m)%string end.

Program Definition demo_kdf : Kdf :=
  {| pbkdf2 := fun pw s => (s +:+ ":" +:+ pw)%string;
     gen_salt := fun n => ("s" +:+ a_string n)%string |}.
Next Obligation. done. Qed.
Next Obligation.
  intros n m [= H]. revert m H.
  induction n as [|n IH]; intros [|m]; simpl; try done. intros [= H]. f_equal. by apply IH.
Qed.

#[export] Instance demo_kdf_injective : @KdfInjective demo_kdf.
Proof.
  intros p p' s H. simpl in H.
  induction s as [|c s IH]; simpl in H; [by simplify_eq | apply IH; by simplify_eq].
Qed.

(** ** State: the collection and the salt source *)

Record Accounts := mkAccounts {
  acc_db : Db;
  acc_rng : nat
}.

Program Definition db_lens : Lens Accounts Db :=
  {| view := acc_db; update := fun d a => mkAccounts d (acc_rng a) |}.
Next Obligation. done. Qed.
Next Obligation. by intros []. Qed.
Next Obligation. done. Qed.

(** The errors of passport-local-mongoose, and the database error it
    passes on. *)
Inductive PlmError :=
| MissingPasswordError
| MissingUsernameError
| UserExistsError
| IncorrectUsernameError
| IncorrectPasswordError
| NoSaltValueStoredError
| DbError (e : MongoError).

#[export] Instance PlmError_eq_dec : EqDecision PlmError.
Proof. solve_decision. Defined.

(** What a passport verify function reports: [cb(null, user)],
    [cb(null, false, info)] or [cb(err)]; or it throws in a callback,
    where nothing catches the exception and the process exits. *)
Inductive Verified :=
| VOk (d : Doc)
| VFail (e : PlmError)
| VError
| VThrow.

Section WithKdf.
Context {kdf : Kdf}.

(** [draw]: [randomBytes(saltlen).toString('hex')]. *)
Definition draw_salt : St Accounts string :=
  fun a => (gen_salt (acc_rng a), mkAccounts (acc_db a) (S (acc_rng a))).

(** [user.setPassword(password)]: refuses a falsy password, draws a
    salt, and sets [salt] and [hash] on the document. *)
Definition setPassword (d : Doc) (password : option string) : St Accounts (result PlmError Doc) :=
  match truthy_val password with
  | None => (ret (Err MissingPasswordError))%st
  | Some pw =>
      (s <- draw_salt ;;
       ret (Ok (mkDoc (_id d) (username d) (googleId d) (Store.password d)
                      (Some s) (Some (pbkdf2 pw s)))))%st
  end.

(** [user.authenticate(password)]: no (truthy) salt is a failure;
    otherwise, in the callback of [pbkdf2], the stored hash is read
    with [Buffer.from(user.get('hash'), 'hex')], which throws a
    [TypeError] when the hash is missing (an uncaught exception: the
    process exits), and the recomputed hash is compared with it. *)
Definition authenticate (d : Doc) (pw : string) : Verified :=
  match truthy_val (salt d) with
  | None => VFail NoSaltValueStoredError
  | Some s =>
      match hash d with
      | None => VThrow
      | Some h => if bool_decide (pbkdf2 pw s = h) then VOk d else VFail IncorrectPasswordError
      end
  end.

(** [User.authenticate()(username, password, cb)]: the verify function
    of the local strategy; an error of the query is passed to [cb(err)]. *)
Definition verify_local (u pw : string) : St Accounts Verified :=
  (found <- zoom db_lens (findByUsername u) ;;
   match found with
   | Err _ => ret VError
   | Ok None => ret (VFail IncorrectUsernameError)
   | Ok (Some d) => ret (authenticate d pw)
   end)%st.

(** [User.register({ username, active: false }, password, cb)]: the
    document is constructed first (which issues its ObjectId; [active]
    is not a path of the strict schema and is dropped); a falsy
    username, an existing username and a falsy password are refused in
    that order; then [setPassword] and [save]. An error of the query or
    of the insert rejects the promise chain, and reaches [cb(err)]. *)
Definition register (u : option string) (password : option string) : St Accounts (result PlmError Doc) :=
  (oid <- zoom db_lens new_oid ;;
   let d := mkDoc oid u None None None None in
   match truthy_val u with
   | None => ret (Err MissingUsernameError)
   | Some name =>
       existing <- zoom db_lens (findByUsername name) ;;
       match existing with
       | Err e => ret (Err (DbError e))
       | Ok (Some _) => ret (Err UserExistsError)
       | Ok None =>
           r <- setPassword d password ;;
           match r with
           | Err e => ret (Err e)
           | Ok d' =>
               saved <- zoom db_lens (save d') ;;
               match saved with
               | Ok d'' => ret (Ok d'')
               | Err e => ret (Err (DbError e))
               end
           end
       end
   end)%st.

(** The document [register] saves: the ObjectId issued at construction,
    the username, and the salt and hash of [setPassword]. *)
Definition registered_doc (a : Accounts) (u : option string) (pw : string) : Doc :=
  let s := gen_salt (acc_rng a) in
  mkDoc (next_oid (acc_db a)) u None None (Some s) (Some (pbkdf2 pw s)).

(** ** [setPassword] and [authenticate] *)

Lemma setPassword_ok d password pw a :
  truthy_val password = Some pw ->
  setPassword d password a =
  (Ok (mkDoc (_id d) (username d) (googleId d) (Store.password d)
             (Some (gen_salt (acc_rng a))) (Some (pbkdf2 pw (gen_salt (acc_rng a))))),
   mkAccounts (acc_db a) (S (acc_rng a))).
Proof. intros H. unfold setPassword. by rewrite H. Qed.

Lemma setPassword_missing d password a :
  truthy_val password = None -> setPassword d password a = (Err MissingPasswordError, a).
Proof. intros H. unfold setPassword. by rewrite H. Qed.

Lemma authenticate_hashed d pw s :
  s <> "" -> salt d = Some s -> hash d = Some (pbkdf2 pw s) ->
  forall pw', authenticate d pw' =
              if bool_decide (pbkdf2 pw' s = pbkdf2 pw s) then VOk d
              else VFail IncorrectPasswordError.
Proof.
  intros Hs Hsalt Hhash pw'. unfold authenticate.
  by rewrite Hsalt, truthy_val_nonempty, Hhash.
Qed.

(** C16. Round trip of the credential (spec 4.2): a document whose
    password was set with [setPassword] authenticates with that
    password, whatever the salt drawn. *)
Theorem setPassword_authenticate d password pw a d' a' :
  truthy_val password = Some pw ->
  setPassword d password a = (Ok d', a') ->
  authenticate d' pw = VOk d'.
Proof.
  intros H. rewrite (setPassword_ok _ _ _ _ H). intros [= <- _].
  rewrite (authenticate_hashed _ pw (gen_salt (acc_rng a)));
    [by rewrite bool_decide_eq_true_2 | apply gen_salt_nonempty | done | done].
Qed.

(** C17. A different password is rejected (spec 4.2 and section 8),
    for every hash function without collisions on passwords. *)
Theorem setPassword_authenticate_wrong {kinj : KdfInjective} d password pw pw' a d' a' :
  truthy_val password = Some pw -> pw' <> pw ->
  setPassword d password a = (Ok d', a') ->
  authenticate d' pw' = VFail IncorrectPasswordError.
Proof.
  intros Hpw Hne. rewrite (setPassword_ok _ _ _ _ Hpw). intros [= <- _].
  rewrite (authenticate_hashed _ pw (gen_salt (acc_rng a)));
    [| apply gen_salt_nonempty | done | done].
  rewrite bool_decide_eq_false_2; [done|]. intros Hp. by apply Hne, (pbkdf2_inj _ _ _ Hp).
Qed.

(** ** [register] *)

(** [register] on every branch. *)
Lemma register_eq u password a :
  register u password a =
  let db1 := mkDb (docs (acc_db a)) (S (next_oid (acc_db a))) (connected (acc_db a)) in
  let a1 := mkAccounts db1 (acc_rng a) in
  match truthy_val u with
  | None => (Err MissingUsernameError, a1)
  | Some name =>
      if connected (acc_db a) then
        match List.find (field_is username name) (docs (acc_db a)) with
        | Some _ => (Err UserExistsError, a1)
        | None =>
            match truthy_val password with
            | None => (Err MissingPasswordError, a1)
            | Some pw =>
                let d := registered_doc a u pw in
                match dup_key d (docs (acc_db a)) with
                | Some ix => (Err (DbError (E11000 ix)), mkAccounts db1 (S (acc_rng a)))
                | None => (Ok d, mkAccounts (mkDb (docs (acc_db a) ++ [d]) (S (next_oid (acc_db a)))
                                                  (connected (acc_db a))) (S (acc_rng a)))
                end
            end
        end
      else (Err (DbError (BufferTimeout "users.findOne()")), a1)
  end.
Proof.
  destruct a as [[c n b] r]. unfold register. st_unfold. simpl.
  destruct (truthy_val u) as [name|]; [|done]. unfold findOne. simpl.
  destruct b; [|done]. simpl.
  destruct (List.find _ c); [done|]. unfold setPassword.
  destruct (truthy_val password) as [pw|]; [|done]. simpl.
  unfold save, registered_doc. simpl. by destruct (dup_key _ c).
Qed.

(** A refused registration consumes only the ObjectId of the document
    it constructed (and the salt, once drawn): the collection is
    unchanged. *)
Lemma register_err u password a e a' :
  register u password a = (Err e, a') -> acc_db a' = snd (new_oid (acc_db a)).
Proof.
  rewrite register_eq. simpl.
  destruct (truthy_val u); [|by intros [= _ <-]]. destruct (connected _); [|by intros [= _ <-]].
  destruct (List.find _ _); [by intros [= _ <-]|].
  destruct (truthy_val password); [|by intros [= _ <-]]. by destruct (dup_key _ _); intros [= _ <-].
Qed.

(** What a successful [register] was given, and what it did. *)
Lemma register_ok_inv u password a d a' :
  register u password a = (Ok d, a') ->
  exists name pw,
    truthy_val u = Some name /\ truthy_val password = Some pw /\
    List.find (field_is username name) (docs (acc_db a)) = None /\
    d = registered_doc a u pw /\
    a' = mkAccounts (mkDb (docs (acc_db a) ++ [d]) (S (next_oid (acc_db a))) (connected (acc_db a)))
                    (S (acc_rng a)) /\
    dup_key d (docs (acc_db a)) = None /\ connected (acc_db a) = true.
Proof.
  rewrite register_eq. simpl.
  destruct (truthy_val u) as [name|]; [|done]. destruct (connected _) eqn:Hc; [|done].
  destruct (List.find _ _) eqn:Hf; [done|].
  destruct (truthy_val password) as [pw|]; [|done]. destruct (dup_key _ _) eqn:Hk; [done|].
  intros [= <- <-]. by exists name, pw.
Qed.

Lemma register_wf u password a :
  db_wf (acc_db a) -> db_wf (acc_db (snd (register u password a))).
Proof.
  intros Hwf. destruct (register u password a) as [[d|e] a'] eqn:Hr; simpl.
  - destruct (register_ok_inv _ _ _ _ _ Hr) as (name & pw & _ & _ & _ & -> & -> & Hk & Hc).
    pose proof (save_wf (registered_doc a u pw) (snd (new_oid (acc_db a))) (new_oid_wf _ Hwf)) as Hs.
    rewrite save_ok in Hs by done. apply Hs. simpl. lia.
  - rewrite (register_err _ _ _ _ _ Hr). by apply new_oid_wf.
Qed.

(** The document [register] saves accepts the password it was
    registered with. *)
Lemma registered_doc_authenticate a u pw :
  authenticate (registered_doc a u pw) pw = VOk (registered_doc a u pw).
Proof.
  unfold authenticate, registered_doc. simpl.
  rewrite truthy_val_nonempty by apply gen_salt_nonempty.
  by rewrite bool_decide_eq_true_2.
Qed.

(** The local verify function on the collection: the first document
    with that username, and its password check; [VError] when the
    query times out. *)
Lemma verify_local_eq u pw a :
  verify_local u pw a =
  (if connected (acc_db a) then
     match List.find (field_is username u) (docs (acc_db a)) with
     | None => VFail IncorrectUsernameError
     | Some d => authenticate d pw
     end
   else VError, a).
Proof.
  destruct a as [[c n b] r]. unfold verify_local, findByUsername, findOne. st_unfold. simpl.
  destruct b; [|done]. by destruct (List.find _ c).
Qed.

(** The local verify function finds the document that [register]
    saved and accepts its password. *)
Lemma register_verify_local u name password pw a d a' :
  truthy_val u = Some name -> truthy_val password = Some pw ->
  register u password a = (Ok d, a') ->
  verify_local name pw a' = (VOk d, a').
Proof.
  intros Hu Hpw Hr. destruct (register_ok_inv _ _ _ _ _ Hr) as (name' & pw' & Hu' & Hpw' & Hf & -> & -> & _ & Hc).
  rewrite Hu in Hu'. rewrite Hpw in Hpw'. simplify_eq.
  rewrite verify_local_eq. simpl. rewrite Hc, find_snoc, Hf. unfold field_is at 1. simpl.
  apply truthy_val_Some in Hu as [-> _]. rewrite bool_decide_eq_true_2 by done.
  by rewrite registered_doc_authenticate.
Qed.

(** An existing username is refused before any password work (or the
    query that would find it times out), and the collection is
    unchanged. *)
Lemma register_existing u name password a e :
  truthy_val u = Some name -> e ∈ docs (acc_db a) -> username e = Some name ->
  fst (register u password a) =
    Err (if connected (acc_db a) then UserExistsError else DbError (BufferTimeout "users.findOne()")).
Proof.
  intros Hu Hin He. rewrite register_eq, Hu. destruct (connected _); [|done].
  destruct (find_exists (field_is username name) _ e Hin) as [e' ->];
    [unfold field_is; by rewrite bool_decide_eq_true_2|].
  done.
Qed.

(** Once some document lacks [googleId] (any local account does),
    every further registration that passes the username and password
    checks is refused by the [googleId_1] index. *)
Lemma register_missing_googleId u name password pw a e :
  db_wf (acc_db a) -> connected (acc_db a) = true ->
  truthy_val u = Some name -> truthy_val password = Some pw ->
  List.find (field_is username name) (docs (acc_db a)) = None ->
  e ∈ docs (acc_db a) -> googleId e = None ->
  fst (register u password a) = Err (DbError (E11000 "googleId_1")).
Proof.
  intros Hwf Hc Hu Hpw Hf Hin Hg. rewrite register_eq, Hu, Hc, Hf, Hpw. simpl.
  rewrite (dup_key_missing_googleId _ _ e); [done..|].
  by apply fresh_oid_notin.
Qed.

(** [register] adds exactly the document it returns, and nothing when
    it fails. *)
Lemma register_docs u password a :
  docs (acc_db (snd (register u password a))) =
  match fst (register u password a) with
  | Ok d => docs (acc_db a) ++ [d]
  | Err _ => docs (acc_db a)
  end.
Proof.
  destruct (register u password a) as [[d|e] a'] eqn:Hr; simpl.
  - by destruct (register_ok_inv _ _ _ _ _ Hr) as (name & pw & _ & _ & _ & _ & -> & _).
  - by rewrite (register_err _ _ _ _ _ Hr).
Qed.

(** [register] succeeds on a well-formed, connected collection when the
    username and password are truthy, the username is new, and no
    document lacks [googleId] (the [null] key of [googleId_1] is free). *)
Lemma register_fresh u name password pw a :
  db_wf (acc_db a) -> connected (acc_db a) = true ->
  truthy_val u = Some name -> truthy_val password = Some pw ->
  List.find (field_is username name) (docs (acc_db a)) = None ->
  Forall (fun e => is_Some (googleId e)) (docs (acc_db a)) ->
  register u password a =
  (Ok (registered_doc a u pw),
   mkAccounts (mkDb (docs (acc_db a) ++ [registered_doc a u pw]) (S (next_oid (acc_db a))) true)
              (S (acc_rng a))).
Proof.
  intros Hwf Hc Hu Hpw Hf Hg. rewrite register_eq, Hu, Hc, Hf, Hpw. simpl.
  rewrite (proj2 (dup_key_None _ _)); [done|]. split_and!.
  - by apply fresh_oid_notin.
  - simpl. intros Hin. apply list_elem_of_fmap in Hin as [e [He Hin]].
    rewrite Forall_forall in Hg. destruct (Hg e Hin). congruence.
  - apply truthy_val_Some in Hu as [-> _]. by apply find_none_field.
Qed.

(** Once some document lacks [googleId], no registration succeeds:
    whatever the body, it is refused by a check of the plugin, by the
    unreachable collection, or by the [googleId_1] index. *)
Lemma register_refused_googleId u password a e :
  db_wf (acc_db a) -> e ∈ docs (acc_db a) -> googleId e = None ->
  is_ok (fst (register u password a)) = false.
Proof.
  intros Hwf Hin Hg. destruct (register u password a) as [[d|err] a'] eqn:Hr; [|done].
  destruct (register_ok_inv _ _ _ _ _ Hr) as (name & pw & _ & _ & _ & -> & _ & Hk & _).
  rewrite (dup_key_missing_googleId _ _ e) in Hk; [done..|]. by apply fresh_oid_notin.
Qed.

(** With the collection unreachable, no registration succeeds. *)
Lemma register_down u password a :
  connected (acc_db a) = false -> is_ok (fst (register u password a)) = false.
Proof. intros Hc. rewrite register_eq, Hc. simpl. by destruct (truthy_val u). Qed.

(** Without a truthy username or password, [register] fails before
    saving, and the collection keeps its documents. *)
Lemma register_falsy u password a :
  truthy_val u = None \/ truthy_val password = None ->
  is_ok (fst (register u password a)) = false /\ docs (acc_db (snd (register u password a))) = docs (acc_db a).
Proof.
  intros Hf. rewrite register_docs. destruct (register u password a) as [[d|err] a'] eqn:Hr; [|done].
  destruct (register_ok_inv _ _ _ _ _ Hr) as (name & pw & Hu & Hpw & _). naive_solver.
Qed.

(** ** No exception on a hashed collection *)

(** [authenticate] throws only on a document with a salt and no hash. *)
Lemma authenticate_throw d pw : authenticate d pw = VThrow -> is_Some (truthy_val (salt d)) /\ hash d = None.
Proof.
  unfold authenticate. destruct (truthy_val (salt d)) as [s|] eqn:E; [|done].
  destruct (hash d); [by case_bool_decide | by split; [eexists|]].
Qed.

Lemma verify_local_no_throw u pw a : hashed (acc_db a) -> fst (verify_local u pw a) <> VThrow.
Proof.
  intros H. rewrite verify_local_eq. destruct (connected _); [|done].
  destruct (List.find _ _) as [d|] eqn:E; [|done]. cbn [fst]. intros [[sl Hs] Hh]%authenticate_throw.
  apply truthy_val_Some in Hs as [Hs _]. apply find_some_in in E as [Hin _].
  unfold hashed in H. rewrite Forall_forall in H. destruct (H d Hin (ex_intro _ sl Hs)). congruence.
Qed.

Lemma register_hashed u password a : hashed (acc_db a) -> hashed (acc_db (snd (register u password a))).
Proof.
  intros H. unfold hashed. rewrite register_docs. destruct (register u password a) as [[d|e] a'] eqn:Hr; [|done].
  destruct (register_ok_inv _ _ _ _ _ Hr) as (name & pw & _ & _ & _ & -> & _).
  apply Forall_app. split; [done|]. constructor; [|constructor]. intros _. by eexists.
Qed.

End WithKdf.

Lemma setPassword_authenticate_witness :
  @setPassword demo_kdf (mkDoc 0 (Some "alice") None None None None) (Some "pw123") (mkAccounts (mkDb [] 0 true) 0) =
    (Ok (mkDoc 0 (Some "alice") None None (Some "s") (Some "s:pw123")), mkAccounts (mkDb [] 0 true) 1) /\
  @authenticate demo_kdf (mkDoc 0 (Some "alice") None None (Some "s") (Some "s:pw123")) "pw123" =
    VOk (mkDoc 0 (Some "alice") None None (Some "s") (Some "s:pw123")).
Proof.
  assert (H : @setPassword demo_kdf (mkDoc 0 (Some "alice") None None None None) (Some "pw123")
                (mkAccounts (mkDb [] 0 true) 0) =
              (Ok (mkDoc 0 (Some "alice") None None (Some "s") (Some "s:pw123")), mkAccounts (mkDb [] 0 true) 1))
    by reflexivity.
  split; [exact H | exact (@setPassword_authenticate demo_kdf _ (Some "pw123") "pw123" _ _ _ eq_refl H)].
Defined.

Lemma setPassword_authenticate_wrong_witness :
  @setPassword demo_kdf (mkDoc 0 (Some "alice") None None None None) (Some "pw123") (mkAccounts (mkDb [] 0 true) 0) =
    (Ok (mkDoc 0 (Some "alice") None None (Some "s") (Some "s:pw123")), mkAccounts (mkDb [] 0 true) 1) /\
  @authenticate demo_kdf (mkDoc 0 (Some "alice") None None (Some "s") (Some "s:pw123")) "guess" =
    VFail IncorrectPasswordError.
Proof.
  assert (H : @setPassword demo_kdf (mkDoc 0 (Some "alice") None None None None) (Some "pw123")
                (mkAccounts (mkDb [] 0 true) 0) =
              (Ok (mkDoc 0 (Some "alice") None None (Some "s") (Some "s:pw123")), mkAccounts (mkDb [] 0 true) 1))
    by reflexivity.
  split; [exact H|].
  exact (@setPassword_authenticate_wrong demo_kdf demo_kdf_injective _ (Some "pw123") "pw123" "guess" _ _ _
           eq_refl ltac:(discriminate) H).
Defined.

End Credential.
