(* ===== verification/Session.v ===== *)
(** * Sessions: express-session and the passport session manager

    [app.use(session({ resave: false, saveUninitialized: false }))]
    (app.js lines 18-22) keeps a server-side store from session ids to
    session objects, with the id in a cookie; the default store is the
    in-memory [MemoryStore], whose calls never fail.
    [app.use(passport.session())] (line 25) restores [req.user] from
    [req.session.passport.user] through [deserializeUser] (lines
    63-67). [req.login] regenerates the session (a new id, the old one
    destroyed), stores [serializeUser(user)] (lines 53-61) and saves;
    [req.logout] clears the user, saves, and regenerates.

    The decision at the end of a response is express-session's own:
    [shouldSave] and [shouldSetCookie] compare the session with the
    [originalId] and [originalHash] taken when the session was loaded
    or generated, and with the [savedHash] of its last wrapped [save].
    [Store.regenerate] does not retake these, and the session it
    creates has the unwrapped [save]: the context [Ctx] records all of
    it. The session payload stands for its hash (the hash is taken as
    injective). The state [Sess] holds the store, the id source, and
    the context of the request being handled.

    Theorems: the closed form of each operation, the invariant
    [sess_wf] and its preservation, the login round trip (C18), the
    regeneration at login (C19), and the equivalence of the end of a
    response with the reference rule [end_request_ref] (C24). *)

From S2P Require Import Prelude Store.
Import Store.

Module Session.

(** ** Data *)

(** The object [serializeUser] passes to its callback. *)
Record Payload := mkPayload {
  p_id : nat;
  p_username : option string;
  p_picture : option string
}.

#[export] Instance Payload_eq_dec : EqDecision Payload.
Proof. solve_decision. Defined.

(** [req.user]: the document given to [req.login], or what
    [deserializeUser] made of the session's payload. *)
Inductive ReqUser :=
| UDoc (d : Doc)
| UPayload (p : Payload).

(** The session object's [passport.user], or its absence. *)
Abbreviation SessData := (option Payload) (only parsing).

(** The context of one request: the id its cookie carried
    ([cookieId]), the id of its session ([req.sessionID]), the
    session's data and [req.user]; then [originalId], the session
    behind [originalHash], the session behind [savedHash] if it is
    set, and whether [req.session.save] is the wrapped one that
    records [savedHash]. *)
Record Ctx := mkCtx {
  cookie : option nat;
  sid : nat;
  data : SessData;
  user : option ReqUser;
  orig_id : nat;
  orig_data : SessData;
  saved : option SessData;
  wrapped : bool
}.

Record Sess := mkSess {
  store : gmap nat SessData;
  next_sid : nat;
  ctx : Ctx
}.

(** ** The callbacks of app.js *)

(** [serializeUser] (lines 53-61): [{ id: user.id, username:
    user.username, picture: user.picture }]. The schema has no
    [picture] path, so [user.picture] is [undefined]. *)
Definition serializeUser (d : Doc) : Payload :=
  mkPayload (_id d) (username d) None.

(** [deserializeUser] (lines 63-67): the payload itself. *)
Definition deserializeUser (p : Payload) : Payload := p.

(** ** Operations *)

Definition ctx_set_user (u : option ReqUser) (c : Ctx) : Ctx :=
  mkCtx (cookie c) (sid c) (data c) u (orig_id c) (orig_data c) (saved c) (wrapped c).
Definition ctx_set_data (d : SessData) (c : Ctx) : Ctx :=
  mkCtx (cookie c) (sid c) d (user c) (orig_id c) (orig_data c) (saved c) (wrapped c).

Definition set_ctx (c : Ctx) : St Sess unit :=
  fun s => (tt, mkSess (store s) (next_sid s) c).

Definition get_ctx : St Sess Ctx := st_gets ctx.

(** The counter value that a new id takes: the next one, skipping the
    id the request's cookie carries (a random [uid-safe] id does not
    collide with it). *)
Definition next_id (ck : option nat) (n : nat) : nat :=
  if bool_decide (ck = Some n) then S n else n.

(** A new session id ([generateId], [uid-safe] in express-session). *)
Definition gen_sid (ck : option nat) : St Sess nat :=
  fun s => let k := next_id ck (next_sid s) in (k, mkSess (store s) (S k) (ctx s)).

(** [store.set(sid, session)] and [store.destroy(sid)]. *)
Definition store_set (k : nat) (v : SessData) : St Sess unit :=
  fun s => (tt, mkSess (<[k := v]> (store s)) (next_sid s) (ctx s)).
Definition store_destroy (k : nat) : St Sess unit :=
  fun s => (tt, mkSess (delete k (store s)) (next_sid s) (ctx s)).

(** The middleware's [generate()]: a new empty session, whose
    [originalId] and [originalHash] are taken and whose [save] is
    wrapped; [savedHash] stays unset. *)
Definition generate (ck : option nat) : St Sess unit :=
  (k <- gen_sid ck ;; set_ctx (mkCtx ck k None None k None None true))%st.

(** The session middleware and [passport.session()] at the start of a
    request: the stored session of the cookie's id ([inflate], which
    sets [savedHash] to [originalHash] as [resave] is false), or a new
    one ([generate]); then [req.user] from [passport.user]. *)
Definition begin_request (ck : option nat) : St Sess unit :=
  (s <- st_get ;;
   match ck with
   | Some k =>
       match store s !! k with
       | Some dat =>
           set_ctx (mkCtx ck k dat (option_map (fun p => UPayload (deserializeUser p)) dat)
                          k dat (Some dat) true)
       | None => generate ck
       end
   | None => generate ck
   end)%st.

(** [req.session.regenerate()], i.e. [Store.regenerate]: destroy the
    current id and call the store's [generate], which does not retake
    [originalId], [originalHash] or [savedHash] and leaves [save]
    unwrapped. *)
Definition regenerate : St Sess unit :=
  (c <- get_ctx ;;
   store_destroy (sid c) ;;
   k <- gen_sid (cookie c) ;;
   set_ctx (mkCtx (cookie c) k None (user c) (orig_id c) (orig_data c) (saved c) false))%st.

(** [req.session.save()]: [store.set]; the wrapped [save] also records
    [savedHash]. *)
Definition save_session : St Sess unit :=
  (c <- get_ctx ;;
   store_set (sid c) (data c) ;;
   if wrapped c then
     set_ctx (mkCtx (cookie c) (sid c) (data c) (user c) (orig_id c) (orig_data c) (Some (data c)) true)
   else ret tt)%st.

(** [req.login(user)]: [req.user] is set, the session regenerated,
    [passport.user] set to the serialised user, and the session saved. *)
Definition logIn (u : ReqUser) (p : Payload) : St Sess unit :=
  (c <- get_ctx ;;
   set_ctx (ctx_set_user (Some u) c) ;;
   regenerate ;;
   c' <- get_ctx ;;
   set_ctx (ctx_set_data (Some p) c') ;;
   save_session)%st.

(** [req.logout()]: [req.user] cleared, [passport.user] deleted, the
    session saved, then regenerated. *)
Definition logOut : St Sess unit :=
  (c <- get_ctx ;;
   set_ctx (ctx_set_user None (ctx_set_data None c)) ;;
   save_session ;;
   regenerate)%st.

(** [req.isAuthenticated()]: whether [req.user] is set. *)
Definition isAuthenticated : St Sess bool :=
  (c <- get_ctx ;; ret (bool_decide (is_Some (user c))))%st.

(** express-session's [isModified], [isSaved], [shouldSave] and
    [shouldSetCookie] with [saveUninitialized: false], [resave: false],
    [rolling: false] and no cookie expiry. *)
Definition is_modified (c : Ctx) : bool :=
  negb (bool_decide (orig_id c = sid c)) || negb (bool_decide (orig_data c = data c)).

Definition is_saved (c : Ctx) : bool :=
  bool_decide (orig_id c = sid c) && bool_decide (saved c = Some (data c)).

Definition should_save (c : Ctx) : bool :=
  if bool_decide (saved c = None) && bool_decide (cookie c <> Some (sid c))
  then is_modified c else negb (is_saved c).

Definition should_set_cookie (c : Ctx) : bool :=
  if bool_decide (cookie c <> Some (sid c)) then is_modified c else false.

(** The end of the response: the session is saved when [shouldSave],
    and its id sent in Set-Cookie when [shouldSetCookie]. *)
Definition end_request : St Sess (option nat) :=
  (c <- get_ctx ;;
   (if should_save c then store_set (sid c) (data c) else ret tt) ;;
   ret (if should_set_cookie c then Some (sid c) else None))%st.

(** A reference for the end of the response: the session is stored and
    its id sent exactly when the request regenerated it. *)
Definition end_request_ref : St Sess (option nat) :=
  (c <- get_ctx ;;
   if bool_decide (orig_id c = sid c) then ret None
   else store_set (sid c) (data c) ;; ret (Some (sid c)))%st.

(** ** Invariant *)

(** The two shapes of a context: as the middleware loaded or generated
    it, or after a [regenerate]. *)
Definition ctx_untouched (c : Ctx) : Prop :=
  orig_id c = sid c /\ orig_data c = data c /\
  (saved c = Some (data c) \/ (saved c = None /\ cookie c <> Some (sid c))).

Definition ctx_regenerated (c : Ctx) : Prop :=
  orig_id c <> sid c /\ cookie c <> Some (sid c).

(** Every stored id, the current one and the original one were issued
    by the id source, and the context has one of its two shapes. *)
Definition sess_wf (s : Sess) : Prop :=
  map_Forall (fun k _ => k < next_sid s) (store s) /\
  sid (ctx s) < next_sid s /\ orig_id (ctx s) < next_sid s /\
  (ctx_untouched (ctx s) \/ ctx_regenerated (ctx s)).

(** The session the cookie [k] named is gone: not in the store, and
    not the request's session. *)
Definition gone (k : nat) (s : Sess) : Prop :=
  cookie (ctx s) = Some k /\ sid (ctx s) <> k /\ store s !! k = None.

(** ** The id source *)

Lemma next_id_ge ck n : n <= next_id ck n.
Proof. unfold next_id. case_bool_decide; lia. Qed.

Lemma next_id_ne ck n : ck <> Some (next_id ck n).
Proof. unfold next_id. case_bool_decide as H; [subst; intros [= H']; lia | done]. Qed.

Lemma next_id_None n : next_id None n = n.
Proof. done. Qed.

(** ** Each operation in closed form *)

Lemma begin_request_eq ck s :
  begin_request ck s =
  match ck with
  | Some k =>
      match store s !! k with
      | Some dat =>
          (tt, mkSess (store s) (next_sid s)
                 (mkCtx ck k dat (option_map (fun p => UPayload (deserializeUser p)) dat) k dat (Some dat) true))
      | None =>
          (tt, mkSess (store s) (S (next_id ck (next_sid s)))
                 (mkCtx ck (next_id ck (next_sid s)) None None (next_id ck (next_sid s)) None None true))
      end
  | None =>
      (tt, mkSess (store s) (S (next_sid s)) (mkCtx ck (next_sid s) None None (next_sid s) None None true))
  end.
Proof. destruct s, ck as [k|]; [|reflexivity]. unfold begin_request. st_unfold. simpl. by destruct (_ !! k). Qed.

Lemma begin_request_store ck s : store (snd (begin_request ck s)) = store s.
Proof. rewrite begin_request_eq. destruct ck as [k|]; [destruct (_ !! k)|]; done. Qed.

Lemma begin_request_cookie ck s : cookie (ctx (snd (begin_request ck s))) = ck.
Proof. rewrite begin_request_eq. destruct ck as [k|]; [destruct (_ !! k)|]; done. Qed.

Lemma begin_request_next ck s : next_sid s <= next_sid (snd (begin_request ck s)).
Proof.
  pose proof (next_id_ge ck (next_sid s)).
  rewrite begin_request_eq. destruct ck as [k|]; [destruct (_ !! k)|]; simpl; lia.
Qed.

Lemma logIn_eq u p s :
  logIn u p s =
  (tt, mkSess (<[next_id (cookie (ctx s)) (next_sid s) := Some p]> (delete (sid (ctx s)) (store s)))
              (S (next_id (cookie (ctx s)) (next_sid s)))
              (mkCtx (cookie (ctx s)) (next_id (cookie (ctx s)) (next_sid s)) (Some p) (Some u)
                     (orig_id (ctx s)) (orig_data (ctx s)) (saved (ctx s)) false)).
Proof. destruct s as [st n []]. reflexivity. Qed.

Lemma logOut_eq s :
  logOut s =
  (tt, mkSess (delete (sid (ctx s)) (<[sid (ctx s) := None]> (store s)))
              (S (next_id (cookie (ctx s)) (next_sid s)))
              (mkCtx (cookie (ctx s)) (next_id (cookie (ctx s)) (next_sid s)) None None
                     (orig_id (ctx s)) (orig_data (ctx s))
                     (if wrapped (ctx s) then Some None else saved (ctx s)) false)).
Proof. destruct s as [st n [? ? ? ? ? ? ? []]]; reflexivity. Qed.

(** The end of the response on the two shapes of a context: nothing
    for an untouched session, store and Set-Cookie for a regenerated
    one. *)
Lemma end_request_untouched s : ctx_untouched (ctx s) -> end_request s = (None, s).
Proof.
  destruct s as [st n [ck k dat us oi od sv w]]. unfold ctx_untouched. simpl.
  intros (-> & -> & [-> | [-> Hc]]);
    unfold end_request, should_save, should_set_cookie, is_modified, is_saved; st_unfold; simpl;
    repeat (case_bool_decide; simpl; try congruence); done.
Qed.

Lemma end_request_regenerated s :
  ctx_regenerated (ctx s) ->
  end_request s = (Some (sid (ctx s)), mkSess (<[sid (ctx s) := data (ctx s)]> (store s)) (next_sid s) (ctx s)).
Proof.
  destruct s as [st n [ck k dat us oi od sv w]]. unfold ctx_regenerated. simpl. intros [Ho Hc].
  unfold end_request, should_save, should_set_cookie, is_modified, is_saved; st_unfold; simpl.
  repeat (case_bool_decide; simpl; try congruence); done.
Qed.

(** Under the invariant, the end of the response depends only on
    whether the session was regenerated. *)
Lemma end_request_wf_eq s :
  sess_wf s ->
  end_request s =
  if bool_decide (orig_id (ctx s) = sid (ctx s)) then (None, s)
  else (Some (sid (ctx s)), mkSess (<[sid (ctx s) := data (ctx s)]> (store s)) (next_sid s) (ctx s)).
Proof.
  intros (_ & _ & _ & [Hu|Hr]).
  - rewrite end_request_untouched by done. by rewrite bool_decide_eq_true_2 by apply Hu.
  - rewrite end_request_regenerated by done. by rewrite bool_decide_eq_false_2 by apply Hr.
Qed.

(** The shapes the operations leave. *)
Lemma begin_request_untouched ck s : ctx_untouched (ctx (snd (begin_request ck s))).
Proof.
  rewrite begin_request_eq. destruct ck as [k|]; [destruct (store s !! k)|]; simpl;
    split_and!; auto; right; split; [done| apply (next_id_ne _ (next_sid s))].
Qed.

Lemma logIn_regenerated u p s :
  orig_id (ctx s) < next_sid s -> ctx_regenerated (ctx (snd (logIn u p s))).
Proof.
  intros H. rewrite logIn_eq. pose proof (next_id_ge (cookie (ctx s)) (next_sid s)).
  split; simpl; [lia | apply next_id_ne].
Qed.

Lemma logOut_regenerated s :
  orig_id (ctx s) < next_sid s -> ctx_regenerated (ctx (snd (logOut s))).
Proof.
  intros H. rewrite logOut_eq. pose proof (next_id_ge (cookie (ctx s)) (next_sid s)).
  split; simpl; [lia | apply next_id_ne].
Qed.

(** ** The invariant is preserved *)

Lemma map_Forall_lt_mono (m : gmap nat SessData) n n' :
  n <= n' -> map_Forall (fun k _ => k < n) m -> map_Forall (fun k _ => k < n') m.
Proof. intros Hle H. eapply map_Forall_impl; [exact H|]. simpl. lia. Qed.

#[export] Hint Resolve map_Forall_lt_mono : app.

Lemma logIn_wf u p s : sess_wf s -> sess_wf (snd (logIn u p s)).
Proof.
  intros (Hs & Hk & Ho & _). pose proof (logIn_regenerated u p s Ho) as Hr.
  pose proof (next_id_ge (cookie (ctx s)) (next_sid s)).
  rewrite logIn_eq in *. split_and!; simpl in *; [|lia|lia|by right].
  apply map_Forall_insert_2; [lia|]. apply map_Forall_delete. eauto with app lia.
Qed.

Lemma logOut_wf s : sess_wf s -> sess_wf (snd (logOut s)).
Proof.
  intros (Hs & Hk & Ho & _). pose proof (logOut_regenerated s Ho) as Hr.
  pose proof (next_id_ge (cookie (ctx s)) (next_sid s)).
  rewrite logOut_eq in *. split_and!; simpl in *; [|lia|lia|by right].
  apply map_Forall_delete, map_Forall_insert_2; [lia|]. eauto with app lia.
Qed.

Lemma end_request_wf s : sess_wf s -> sess_wf (snd (end_request s)).
Proof.
  destruct s as [st n c]. intros Hwf. unfold end_request, get_ctx, store_set. st_unfold. simpl.
  destruct (should_save c); [|done].
  destruct Hwf as (Hs & Hk & Ho & Hc). by split_and!; [apply map_Forall_insert_2|..].
Qed.

Lemma begin_request_wf ck s : sess_wf s -> sess_wf (snd (begin_request ck s)).
Proof.
  intros (Hs & Hk & Ho & _). pose proof (begin_request_untouched ck s) as Hu.
  pose proof (next_id_ge ck (next_sid s)).
  rewrite begin_request_eq in *.
  unfold sess_wf. destruct ck as [k|]; [destruct (store s !! k) eqn:E|]; cbn [fst snd store next_sid ctx sid orig_id] in *.
  - split_and!; [done | exact (Hs _ _ E) | exact (Hs _ _ E) | by left].
  - split_and!; [eauto with app lia | lia | lia | by left].
  - split_and!; [eauto with app lia | lia | lia | by left].
Qed.

#[export] Hint Resolve logIn_wf logOut_wf end_request_wf begin_request_wf : app.

(** ** The presented session after a login *)

(** [req.login] on the session the cookie named, or on a new one when
    the cookie named none, leaves that session gone: regeneration
    destroys it, and the new id skips the cookie. *)
Lemma logIn_gone_start k u p s :
  cookie (ctx s) = Some k -> sid (ctx s) = k \/ store s !! k = None -> gone k (snd (logIn u p s)).
Proof.
  intros Hc Hk. pose proof (next_id_ne (cookie (ctx s)) (next_sid s)) as Hne. rewrite Hc in Hne.
  rewrite logIn_eq. unfold gone. cbn [snd ctx cookie sid store]. rewrite Hc. split_and!; [done | congruence |].
  rewrite lookup_insert_ne by congruence. destruct Hk as [<-|Hk]; [apply lookup_delete_eq|].
  destruct (decide (sid (ctx s) = k)) as [<-|Hs]; [apply lookup_delete_eq | by rewrite lookup_delete_ne].
Qed.

Lemma logIn_gone k u p s : gone k s -> gone k (snd (logIn u p s)).
Proof. intros (Hc & Hs & Hk). apply logIn_gone_start; auto. Qed.

(** The end of the response stores only the request's session. *)
Lemma end_request_gone k s :
  gone k s -> store (snd (end_request s)) !! k = None /\ fst (end_request s) <> Some k.
Proof.
  destruct s as [st n c]. intros (Hc & Hs & Hk). unfold end_request, get_ctx, store_set. st_unfold.
  cbn in *. destruct (should_save c), (should_set_cookie c); cbn; split; try congruence;
    by rewrite ?lookup_insert_ne.
Qed.

(** The session the cookie names after [begin_request]: the request's
    own, or none. *)
Lemma begin_request_presented k s :
  cookie (ctx (snd (begin_request (Some k) s))) = Some k /\
  (sid (ctx (snd (begin_request (Some k) s))) = k \/ store (snd (begin_request (Some k) s)) !! k = None).
Proof. rewrite begin_request_eq. destruct (store s !! k) eqn:E; simpl; auto. Qed.

(** Ids at or above [next_sid] are fresh. *)
Lemma wf_fresh s n : sess_wf s -> next_sid s <= n -> store s !! n = None.
Proof.
  intros (Hs & _) Hn. apply eq_None_not_Some. intros [v Hv]. specialize (Hs _ _ Hv). simpl in Hs. lia.
Qed.

(** Destroying the request's session removes the one its cookie named,
    if any: a session [generate]d for the request is not in the store. *)
Lemma begin_request_delete ck s :
  sess_wf s ->
  delete (sid (ctx (snd (begin_request ck s)))) (store s) =
  match ck with Some k => delete k (store s) | None => store s end.
Proof.
  intros Hwf. pose proof (next_id_ge ck (next_sid s)).
  rewrite begin_request_eq. destruct ck as [k|]; [destruct (store s !! k) eqn:E|]; simpl; [done|..].
  - rewrite (delete_id (store s) k) by done. apply delete_id, wf_fresh; [done | lia].
  - apply delete_id, wf_fresh; [done | lia].
Qed.

(** ** Properties *)

(** C18. Round trip of the session (spec 4.3): after [req.login(d)]
    and the end of the response, the new session id is sent in the
    cookie and names the serialised user in the store, and a later
    request with that cookie gets it back as [req.user]. *)
Theorem login_restore u d s ck' s' :
  sess_wf s -> end_request (snd (logIn u (serializeUser d) s)) = (ck', s') ->
  ck' = Some (sid (ctx (snd (logIn u (serializeUser d) s)))) /\
  store s' !! sid (ctx (snd (logIn u (serializeUser d) s))) = Some (Some (serializeUser d)) /\
  begin_request (Some (sid (ctx (snd (logIn u (serializeUser d) s))))) s' =
  (tt, mkSess (store s') (next_sid s')
     (mkCtx (Some (sid (ctx (snd (logIn u (serializeUser d) s)))))
            (sid (ctx (snd (logIn u (serializeUser d) s))))
            (Some (serializeUser d)) (Some (UPayload (serializeUser d)))
            (sid (ctx (snd (logIn u (serializeUser d) s))))
            (Some (serializeUser d)) (Some (Some (serializeUser d))) true)).
Proof.
  intros (_ & _ & Ho & _). pose proof (logIn_regenerated u (serializeUser d) s Ho) as Hr.
  rewrite (end_request_regenerated _ Hr). intros [= <- <-]. rewrite logIn_eq. simpl.
  rewrite lookup_insert_eq. split_and!; [done|done|].
  rewrite begin_request_eq. simpl. by rewrite lookup_insert_eq.
Qed.

(** C19. No session fixation: [req.login] moves the user to a new
    session id that was not in the store, and the session the request
    came with is destroyed. *)
Theorem logIn_regenerates u p s :
  sess_wf s ->
  sid (ctx (snd (logIn u p s))) <> sid (ctx s) /\
  store s !! sid (ctx (snd (logIn u p s))) = None /\
  store (snd (logIn u p s)) !! sid (ctx s) = None /\
  store (snd (logIn u p s)) !! sid (ctx (snd (logIn u p s))) = Some (Some p).
Proof.
  intros (Hs & Hk & _). pose proof (next_id_ge (cookie (ctx s)) (next_sid s)).
  rewrite logIn_eq. simpl. split_and!.
  - lia.
  - apply eq_None_not_Some. intros [v Hv]. specialize (Hs _ _ Hv). simpl in Hs. lia.
  - rewrite lookup_insert_ne by lia. apply lookup_delete_eq.
  - apply lookup_insert_eq.
Qed.

(** C24. Equivalence of express-session's end-of-response decision
    ([shouldSave], [shouldSetCookie] on [originalId], [originalHash]
    and [savedHash]) with the reference rule [end_request_ref]: on
    every well-formed state the session is stored and its id sent
    exactly when the request regenerated it. *)
Theorem end_request_equiv s : sess_wf s -> end_request s = end_request_ref s.
Proof.
  intros H. rewrite end_request_wf_eq by done.
  unfold end_request_ref. st_unfold. destruct s as [st n c]. simpl. by case_bool_decide.
Qed.

Lemma login_restore_witness :
  let d := mkDoc 0 (Some "alice") None None (Some "s") (Some "s:pw123") in
  let s := mkSess ∅ 1 (mkCtx None 0 None None 0 None None true) in
  sess_wf s /\
  store (snd (end_request (snd (logIn (UDoc d) (serializeUser d) s)))) !! 1 = Some (Some (serializeUser d)).
Proof.
  intros d s. assert (Hwf : sess_wf s).
  { split_and!; [apply map_Forall_empty | simpl; lia | simpl; lia | left; split_and!; [done|done|by right]]. }
  split; [exact Hwf|]. exact (proj1 (proj2 (login_restore (UDoc d) d s _ _ Hwf eq_refl))).
Defined.

Lemma logIn_regenerates_witness :
  let s := mkSess {[ 0 := None ]} 1 (mkCtx (Some 0) 0 None None 0 None (Some None) true) in
  sess_wf s /\ store (snd (logIn (UDoc (mkDoc 0 None None None None None)) (mkPayload 0 None None) s)) !! 0 = None.
Proof.
  intros s. assert (Hwf : sess_wf s).
  { split_and!; [apply map_Forall_singleton; simpl; lia | simpl; lia | simpl; lia | left; split_and!; [done|done|by left]]. }
  split; [exact Hwf | exact (proj1 (proj2 (proj2 (logIn_regenerates _ _ s Hwf))))].
Defined.

Lemma end_request_equiv_witness :
  let s := mkSess ∅ 3 (mkCtx None 2 (Some (mkPayload 0 None None)) None 1 None None false) in
  sess_wf s /\ end_request s = end_request_ref s.
Proof.
  intros s. assert (Hwf : sess_wf s).
  { split_and!; [apply map_Forall_empty | simpl; lia | simpl; lia | right; split; simpl; [lia|done]]. }
  split; [exact Hwf | exact (end_request_equiv s Hwf)].
Defined.

End Session.
