(* ===== verification/Passport.v ===== *)
(** * Passport: strategies and [passport.authenticate]

    Two strategies are registered: the local strategy of
    [User.createStrategy()] (app.js line 51) and the Google OAuth 2.0
    strategy (lines 69-81) whose verify callback calls
    [User.findOrCreate({ googleId: profile.id })]. A strategy ends in
    one of [success(user)], [fail(status)], [error(err)] or
    [redirect(url)]; [passport.authenticate(name, options)] turns that
    into [req.login] and [next()], a [failureRedirect], a 401/400
    response, [next(err)] with the error's status (an
    [AuthorizationError] of passport-oauth2 carries 502 or 503 by its
    code, [authz_status]; other errors are 500), or the redirect to
    Google's authorization endpoint with the requested scope
    ([RedirectProvider]). [next] is a parameter: the route supplies
    it (Express's final handler, or the arrow the handler passes). An
    exception thrown in a library callback ([Crash]) is uncaught: the
    reply [Crashed] is the process ending with no response.

    Google's side of the exchange (token endpoint and userinfo) is the
    interface [Provider]: a code yields the profile id, or fails. The
    strategies read [req.query] ([Query]) as the libraries do: a
    truthy [error] before a truthy [code] (passport-oauth2), and the
    username and password from the body, else from the query
    ([credential], passport-local). The server state also holds the
    console, to which [console.log] appends ([console_log]); the Google
    verify callback writes the profile there. *)

From S2P Require Import Prelude Store Credential Session.
Import Store Credential Session.

Module Passport.

(** ** The server state *)

(** What app.js writes with [console.log]: the outcome of
    [mongoose.connect] (line 28), the Google profile in the verify
    callback (line 76), the error of a refused registration and the
    submitted password (lines 121 and 123), the error of [req.login]
    (line 143), and the message of [app.listen] (line 176). A profile
    is written as its id. *)
Inductive LogLine :=
| LogConnected
| LogConnectError
| LogProfile (profile_id : string)
| LogError (e : PlmError)
| LogValue (v : option string)
| LogListening (port : nat).

Record Server := mkServer {
  accounts : Accounts;
  sess : Sess;
  console : list LogLine
}.

Program Definition acc_lens : Lens Server Accounts :=
  {| view := accounts; update := fun a s => mkServer a (sess s) (console s) |}.
Next Obligation. done. Qed.
Next Obligation. by intros []. Qed.
Next Obligation. done. Qed.

Program Definition sess_lens : Lens Server Sess :=
  {| view := sess; update := fun x s => mkServer (accounts s) x (console s) |}.
Next Obligation. done. Qed.
Next Obligation. by intros []. Qed.
Next Obligation. done. Qed.

(** [console.log(line)]: the line is appended to the output. *)
Definition console_log (l : LogLine) : St Server unit :=
  fun s => (tt, mkServer (accounts s) (sess s) (console s ++ [l])).

(** The fields of [req.body] that the handlers read (body-parser's
    urlencoded parser). *)
Record Body := mkBody {
  b_username : option string;
  b_password : option string;
  b_secret : option string
}.

(** The fields of [req.query] that the strategies read: Google's
    [error] and the authorization [code] (passport-oauth2), and the
    [username] and [password] that passport-local reads when the body
    lacks them. *)
Record Query := mkQuery {
  q_error : option string;
  q_code : option string;
  q_username : option string;
  q_password : option string
}.

(** A query without these fields, a callback with Google's [error], and
    a callback with a [code]. *)
Definition QNone : Query := mkQuery None None None None.
Definition QError (e : string) : Query := mkQuery (Some e) None None None.
Definition QCode (code : string) : Query := mkQuery None (Some code) None None.

Class Provider := {
  (** token exchange for the code, then the userinfo profile's [id] *)
  exchange : string -> option string
}.

(** What a strategy decides: [success(user)], [fail(status)],
    [error(err)] with the [status] of the error ([err.status], 500
    when it has none), [redirect] to the provider; or the verify
    function threw in a callback, which ends the process. *)
Inductive Outcome :=
| Success (d : Doc)
| Fail (status : option nat)
| Error (status : nat)
| Crash
| RedirectAuth (scope : list string).

(** What the server sends; [Crashed]: nothing, the process exited
    and the connection is dropped. *)
Inductive Reply :=
| Render (view : string)
| Redirect (location : string)
| RedirectProvider (scope : list string)
| Status (code : nat)
| SendFile (file : string)
| Crashed.

#[export] Instance Reply_eq_dec : EqDecision Reply.
Proof. solve_decision. Defined.

Section Strategies.
Context {kdf : Kdf} {prov : Provider}.

(** [lookup(req.body, field) || lookup(req.query, field)], as tested
    by [!username]: the body's value when truthy, else the query's. *)
Definition credential (fromBody fromQuery : option string) : option string :=
  match truthy_val fromBody with
  | Some v => Some v
  | None => truthy_val fromQuery
  end.

(** passport-local's [Strategy.authenticate]: the username and the
    password are read from the body, else from the query; a falsy one
    fails with 400 ("Missing credentials"); otherwise the verify
    function of passport-local-mongoose decides. *)
Definition local_strategy (b : Body) (q : Query) : St Accounts Outcome :=
  match credential (b_username b) (q_username q), credential (b_password b) (q_password q) with
  | Some u, Some pw =>
      (v <- verify_local u pw ;;
       ret (match v with
            | VOk d => Success d
            | VFail _ => Fail None
            | VError => Error 500
            | VThrow => Crash
            end))%st
  | _, _ => (ret (Fail (Some 400)))%st
  end.

(** The verify callback of the Google strategy (app.js lines 75-80):
    [console.log(profile)], then [User.findOrCreate({ googleId:
    profile.id }, (err, user) => cb(err, user))]. *)
Definition google_verify (profile_id : string) : St Server Outcome :=
  (console_log (LogProfile profile_id) ;;
   r <- zoom acc_lens (zoom db_lens (findOrCreate profile_id)) ;;
   ret (match r with Ok d => Success d | Err _ => Error 500 end))%st.

(** passport-oauth2's [AuthorizationError(description, code, uri)]:
    its [status] by the error code. *)
Definition authz_status (e : string) : nat :=
  if bool_decide (e = "access_denied") then 403
  else if bool_decide (e = "server_error") then 502
  else if bool_decide (e = "temporarily_unavailable") then 503
  else 500.

(** The Google strategy (passport-oauth2's [authenticate]): a truthy
    [error] is tested first, [access_denied] failing and any other
    error an [AuthorizationError]; then a truthy [code] is exchanged
    (a [TokenError] or an [InternalOAuthError], status 500, if that
    fails) and the profile verified; without either, the user agent
    is sent to Google with the scope of the route's options. *)
Definition google_strategy (q : Query) (scope : list string) : St Server Outcome :=
  match truthy_val (q_error q) with
  | Some e => (ret (if bool_decide (e = "access_denied") then Fail None else Error (authz_status e)))%st
  | None =>
      match truthy_val (q_code q) with
      | Some code =>
          match exchange code with
          | Some profile_id => google_verify profile_id
          | None => (ret (Error 500))%st
          end
      | None => (ret (RedirectAuth scope))%st
      end
  end.

End Strategies.

(** [passport.authenticate(...)(req, res, next)] on the outcome of the
    strategy: success logs the user in ([req.login], which
    [serializeUser]s it) and calls [next()]; failure redirects to the
    [failureRedirect] option or answers with the failure's status
    (401 by default); an error calls [next(err)]. [next] is given the
    error's status, [None] for [next()]. *)
Definition authenticate (o : Outcome) (failureRedirect : option string)
    (next : option nat -> St Server Reply) : St Server Reply :=
  match o with
  | Success d => (zoom sess_lens (logIn (UDoc d) (serializeUser d)) ;; next None)%st
  | Fail st =>
      match failureRedirect with
      | Some url => (ret (Redirect url))%st
      | None => (ret (Status (default 401 st)))%st
      end
  | Error st => next (Some st)
  | Crash => (ret Crashed)%st
  | RedirectAuth scope => (ret (RedirectProvider scope))%st
  end.

(** A provider for evaluating the witnesses: the code is the profile id. *)
Definition demo_provider : Provider := {| exchange := fun code => Some code |}.

(** ** The fields the strategies read *)

Lemma truthy_val_None : truthy_val None = None.
Proof. done. Qed.

Lemma credential_no_query x : credential x None = truthy_val x.
Proof. unfold credential. by destruct (truthy_val x). Qed.

Lemma credential_body x y v : truthy_val x = Some v -> credential x y = Some v.
Proof. unfold credential. by intros ->. Qed.

(** The Google strategy on a callback with a [code] and no [error]. *)
Lemma google_strategy_code {kdf : Kdf} {prov : Provider} code sc :
  code <> "" ->
  google_strategy (QCode code) sc =
  match exchange code with
  | Some profile_id => google_verify profile_id
  | None => (ret (Error 500))%st
  end.
Proof. intros Hc. unfold google_strategy, QCode. cbn [q_error q_code]. by rewrite truthy_val_None, truthy_val_nonempty. Qed.

(** The local strategy reads the collection and changes nothing; on
    a hashed collection its verify function does not throw. *)
Lemma local_strategy_snd {kdf : Kdf} b q a : snd (local_strategy b q a) = a.
Proof.
  unfold local_strategy.
  destruct (credential (b_username b) (q_username q)), (credential (b_password b) (q_password q)); try done.
  unfold st_bind. by rewrite verify_local_eq.
Qed.

Lemma local_strategy_no_crash {kdf : Kdf} b q a : hashed (acc_db a) -> fst (local_strategy b q a) <> Crash.
Proof.
  intros H. unfold local_strategy.
  destruct (credential (b_username b) (q_username q)) as [u|], (credential (b_password b) (q_password q)) as [pw|];
    try done.
  unfold st_bind. pose proof (verify_local_no_throw u pw a H) as Hv.
  destruct (verify_local u pw a) as [[] a']; simpl in *; congruence.
Qed.

End Passport.
