(* ===== verification/App.v ===== *)
(** * The application: the routes of app.js and one request

    [route] dispatches a request to the handler of app.js that Express
    would run (lines 83-173); a request that matches no route gets
    Express's 404. [serve] runs one request through the session
    middleware, the route, and the end of the response, and returns
    the reply and the Set-Cookie; [express.static] comes first and, with
    no public directory, passes every request on. [express_next] is
    Express's [next] after the last middleware of a route: an error is
    answered by the final handler with its status. A [Crashed] reply
    ([is_crashed]) ends the process before the end of the response:
    no session is saved and no cookie sent. [boot] is the state
    at start-up, with the collection's connection up or down as
    [mongoose.connect] succeeded or failed. [reachable] is the step
    relation: every state the server reaches from start-up by a
    sequence of requests and changes of the connection. *)

From S2P Require Import Prelude Store Credential Session Passport.
Import Store Credential Session Passport.

Module App.

Inductive Method := GET | POST.

#[export] Instance Method_eq_dec : EqDecision Method.
Proof. solve_decision. Defined.

Record Request := mkRequest {
  method : Method;
  path : string;
  body : Body;
  query : Query;
  req_cookie : option nat
}.

Record Response := mkResponse {
  reply : Reply;
  set_cookie : option nat
}.

Section Handlers.
Context {kdf : Kdf} {prov : Provider}.

Local Open Scope st_scope.

(** Express's [next] in the middleware of a route: [next()] runs the
    route's next handler; [next(err)] skips the handlers that do not
    take an error, and Express's final handler answers with the
    error's status. *)
Definition express_next (h : St Server Reply) (e : option nat) : St Server Reply :=
  match e with
  | None => h
  | Some st => ret (Status st)
  end.

(** [app.get("/")] (lines 83-85). *)
Definition get_root : St Server Reply := ret (Render "home.ejs").

(** [app.get('/auth/google', passport.authenticate('google',
    { scope: ['profile'] }))] (lines 87-88): nothing follows the
    middleware, so a [next()] after a success finds no handler. *)
Definition get_auth_google (q : Query) : St Server Reply :=
  o <- google_strategy q ["profile"] ;;
  authenticate o None (express_next (ret (Status 404))).

(** [app.get('/auth/google/secrets', passport.authenticate('google',
    { failureRedirect: '/login' }), (req, res) => res.redirect('/secrets'))]
    (lines 91-96). *)
Definition get_auth_google_secrets (q : Query) : St Server Reply :=
  o <- google_strategy q [] ;;
  authenticate o (Some "/login") (express_next (ret (Redirect "/secrets"))).

(** [app.get("/login")], [app.get("/register")] (lines 98-104). *)
Definition get_login : St Server Reply := ret (Render "login.ejs").
Definition get_register : St Server Reply := ret (Render "register.ejs").

(** [app.get("/secrets")] (lines 106-115). *)
Definition get_secrets : St Server Reply :=
  b <- zoom sess_lens isAuthenticated ;;
  if b then ret (Render "secrets.ejs") else ret (Redirect "/login").

(** [app.post("/register")] (lines 117-132): [User.register], then on
    error the error and the submitted password are written to the
    console around the redirect back, else the local strategy on the
    same body and a redirect to /secrets. The [next] given to
    [passport.authenticate("local")] is the arrow of line 127, which
    ignores its argument: [next(err)] redirects to /secrets too. *)
Definition post_register (b : Body) (q : Query) : St Server Reply :=
  r <- zoom acc_lens (register (b_username b) (b_password b)) ;;
  match r with
  | Err e =>
      console_log (LogError e) ;;
      console_log (LogValue (b_password b)) ;;
      ret (Redirect "/register")
  | Ok _ =>
      o <- zoom acc_lens (local_strategy b q) ;;
      authenticate o None (fun _ => ret (Redirect "/secrets"))
  end.

(** [app.post("/login")] (lines 134-152): a [User] document is built
    from the body (which issues an ObjectId) and passed to [req.login]
    before any check; then the local strategy runs. [req.login] with
    the in-memory store never fails, so its error branch (lines
    141-144, which logs the error and sends no response) is not
    reached. As in [post_register], [next(err)] is the arrow of line
    147 and redirects to /secrets. *)
Definition post_login (b : Body) (q : Query) : St Server Reply :=
  oid <- zoom acc_lens (zoom db_lens new_oid) ;;
  let u := mkDoc oid (b_username b) None (b_password b) None None in
  zoom sess_lens (logIn (UDoc u) (serializeUser u)) ;;
  o <- zoom acc_lens (local_strategy b q) ;;
  authenticate o None (fun _ => ret (Redirect "/secrets")).

(** [app.get("/logout")] (lines 154-164); [req.logout] with the
    in-memory store never fails, so [next(err)] is not reached. *)
Definition get_logout : St Server Reply :=
  zoom sess_lens logOut ;;
  ret (Redirect "/").

(** [app.get("/submit")] and [app.post("/submit")] (lines 166-173):
    the submitted secret is read and dropped. *)
Definition get_submit : St Server Reply := ret (Render "submit.ejs").
Definition post_submit (b : Body) : St Server Reply :=
  let rsecret := b_secret b in
  ret (Redirect "/").

(** The route table, in the order of app.js. *)
Definition route (rq : Request) : St Server Reply :=
  match method rq with
  | GET =>
      if bool_decide (path rq = "/") then get_root
      else if bool_decide (path rq = "/auth/google") then get_auth_google (query rq)
      else if bool_decide (path rq = "/auth/google/secrets") then get_auth_google_secrets (query rq)
      else if bool_decide (path rq = "/login") then get_login
      else if bool_decide (path rq = "/register") then get_register
      else if bool_decide (path rq = "/secrets") then get_secrets
      else if bool_decide (path rq = "/logout") then get_logout
      else if bool_decide (path rq = "/submit") then get_submit
      else ret (Status 404)
  | POST =>
      if bool_decide (path rq = "/register") then post_register (body rq) (query rq)
      else if bool_decide (path rq = "/login") then post_login (body rq) (query rq)
      else if bool_decide (path rq = "/submit") then post_submit (body rq)
      else ret (Status 404)
  end.

(** [const port=3000] (line 13). *)
Definition port : nat := 3000.

(** The files that [express.static("public")] (line 16) serves, by URL
    path: the repository has no [public] directory. *)
Definition public_files : list string := [].

(** The process exited during the request. *)
Definition is_crashed (r : Reply) : bool :=
  match r with Crashed => true | _ => false end.

(** One request: [express.static] answers a GET for one of its files
    before any session work (a miss, and any POST, go on with
    [next()]); then the session middleware and [passport.session()],
    the route, and the end of the response. When the process exited
    during the route, no response is ended: no session is saved and
    no Set-Cookie is sent. *)
Definition handle (rq : Request) : St Server Response :=
  if match method rq with GET => bool_decide (path rq ∈ public_files) | POST => false end
  then ret (mkResponse (SendFile (path rq)) None)
  else (zoom sess_lens (begin_request (req_cookie rq)) ;;
        r <- route rq ;;
        if is_crashed r then ret (mkResponse r None)
        else (ck <- zoom sess_lens end_request ;;
              ret (mkResponse r ck))).

Definition serve (s : Server) (rq : Request) : Server * Response :=
  let '(r, s') := handle rq s in (s', r).

End Handlers.

(** The state at start-up (app.js lines 12-28): an empty collection
    and no sessions (the context is that of no request, an untouched
    empty session; session ids are issued from 1). The connection is up
    when [mongoose.connect] succeeds; its failure is only logged by the
    [.catch], and [app.listen] serves requests all the same. The
    console holds the message of [app.listen] and that of the
    connection; both come from callbacks, in either order, and the
    model writes the first one first. *)
Definition boot (connect_ok : bool) : Server :=
  mkServer (mkAccounts (mkDb [] 0 connect_ok) 0)
           (mkSess ∅ 1 (mkCtx None 0 None None 0 None (Some None) true))
           [LogListening port; if connect_ok then LogConnected else LogConnectError].

(** The start-up when [mongoose.connect] succeeds. *)
Definition server0 : Server := boot true.

(** The driver loses the connection to the server, or re-establishes
    it; nothing else changes. *)
Definition set_connected (b : bool) (s : Server) : Server :=
  mkServer (mkAccounts (mkDb (docs (acc_db (accounts s))) (next_oid (acc_db (accounts s))) b)
                       (acc_rng (accounts s)))
           (sess s) (console s).

(** The states reachable from either start-up by a sequence of
    requests and of changes of the connection; a request during which
    the process exited is the last. *)
Inductive reachable {kdf : Kdf} {prov : Provider} : Server -> Prop :=
| reach_init b : reachable (boot b)
| reach_step s rq : reachable s -> is_crashed (reply (snd (serve s rq))) = false -> reachable (fst (serve s rq))
| reach_conn s b : reachable s -> reachable (set_connected b s).

(** Any number of requests, from any state. *)
Definition steps {kdf : Kdf} {prov : Provider} : relation Server :=
  rtc (fun s s' => exists rq, s' = fst (serve s rq)).

(** ** Start-up and configuration *)

(** The environment app.js reads: [process.env] after [import
    'dotenv/config'] (line 2), which adds the variables of the [.env]
    file without overriding those the process was started with. *)
Definition dotenv_config (proc dotfile : gmap string string) : gmap string string :=
  proc ∪ dotfile.

(** The exceptions that end the process while app.js starts. *)
Inductive StartupError :=
| OAuth2ClientIDRequired
| ListenEADDRINUSE (p : nat).

(** The module of app.js evaluated from top to bottom: the middleware,
    [mongoose.connect] (line 28, whose outcome arrives later as
    [connect_ok]), the schema and the local strategy; then [new
    GoogleStrategy({ clientID: process.env.CLIENT_ID, clientSecret:
    process.env.CLIENT_SECRET, ... })] (lines 69-81), whose constructor
    (passport-oauth2) throws a [TypeError] when [clientID] is falsy and
    checks nothing else; then [app.listen(port)] (line 175), whose
    failure to bind is an [error] event without a listener. An
    exception thrown while the module runs, or an unhandled [error]
    event, ends the process. *)
Definition startup (proc dotfile : gmap string string) (connect_ok port_free : bool)
    : result StartupError Server :=
  let env := dotenv_config proc dotfile in
  match truthy_val (env !! "CLIENT_ID") with
  | None => Err OAuth2ClientIDRequired
  | Some _ => if port_free then Ok (boot connect_ok) else Err (ListenEADDRINUSE port)
  end.


(** ** The invariant of the server *)

(** The unique indexes of the collection hold, and every session id in
    the store or in use was issued by the id source. *)
Definition server_wf (s : Server) : Prop :=
  db_wf (acc_db (accounts s)) /\ sess_wf (sess s).

Definition acc_wf (a : Accounts) : Prop := db_wf (acc_db a).

(** The session of the request was regenerated by [req.login] and
    holds a user; the request's cookie is kept. *)
Definition logged_in (c : option nat) (ss : Sess) : Prop :=
  cookie (ctx ss) = c /\ orig_id (ctx ss) < next_sid ss /\ ctx_regenerated (ctx ss) /\
  is_Some (data (ctx ss)).

(** The console of [s] is [c0] followed by lines none of which is a
    logged value. *)
Definition console_clean (c0 : list LogLine) (s : Server) : Prop :=
  exists l, console s = c0 ++ l /\ Forall (fun x => forall v, x <> LogValue v) l.


(** With the repository's (absent) [public] directory, the static
    middleware passes every request on. *)
Lemma static_miss rq :
  match method rq with GET => bool_decide (path rq ∈ public_files) | POST => false end = false.
Proof. destruct (method rq); [apply bool_decide_eq_false_2, not_elem_of_nil | done]. Qed.

Lemma preserves_zoom_db {A} (m : St Db A) :
  preserves db_wf m -> preserves acc_wf (zoom db_lens m).
Proof. apply preserves_zoom; [done|]. by intros. Qed.

Lemma preserves_zoom_acc {A} (m : St Accounts A) :
  preserves acc_wf m -> preserves server_wf (zoom acc_lens m).
Proof. apply preserves_zoom; [by intros ? []|]. intros ?? [] ?. by split. Qed.

Lemma preserves_zoom_sess {A} (m : St Sess A) :
  preserves sess_wf m -> preserves server_wf (zoom sess_lens m).
Proof. apply preserves_zoom; [by intros ? []|]. intros ?? [] ?. by split. Qed.

Lemma findByUsername_pres u : preserves db_wf (findByUsername u).
Proof. intros db. unfold findByUsername, findOne. by destruct (connected db). Qed.

Lemma new_oid_pres : preserves db_wf new_oid.
Proof. exact new_oid_wf. Qed.

Lemma findOrCreate_pres g : preserves db_wf (findOrCreate g).
Proof. intros db. apply findOrCreate_wf. Qed.

Lemma isAuthenticated_pres : preserves sess_wf isAuthenticated.
Proof. by intros s. Qed.

Lemma logIn_pres u p : preserves sess_wf (logIn u p).
Proof. intros s. apply logIn_wf. Qed.

Lemma logOut_pres : preserves sess_wf logOut.
Proof. exact logOut_wf. Qed.

Lemma begin_request_pres ck : preserves sess_wf (begin_request ck).
Proof. intros s. apply begin_request_wf. Qed.

Lemma end_request_pres : preserves sess_wf end_request.
Proof. exact end_request_wf. Qed.

Lemma console_log_pres l : preserves server_wf (console_log l).
Proof. by intros s. Qed.

#[export] Hint Resolve preserves_zoom_db preserves_zoom_acc preserves_zoom_sess
  findByUsername_pres new_oid_pres findOrCreate_pres isAuthenticated_pres
  logIn_pres logOut_pres begin_request_pres end_request_pres console_log_pres : app.

(** Walk through binds, returns and the branches of a handler. *)
Ltac preserve :=
  repeat first
    [ apply preserves_bind; intros
    | apply preserves_ret
    | progress (eauto with app)
    | match goal with |- preserves _ (match ?x with _ => _ end) => destruct x end
    | match goal with |- preserves _ (if ?x then _ else _) => destruct x end ].

Section WfHandlers.
Context {kdf : Kdf} {prov : Provider}.

Lemma register_pres u pw : preserves acc_wf (register u pw).
Proof. intros a. apply register_wf. Qed.

Lemma local_strategy_pres b q : preserves acc_wf (local_strategy b q).
Proof.
  unfold local_strategy, verify_local. preserve.
Qed.

Lemma google_strategy_pres q sc : preserves server_wf (google_strategy q sc).
Proof. unfold google_strategy, google_verify. preserve. Qed.

Lemma authenticate_pres o f next :
  (forall e, preserves server_wf (next e)) -> preserves server_wf (authenticate o f next).
Proof. intros Hn. unfold authenticate. preserve. Qed.

Lemma express_next_pres (P : Server -> Prop) h e : preserves P h -> preserves P (express_next h e).
Proof. intros Hh. destruct e; [apply preserves_ret | exact Hh]. Qed.

#[local] Hint Resolve register_pres local_strategy_pres google_strategy_pres
  authenticate_pres express_next_pres : app.

Lemma route_pres rq : preserves server_wf (route rq).
Proof.
  unfold route, get_root, get_auth_google, get_auth_google_secrets, get_login,
    get_register, get_secrets, post_register, post_login, get_logout,
    get_submit, post_submit.
  preserve.
Qed.

Lemma serve_wf s rq : server_wf s -> server_wf (fst (serve s rq)).
Proof.
  intros Hs. unfold serve.
  assert (H : preserves server_wf (handle rq)).
  { unfold handle. rewrite static_miss. preserve. apply route_pres. }
  specialize (H s Hs). destruct (handle rq s) as [r s']. exact H.
Qed.

End WfHandlers.

#[export] Hint Resolve register_pres local_strategy_pres google_strategy_pres
  authenticate_pres express_next_pres route_pres serve_wf : app.

(** ** One request, step by step *)

(** What a component's operation does to the other component. *)
Lemma zoom_acc_sess {A} (m : St Accounts A) s : sess (snd (zoom acc_lens m s)) = sess s.
Proof. unfold zoom. by destruct (m _). Qed.

Lemma zoom_acc_accounts {A} (m : St Accounts A) s :
  zoom acc_lens m s = (fst (m (accounts s)), mkServer (snd (m (accounts s))) (sess s) (console s)).
Proof. unfold zoom. by destruct (m _). Qed.

Lemma zoom_sess_eq {A} (m : St Sess A) s :
  zoom sess_lens m s = (fst (m (sess s)), mkServer (accounts s) (snd (m (sess s))) (console s)).
Proof. unfold zoom. by destruct (m _). Qed.

(** Frames: an operation on the accounts keeps every property of the
    sessions; an operation on the sessions is seen through [sess]. *)
Lemma triple_acc_frame {A} (R : Sess -> Prop) (m : St Accounts A) :
  triple (fun s => R (sess s)) (zoom acc_lens m) (fun _ s => R (sess s)).
Proof. intros s Hs. by rewrite zoom_acc_sess. Qed.

Lemma triple_sess {A} (P : Sess -> Prop) (m : St Sess A) (Q : A -> Sess -> Prop) :
  triple P m Q -> triple (fun s => P (sess s)) (zoom sess_lens m) (fun a s => Q a (sess s)).
Proof. intros H s Hs. rewrite zoom_sess_eq. by apply H. Qed.

Section Steps.
Context {kdf : Kdf} {prov : Provider}.

Lemma serve_eq s rq :
  serve s rq =
  let s1 := mkServer (accounts s) (snd (begin_request (req_cookie rq) (sess s))) (console s) in
  let r := fst (route rq s1) in
  let s2 := snd (route rq s1) in
  if is_crashed r then (s2, mkResponse r None)
  else (mkServer (accounts s2) (snd (end_request (sess s2))) (console s2),
        mkResponse r (fst (end_request (sess s2)))).
Proof.
  unfold serve, handle. rewrite static_miss. unfold st_bind, st_ret. rewrite zoom_sess_eq. simpl.
  destruct (route rq _) as [r s2]. simpl. destruct (is_crashed r); [done|]. rewrite zoom_sess_eq. reflexivity.
Qed.

(** A [next] that only replies, with [k e] on [next(e)]. *)
Definition replies_with (next : option nat -> St Server Reply) (k : option nat -> Reply) : Prop :=
  forall e s, next e s = (k e, s).

Lemma express_next_replies r :
  replies_with (express_next (st_ret r)) (fun e => match e with None => r | Some st => Status st end).
Proof. by intros [] s. Qed.

Lemma arrow_next_replies r : replies_with (fun _ => st_ret r) (fun _ => r).
Proof. done. Qed.

(** [passport.authenticate] with a [next] that only replies: the
    session of a success is the serialised user; otherwise the session
    is untouched. The accounts are never touched. *)
Lemma authenticate_ret o f next k s :
  replies_with next k ->
  accounts (snd (authenticate o f next s)) = accounts s /\
  sess (snd (authenticate o f next s)) =
  match o with
  | Success d => snd (logIn (UDoc d) (serializeUser d) (sess s))
  | _ => sess s
  end.
Proof.
  intros Hn. destruct o; simpl; [|destruct f|..]; rewrite ?Hn; try done.
  unfold st_bind. rewrite zoom_sess_eq, Hn. done.
Qed.

Lemma authenticate_reply o f next k s :
  replies_with next k ->
  fst (authenticate o f next s) =
  match o with
  | Success _ => k None
  | Fail st => match f with Some url => Redirect url | None => Status (default 401 st) end
  | Error st => k (Some st)
  | Crash => Crashed
  | RedirectAuth sc => RedirectProvider sc
  end.
Proof.
  intros Hn. destruct o; simpl; [|destruct f|..]; rewrite ?Hn; try done.
  unfold st_bind. rewrite zoom_sess_eq, Hn. done.
Qed.

(** [app.get("/secrets")] replies from [req.user] alone and changes
    nothing. *)
Lemma get_secrets_eq s :
  get_secrets s =
  (if bool_decide (is_Some (user (ctx (sess s)))) then Render "secrets.ejs" else Redirect "/login", s).
Proof.
  unfold get_secrets, st_bind. rewrite zoom_sess_eq. simpl.
  destruct s as [a [st n c]]. simpl. by case_bool_decide.
Qed.

(** [app.get("/logout")] runs [req.logout] and redirects to /. *)
Lemma get_logout_eq s : get_logout s = (Redirect "/", mkServer (accounts s) (snd (logOut (sess s))) (console s)).
Proof. unfold get_logout, st_bind, st_ret. by rewrite zoom_sess_eq. Qed.

(** A property of the sessions that [req.login] keeps is kept by
    [passport.authenticate] with a replying [next]. *)
Lemma authenticate_frame (R : Sess -> Prop) o f next k :
  replies_with next k ->
  (forall d ss, R ss -> R (snd (logIn (UDoc d) (serializeUser d) ss))) ->
  triple (fun s => R (sess s)) (authenticate o f next) (fun _ s => R (sess s)).
Proof.
  intros Hn HR s Hs. destruct (authenticate_ret o f next k s Hn) as [_ ->].
  destruct o; auto.
Qed.

End Steps.

(** ** Routes *)

Section Routes.
Context {kdf : Kdf} {prov : Provider}.

Lemma route_get_secrets b q ck : route (mkRequest GET "/secrets" b q ck) = get_secrets.
Proof. reflexivity. Qed.
Lemma route_post_login b q ck : route (mkRequest POST "/login" b q ck) = post_login b q.
Proof. reflexivity. Qed.
Lemma route_post_register b q ck : route (mkRequest POST "/register" b q ck) = post_register b q.
Proof. reflexivity. Qed.
Lemma route_get_logout b q ck : route (mkRequest GET "/logout" b q ck) = get_logout.
Proof. reflexivity. Qed.
Lemma route_get_google_cb b q ck :
  route (mkRequest GET "/auth/google/secrets" b q ck) = get_auth_google_secrets q.
Proof. reflexivity. Qed.
Lemma route_post_submit b q ck : route (mkRequest POST "/submit" b q ck) = post_submit b.
Proof. reflexivity. Qed.

End Routes.

(** [req.login] leaves a regenerated session with data and the
    request's cookie. *)
Lemma logIn_logged_in u p c ss :
  cookie (ctx ss) = c -> orig_id (ctx ss) < next_sid ss -> logged_in c (snd (logIn u p ss)).
Proof.
  intros Hc Ho. pose proof (logIn_regenerated u p ss Ho).
  pose proof (next_id_ge (cookie (ctx ss)) (next_sid ss)).
  rewrite logIn_eq in *. split_and!; simpl; [done | lia | done | by eexists].
Qed.

Lemma logIn_triple u p c :
  triple (fun ss => cookie (ctx ss) = c /\ orig_id (ctx ss) < next_sid ss) (logIn u p)
         (fun _ => logged_in c).
Proof. intros ss [Hc Ho]. by apply logIn_logged_in. Qed.


(** ** [app.post("/login")] *)

Lemma logIn_again c d ss :
  logged_in c ss -> logged_in c (snd (logIn (UDoc d) (serializeUser d) ss)).
Proof. intros (Hc & Ho & _). by apply logIn_logged_in. Qed.

(** Whatever the body, [post_login] ends with a user in the session:
    the unverified document given to [req.login] before the strategy
    runs, or the verified one after a success. *)
Lemma post_login_session {kdf : Kdf} b q c :
  triple (fun s => cookie (ctx (sess s)) = c /\ orig_id (ctx (sess s)) < next_sid (sess s))
         (post_login b q) (fun _ s => logged_in c (sess s)).
Proof.
  unfold post_login.
  eapply triple_bind;
    [tstep (triple_acc_frame (A:=nat)
              (fun ss => cookie (ctx ss) = c /\ orig_id (ctx ss) < next_sid ss) (zoom db_lens new_oid))|].
  intros oid. simpl.
  set (u := mkDoc oid (b_username b) None (b_password b) None None).
  eapply triple_bind; [tstep (triple_sess _ _ _ (logIn_triple (UDoc u) (serializeUser u) c))|].
  intros [].
  eapply triple_bind; [tstep (triple_acc_frame (logged_in c) (local_strategy b q))|].
  intros o. eapply triple_conseq;
    [apply (authenticate_frame (logged_in c) o None _ _ (arrow_next_replies (Redirect "/secrets"))) | done | done].
  apply logIn_again.
Qed.

Lemma logIn_gone_triple u p k :
  triple (fun ss => cookie (ctx ss) = Some k /\ (sid (ctx ss) = k \/ store ss !! k = None)) (logIn u p)
         (fun _ => gone k).
Proof. intros ss [Hc Hk]. by apply logIn_gone_start. Qed.

(** Whatever the body, [post_login] leaves the session the cookie
    named gone. *)
Lemma post_login_gone {kdf : Kdf} b q k :
  triple (fun s => cookie (ctx (sess s)) = Some k /\ (sid (ctx (sess s)) = k \/ store (sess s) !! k = None))
         (post_login b q) (fun _ s => gone k (sess s)).
Proof.
  unfold post_login.
  eapply triple_bind;
    [tstep (triple_acc_frame (A:=nat)
              (fun ss => cookie (ctx ss) = Some k /\ (sid (ctx ss) = k \/ store ss !! k = None))
              (zoom db_lens new_oid))|].
  intros oid. simpl.
  set (u := mkDoc oid (b_username b) None (b_password b) None None).
  eapply triple_bind; [tstep (triple_sess _ _ _ (logIn_gone_triple (UDoc u) (serializeUser u) k))|].
  intros []. eapply triple_bind; [tstep (triple_acc_frame (gone k) (local_strategy b q))|].
  intros o. eapply triple_conseq;
    [apply (authenticate_frame (gone k) o None _ _ (arrow_next_replies (Redirect "/secrets"))) | done | done].
  intros d ss. apply logIn_gone.
Qed.

Section Gate.
Context {kdf : Kdf} {prov : Provider}.

(** A route that leaves the state as the session middleware made it
    sends no cookie and changes nothing. *)
Lemma serve_read_only s rq r :
  let s1 := mkServer (accounts s) (snd (begin_request (req_cookie rq) (sess s))) (console s) in
  route rq s1 = (r, s1) -> serve s rq = (s1, mkResponse r None).
Proof.
  intros s1 H. rewrite serve_eq. cbv zeta. fold s1. rewrite H. simpl. destruct (is_crashed r); [done|].
  rewrite end_request_untouched by apply begin_request_untouched. done.
Qed.

(** The reply of [GET /secrets] from the session the cookie names. *)
Lemma get_secrets_serve s ck b q :
  serve s (mkRequest GET "/secrets" b q ck) =
  (mkServer (accounts s) (snd (begin_request ck (sess s))) (console s),
   mkResponse (match ck with
               | Some k =>
                   match store (sess s) !! k with
                   | Some (Some _) => Render "secrets.ejs"
                   | _ => Redirect "/login"
                   end
               | None => Redirect "/login"
               end) None).
Proof.
  erewrite serve_read_only; [reflexivity|]. rewrite route_get_secrets, get_secrets_eq. simpl.
  f_equal. rewrite begin_request_eq. by destruct ck as [k|]; [destruct (_ !! k) as [[p|]|]|].
Qed.

(** C2. Access gate: [GET /secrets] renders the page exactly when the
    request's cookie names a stored session that holds a user, and
    otherwise redirects to /login; it sends no cookie and leaves the
    accounts and every stored session as they were. *)
Theorem secrets_gate s ck b q :
  let '(s', resp) := serve s (mkRequest GET "/secrets" b q ck) in
  (reply resp = Render "secrets.ejs" <->
   exists k p, ck = Some k /\ store (sess s) !! k = Some (Some p)) /\
  (reply resp <> Render "secrets.ejs" -> reply resp = Redirect "/login") /\
  set_cookie resp = None /\ accounts s' = accounts s /\ store (sess s') = store (sess s).
Proof.
  rewrite get_secrets_serve. cbn [reply set_cookie accounts sess]. rewrite begin_request_store.
  destruct ck as [k|]; [destruct (store (sess s) !! k) as [[p|]|] eqn:E|].
  1: split_and!; [split; [eauto | done] | done..].
  all: split_and!; try done; split; [intros Hc; inversion Hc | naive_solver].
Qed.

End Gate.

(** ** The handlers of the two flows in closed form *)

Section Flows.
Context {kdf : Kdf} {prov : Provider}.

Lemma local_strategy_eq b q a :
  local_strategy b q a =
  match credential (b_username b) (q_username q), credential (b_password b) (q_password q) with
  | Some u, Some pw =>
      (if connected (acc_db a) then
         match List.find (field_is username u) (docs (acc_db a)) with
         | None => Fail None
         | Some e => match Credential.authenticate e pw with
                     | VOk d => Success d | VFail _ => Fail None | VError => Error 500 | VThrow => Crash
                     end
         end
       else Error 500, a)
  | _, _ => (Fail (Some 400), a)
  end.
Proof.
  unfold local_strategy.
  destruct (credential (b_username b) (q_username q)) as [u|], (credential (b_password b) (q_password q)) as [pw|]; try done.
  unfold st_bind. rewrite verify_local_eq. destruct (connected _); [|done]. by destruct (List.find _ _).
Qed.

Lemma post_register_eq b q s :
  post_register b q s =
  match register (b_username b) (b_password b) (accounts s) with
  | (Err e, a1) => (Redirect "/register", mkServer a1 (sess s) (console s ++ [LogError e; LogValue (b_password b)]))
  | (Ok _, a1) =>
      authenticate (fst (local_strategy b q a1)) None (fun _ => st_ret (Redirect "/secrets"))
                   (mkServer (snd (local_strategy b q a1)) (sess s) (console s))
  end.
Proof.
  unfold post_register, st_bind at 1. rewrite zoom_acc_accounts.
  destruct (register _ _ _) as [[d|e] a1]; cbn [fst snd].
  - unfold st_bind. rewrite zoom_acc_accounts. done.
  - unfold st_bind, console_log, st_ret. simpl. by rewrite <- app_assoc.
Qed.

(** A successful registration is followed by a successful local login
    of the same body: the reply is the redirect to /secrets and the
    session holds the new user. *)
Lemma post_register_ok b q s d a1 :
  register (b_username b) (b_password b) (accounts s) = (Ok d, a1) ->
  post_register b q s =
  (Redirect "/secrets", mkServer a1 (snd (logIn (UDoc d) (serializeUser d) (sess s))) (console s)).
Proof.
  intros Hr. rewrite post_register_eq, Hr.
  destruct (register_ok_inv _ _ _ _ _ Hr) as (name & pw & Hu & Hpw & _).
  pose proof (register_verify_local _ _ _ _ _ _ _ Hu Hpw Hr) as Hv.
  rewrite verify_local_eq in Hv. injection Hv as Hv. revert Hv.
  rewrite local_strategy_eq, (credential_body _ _ _ Hu), (credential_body _ _ _ Hpw).
  destruct (connected _); [|done]. destruct (List.find _ _); [|done]. intros ->. simpl.
  unfold st_bind. rewrite zoom_sess_eq. done.
Qed.

Lemma post_login_eq b q s :
  post_login b q s =
  let a1 := mkAccounts (snd (new_oid (acc_db (accounts s)))) (acc_rng (accounts s)) in
  let u := mkDoc (next_oid (acc_db (accounts s))) (b_username b) None (b_password b) None None in
  authenticate (fst (local_strategy b q a1)) None (fun _ => st_ret (Redirect "/secrets"))
               (mkServer (snd (local_strategy b q a1)) (snd (logIn (UDoc u) (serializeUser u) (sess s))) (console s)).
Proof.
  destruct s as [[[c n b'] r] ss]. unfold post_login, st_bind.
  rewrite zoom_acc_accounts, zoom_sess_eq. simpl. rewrite zoom_acc_accounts. done.
Qed.

Lemma get_auth_google_eq q s :
  get_auth_google q s =
  authenticate (fst (google_strategy q ["profile"] s)) None (express_next (st_ret (Status 404)))
               (snd (google_strategy q ["profile"] s)).
Proof. unfold get_auth_google, st_bind. by destruct (google_strategy _ _ s). Qed.

Lemma get_auth_google_secrets_eq q s :
  get_auth_google_secrets q s =
  authenticate (fst (google_strategy q [] s)) (Some "/login") (express_next (st_ret (Redirect "/secrets")))
               (snd (google_strategy q [] s)).
Proof. unfold get_auth_google_secrets, st_bind. by destruct (google_strategy _ _ s). Qed.

Lemma google_verify_eq g s :
  google_verify g s =
  (match fst (findOrCreate g (acc_db (accounts s))) with Ok d => Success d | Err _ => Error 500 end,
   mkServer (mkAccounts (snd (findOrCreate g (acc_db (accounts s)))) (acc_rng (accounts s))) (sess s)
            (console s ++ [LogProfile g])).
Proof.
  unfold google_verify, st_bind, console_log, zoom. simpl.
  by destruct (findOrCreate g (acc_db (accounts s))) as [[d|e] db].
Qed.

(** The outcome of the Google strategy on every branch. *)
Lemma google_strategy_fst q sc s :
  fst (google_strategy q sc s) =
  match truthy_val (q_error q) with
  | Some e => if bool_decide (e = "access_denied") then Fail None else Error (authz_status e)
  | None =>
      match truthy_val (q_code q) with
      | None => RedirectAuth sc
      | Some c =>
          match exchange c with
          | None => Error 500
          | Some g => match fst (findOrCreate g (acc_db (accounts s))) with Ok d => Success d | Err _ => Error 500 end
          end
      end
  end.
Proof.
  unfold google_strategy. destruct (truthy_val (q_error q)); [done|].
  destruct (truthy_val (q_code q)) as [c|]; [|done]. destruct (exchange c); [|done].
  by rewrite google_verify_eq.
Qed.

(** The accounts the Google strategy leaves, and the sessions it
    keeps. *)
Lemma google_strategy_accounts q sc s :
  accounts (snd (google_strategy q sc s)) =
  match truthy_val (q_error q) with
  | Some _ => accounts s
  | None =>
      match truthy_val (q_code q) with
      | Some c =>
          match exchange c with
          | Some g => mkAccounts (snd (findOrCreate g (acc_db (accounts s)))) (acc_rng (accounts s))
          | None => accounts s
          end
      | None => accounts s
      end
  end.
Proof.
  unfold google_strategy. destruct (truthy_val (q_error q)); [done|].
  destruct (truthy_val (q_code q)) as [c|]; [|done]. destruct (exchange c); [|done].
  by rewrite google_verify_eq.
Qed.

Lemma google_strategy_sess q sc s : sess (snd (google_strategy q sc s)) = sess s.
Proof.
  unfold google_strategy. destruct (truthy_val (q_error q)); [done|].
  destruct (truthy_val (q_code q)) as [c|]; [|done]. destruct (exchange c); [|done].
  by rewrite google_verify_eq.
Qed.

End Flows.

(** ** Whole requests *)

Lemma boot_wf b : server_wf (boot b).
Proof.
  split; [split_and!; constructor|].
  split_and!; [apply map_Forall_empty | simpl; lia | simpl; lia | left; split_and!; simpl; auto].
Qed.

Lemma server0_wf : server_wf server0.
Proof. apply boot_wf. Qed.

(** The invariant does not depend on the connection. *)
Lemma set_connected_wf b s : server_wf s -> server_wf (set_connected b s).
Proof. by intros [Hd Hs]. Qed.

Lemma reachable_server_wf {kdf : Kdf} {prov : Provider} s : reachable s -> server_wf s.
Proof. induction 1; [apply boot_wf | by apply serve_wf | by apply set_connected_wf]. Qed.

Section Requests.
Context {kdf : Kdf} {prov : Provider}.

(** A route that neither reads nor changes the state: the reply is the
    route's, no cookie is sent and nothing is stored. *)
Lemma serve_pure s rq r :
  (forall s1, route rq s1 = (r, s1)) ->
  let '(s', resp) := serve s rq in
  reply resp = r /\ set_cookie resp = None /\ accounts s' = accounts s /\ store (sess s') = store (sess s).
Proof.
  intros H. rewrite (serve_read_only s rq r) by apply H. split_and!; try done. apply begin_request_store.
Qed.

(** The reply of a request is the reply of its route, run after the
    session middleware. *)
Lemma serve_reply s rq :
  reply (snd (serve s rq)) =
  fst (route rq (mkServer (accounts s) (snd (begin_request (req_cookie rq) (sess s))) (console s))).
Proof. rewrite serve_eq. cbv zeta. by destruct (is_crashed _).  Qed.

(** The accounts after a request are those its route leaves. *)
Lemma serve_accounts s rq :
  accounts (fst (serve s rq)) =
  accounts (snd (route rq (mkServer (accounts s) (snd (begin_request (req_cookie rq) (sess s))) (console s)))).
Proof. rewrite serve_eq. cbv zeta. by destruct (is_crashed _). Qed.

(** So is the console. *)
Lemma serve_console s rq :
  console (fst (serve s rq)) =
  console (snd (route rq (mkServer (accounts s) (snd (begin_request (req_cookie rq) (sess s))) (console s)))).
Proof. rewrite serve_eq. cbv zeta. by destruct (is_crashed _). Qed.

(** [app.post("/register")] as a whole: the reply follows the result of
    [register], and the accounts are those [register] leaves. *)
Lemma serve_post_register s b q ck :
  reply (snd (serve s (mkRequest POST "/register" b q ck))) =
    (if is_ok (fst (register (b_username b) (b_password b) (accounts s)))
     then Redirect "/secrets" else Redirect "/register") /\
  accounts (fst (serve s (mkRequest POST "/register" b q ck))) =
    snd (register (b_username b) (b_password b) (accounts s)).
Proof.
  rewrite serve_eq. cbv zeta. cbn [reply accounts fst snd]. rewrite route_post_register.
  destruct (register (b_username b) (b_password b) (accounts s)) as [[d|e] a1] eqn:E.
  - by rewrite (post_register_ok b q (mkServer (accounts s) _ _) d a1 E).
  - rewrite post_register_eq. simpl. by rewrite E.
Qed.

(** [app.get('/auth/google/secrets')] as a whole: the reply follows the
    outcome of the Google strategy, and the accounts are those it
    leaves. *)
Lemma serve_google_callback s b q ck :
  reply (snd (serve s (mkRequest GET "/auth/google/secrets" b q ck))) =
    match fst (google_strategy q [] s) with
    | Success _ => Redirect "/secrets"
    | Fail _ => Redirect "/login"
    | Error st => Status st
    | Crash => Crashed
    | RedirectAuth sc => RedirectProvider sc
    end /\
  accounts (fst (serve s (mkRequest GET "/auth/google/secrets" b q ck))) =
    accounts (snd (google_strategy q [] s)).
Proof.
  rewrite serve_reply, serve_accounts, route_get_google_cb, get_auth_google_secrets_eq. split.
  - rewrite (authenticate_reply _ _ _ _ _ (express_next_replies _)), !google_strategy_fst.
    reflexivity.
  - by rewrite (proj1 (authenticate_ret _ _ _ _ _ (express_next_replies _))), !google_strategy_accounts.
Qed.

(** [app.get('/auth/google')] as a whole: the Google strategy with the
    scope [profile] and no failure redirect; after a success no
    handler follows, and Express answers 404. *)
Lemma serve_google_initiate s b q ck :
  reply (snd (serve s (mkRequest GET "/auth/google" b q ck))) =
    match fst (google_strategy q ["profile"] s) with
    | Success _ => Status 404
    | Fail st => Status (default 401 st)
    | Error st => Status st
    | Crash => Crashed
    | RedirectAuth sc => RedirectProvider sc
    end /\
  accounts (fst (serve s (mkRequest GET "/auth/google" b q ck))) =
    accounts (snd (google_strategy q ["profile"] s)).
Proof.
  rewrite serve_reply, serve_accounts.
  change (route (mkRequest GET "/auth/google" b q ck)) with (get_auth_google q).
  rewrite get_auth_google_eq. split.
  - rewrite (authenticate_reply _ _ _ _ _ (express_next_replies _)), !google_strategy_fst.
    reflexivity.
  - by rewrite (proj1 (authenticate_ret _ _ _ _ _ (express_next_replies _))), !google_strategy_accounts.
Qed.

(** A request whose route logs a user in, and during which the
    process does not exit, is answered with a Set-Cookie naming a
    stored session that holds the user. *)
Lemma serve_new_session s rq :
  let s1 := mkServer (accounts s) (snd (begin_request (req_cookie rq) (sess s))) (console s) in
  logged_in (req_cookie rq) (sess (snd (route rq s1))) -> is_crashed (fst (route rq s1)) = false ->
  exists k p, set_cookie (snd (serve s rq)) = Some k /\ store (sess (fst (serve s rq))) !! k = Some (Some p).
Proof.
  intros s1 (_ & _ & Hr & [p Hp]) Hnc. rewrite serve_eq. cbv zeta. fold s1. rewrite Hnc. cbn [fst snd set_cookie sess].
  rewrite (end_request_regenerated _ Hr). cbn [fst snd store]. rewrite Hp.
  eexists _, p. split; [done|]. apply lookup_insert_eq.
Qed.

(** The reply of the [app.post("/login")] handler on every branch. *)
Lemma post_login_fst b q s :
  fst (post_login b q s) =
  match credential (b_username b) (q_username q), credential (b_password b) (q_password q) with
  | Some u, Some pw =>
      if connected (acc_db (accounts s)) then
        match List.find (field_is username u) (docs (acc_db (accounts s))) with
        | None => Status 401
        | Some e => match Credential.authenticate e pw with
                    | VOk _ | VError => Redirect "/secrets" | VFail _ => Status 401 | VThrow => Crashed
                    end
        end
      else Redirect "/secrets"
  | _, _ => Status 400
  end.
Proof.
  rewrite post_login_eq. cbv zeta. rewrite (authenticate_reply _ _ _ _ _ (arrow_next_replies _)), local_strategy_eq. simpl.
  destruct (credential (b_username b) (q_username q)), (credential (b_password b) (q_password q)); try done.
  destruct (connected _); [|done].
  destruct (List.find _ _) as [e|]; [|done]. by destruct (Credential.authenticate e _).
Qed.

(** [POST /login] with a username and a password, from the body or
    the query string. *)
Lemma serve_login_creds s b q ck u pw :
  credential (b_username b) (q_username q) = Some u -> credential (b_password b) (q_password q) = Some pw ->
  reply (snd (serve s (mkRequest POST "/login" b q ck))) =
  if connected (acc_db (accounts s)) then
    match List.find (field_is username u) (docs (acc_db (accounts s))) with
    | None => Status 401
    | Some e => match Credential.authenticate e pw with
                | VOk _ | VError => Redirect "/secrets" | VFail _ => Status 401 | VThrow => Crashed
                end
    end
  else Redirect "/secrets".
Proof. intros Hu Hpw. by rewrite serve_reply, route_post_login, post_login_fst, Hu, Hpw. Qed.

(** ** The process does not exit on a hashed collection *)

(** [passport.authenticate] answers [Crashed] only on the outcome
    [Crash] of its strategy, when [next] never does. *)
Lemma authenticate_no_crash o f next k s :
  replies_with next k -> (forall e, is_crashed (k e) = false) -> o <> Crash ->
  is_crashed (fst (authenticate o f next s)) = false.
Proof. intros Hn Hk Ho. rewrite (authenticate_reply _ _ _ _ _ Hn). destruct o, f; done || apply Hk. Qed.

Lemma google_strategy_no_crash q sc s : fst (google_strategy q sc s) <> Crash.
Proof. rewrite google_strategy_fst. by repeat case_match. Qed.

Lemma google_strategy_hashed q sc s :
  hashed (acc_db (accounts s)) -> hashed (acc_db (accounts (snd (google_strategy q sc s)))).
Proof. intros H. rewrite google_strategy_accounts. repeat case_match; try done. by apply findOrCreate_hashed. Qed.

(** A Google route on a hashed collection. *)
Lemma google_route_hashed q sc f r s :
  is_crashed r = false -> hashed (acc_db (accounts s)) ->
  is_crashed (fst (authenticate (fst (google_strategy q sc s)) f (express_next (st_ret r))
                                 (snd (google_strategy q sc s)))) = false /\
  hashed (acc_db (accounts (snd (authenticate (fst (google_strategy q sc s)) f (express_next (st_ret r))
                                               (snd (google_strategy q sc s)))))).
Proof.
  intros Hr H. split.
  - apply (authenticate_no_crash _ _ _ _ _ (express_next_replies r)); [|apply google_strategy_no_crash].
    intros [st|]; [done | exact Hr].
  - rewrite (proj1 (authenticate_ret _ _ _ _ _ (express_next_replies r))). by apply google_strategy_hashed.
Qed.

(** The local strategy after [User.register] or a new ObjectId, on a
    hashed collection. *)
Lemma local_route_hashed b q a1 s :
  hashed (acc_db a1) ->
  is_crashed (fst (authenticate (fst (local_strategy b q a1)) None (fun _ => st_ret (Redirect "/secrets")) s)) = false /\
  accounts (snd (authenticate (fst (local_strategy b q a1)) None (fun _ => st_ret (Redirect "/secrets")) s)) = accounts s.
Proof.
  intros H. split.
  - apply (authenticate_no_crash _ _ _ _ _ (arrow_next_replies _)); [done|]. by apply local_strategy_no_crash.
  - apply (authenticate_ret _ _ _ _ _ (arrow_next_replies _)).
Qed.

Lemma post_register_hashed b q s :
  hashed (acc_db (accounts s)) ->
  is_crashed (fst (post_register b q s)) = false /\ hashed (acc_db (accounts (snd (post_register b q s)))).
Proof.
  intros H. pose proof (register_hashed (b_username b) (b_password b) _ H) as Ha1.
  rewrite post_register_eq. destruct (register _ _ (accounts s)) as [[d|e] a1]; cbn [snd] in Ha1; [|done].
  destruct (local_route_hashed b q a1 (mkServer (snd (local_strategy b q a1)) (sess s) (console s)) Ha1) as [-> ->].
  by rewrite local_strategy_snd.
Qed.

Lemma post_login_hashed b q s :
  hashed (acc_db (accounts s)) ->
  is_crashed (fst (post_login b q s)) = false /\ hashed (acc_db (accounts (snd (post_login b q s)))).
Proof.
  intros H. rewrite post_login_eq. cbv zeta.
  edestruct local_route_hashed as [-> ->]; [exact H|]. by rewrite local_strategy_snd.
Qed.

(** No route makes the process exit on a hashed collection, and every
    route keeps it hashed. *)
Lemma route_hashed rq s :
  hashed (acc_db (accounts s)) ->
  is_crashed (fst (route rq s)) = false /\ hashed (acc_db (accounts (snd (route rq s)))).
Proof.
  intros H. unfold route. destruct (method rq); repeat case_bool_decide;
    first [ by split
          | by rewrite get_secrets_eq; case_bool_decide
          | by rewrite get_logout_eq
          | rewrite get_auth_google_eq; by apply google_route_hashed
          | rewrite get_auth_google_secrets_eq; by apply google_route_hashed
          | by apply post_register_hashed
          | by apply post_login_hashed ].
Qed.

(** [POST /login] without a cookie, when the process does not exit,
    sets one that names a stored session with a user in it. *)
Lemma serve_post_login_session s b q :
  is_crashed (reply (snd (serve s (mkRequest POST "/login" b q None)))) = false ->
  exists k p, set_cookie (snd (serve s (mkRequest POST "/login" b q None))) = Some k /\
              store (sess (fst (serve s (mkRequest POST "/login" b q None)))) !! k = Some (Some p).
Proof.
  intros Hnc. rewrite serve_reply in Hnc. apply serve_new_session; [|exact Hnc]. rewrite route_post_login.
  apply post_login_session. rewrite begin_request_eq. simpl. split; [done | lia].
Qed.

(** So does a successful [POST /register] without a cookie. *)
Lemma serve_post_register_session s b q d a1 :
  register (b_username b) (b_password b) (accounts s) = (Ok d, a1) ->
  exists k p, set_cookie (snd (serve s (mkRequest POST "/register" b q None))) = Some k /\
              store (sess (fst (serve s (mkRequest POST "/register" b q None)))) !! k = Some (Some p).
Proof.
  intros Hr. apply serve_new_session; rewrite route_post_register, (post_register_ok b q (mkServer (accounts s) _ _) d a1 Hr);
    [cbn [snd sess] | done].
  apply logIn_logged_in; rewrite begin_request_eq; simpl; [done | lia].
Qed.

(** So does a Google callback whose profile [findOrCreate] finds or
    creates. *)
Lemma serve_google_session s b code g d db1 :
  code <> "" -> exchange code = Some g -> findOrCreate g (acc_db (accounts s)) = (Ok d, db1) ->
  exists k p, set_cookie (snd (serve s (mkRequest GET "/auth/google/secrets" b (QCode code) None))) = Some k /\
    store (sess (fst (serve s (mkRequest GET "/auth/google/secrets" b (QCode code) None)))) !! k = Some (Some p).
Proof.
  intros Hc Hex Hf. apply serve_new_session; rewrite route_get_google_cb, get_auth_google_secrets_eq;
    cbn [req_cookie accounts sess]; rewrite google_strategy_code, Hex, google_verify_eq by done;
    cbn [fst snd accounts]; rewrite Hf; cbn [fst snd].
  2: by rewrite (authenticate_reply _ _ _ _ _ (express_next_replies _)).
  rewrite (proj2 (authenticate_ret (Success d) _ _ _ _ (express_next_replies (Redirect "/secrets")))). cbn [sess].
  apply logIn_logged_in; rewrite begin_request_eq; simpl; [done | lia].
Qed.

(** [GET /logout] as a whole: the redirect to /, and the session the
    cookie named (if any) replaced by a new, empty one stored under a
    fresh id that the reply's Set-Cookie names. *)
Lemma serve_logout s b q ck :
  sess_wf (sess s) ->
  let '(s', resp) := serve s (mkRequest GET "/logout" b q ck) in
  reply resp = Redirect "/" /\ accounts s' = accounts s /\
  exists k', set_cookie resp = Some k' /\ ck <> Some k' /\ store (sess s) !! k' = None /\
    store (sess s') =
    <[k' := None]> (match ck with Some k => delete k (store (sess s)) | None => store (sess s) end).
Proof.
  intros Hwf. rewrite serve_eq. cbv zeta. rewrite route_get_logout, get_logout_eq.
  cbn [fst snd sess accounts req_cookie is_crashed].
  pose proof (begin_request_wf ck _ Hwf) as (_ & _ & Ho & _).
  rewrite (end_request_regenerated _ (logOut_regenerated _ Ho)).
  pose proof (begin_request_next ck (sess s)) as Hn.
  pose proof (next_id_ge ck (next_sid (snd (begin_request ck (sess s))))).
  rewrite logOut_eq, begin_request_cookie. cbn [reply set_cookie fst snd store ctx sid accounts sess].
  split_and!; [done | done |]. eexists. split_and!; [done | apply next_id_ne | |].
  - apply wf_fresh; [done | lia].
  - rewrite delete_insert_eq, begin_request_store. f_equal. by apply begin_request_delete.
Qed.

(** Every request on a hashed collection keeps it hashed, and the
    process does not exit during it. *)
Lemma serve_hashed s rq :
  hashed (acc_db (accounts s)) ->
  hashed (acc_db (accounts (fst (serve s rq)))) /\ is_crashed (reply (snd (serve s rq))) = false.
Proof. intros H. rewrite serve_accounts, serve_reply. split; apply route_hashed, H. Qed.

Lemma reachable_hashed s : reachable s -> hashed (acc_db (accounts s)).
Proof. induction 1; [constructor | by apply serve_hashed | done]. Qed.

(** No request makes the process exit in a reachable state. *)
Lemma reachable_no_crash s rq : reachable s -> is_crashed (reply (snd (serve s rq))) = false.
Proof. intros H. by apply serve_hashed, reachable_hashed. Qed.

Lemma reachable_serve s rq : reachable s -> reachable (fst (serve s rq)).
Proof. intros H. by apply reach_step; [|apply reachable_no_crash]. Qed.

(** A registration that succeeds is followed by the local strategy,
    which finds the document just saved: it does not throw. *)
Lemma post_register_no_crash b q s : fst (post_register b q s) <> Crashed.
Proof.
  rewrite post_register_eq. destruct (register _ _ (accounts s)) as [[d|e] a1] eqn:Hr; [|done].
  destruct (register_ok_inv _ _ _ _ _ Hr) as (name & pw & Hu & Hpw & _).
  pose proof (register_verify_local _ _ _ _ _ _ _ Hu Hpw Hr) as Hv.
  rewrite (authenticate_reply _ _ _ _ _ (arrow_next_replies _)).
  unfold local_strategy. rewrite (credential_body _ _ _ Hu), (credential_body _ _ _ Hpw).
  unfold st_bind. by rewrite Hv.
Qed.

(** Only [POST /login] can make the process exit, when its local
    strategy ends in [Crash]. *)
Lemma route_crashed rq s :
  fst (route rq s) = Crashed ->
  method rq = POST /\ path rq = "/login" /\
  fst (local_strategy (body rq) (query rq) (mkAccounts (snd (new_oid (acc_db (accounts s)))) (acc_rng (accounts s))))
    = Crash.
Proof.
  unfold route. destruct (method rq) eqn:Em; repeat case_bool_decide; intros Hc.
  all: try (by rewrite ?get_secrets_eq, ?get_logout_eq in Hc; repeat case_match).
  - rewrite get_auth_google_eq, (authenticate_reply _ _ _ _ _ (express_next_replies _)) in Hc.
    pose proof (google_strategy_no_crash (query rq) ["profile"] s). by repeat case_match.
  - rewrite get_auth_google_secrets_eq, (authenticate_reply _ _ _ _ _ (express_next_replies _)) in Hc.
    pose proof (google_strategy_no_crash (query rq) [] s). by repeat case_match.
  - by apply post_register_no_crash in Hc.
  - split_and!; [done..|]. rewrite post_login_eq in Hc. cbv zeta in Hc.
    rewrite (authenticate_reply _ _ _ _ _ (arrow_next_replies _)) in Hc. by repeat case_match.
Qed.

End Requests.

(** ** The console *)

Section Console.
Context {kdf : Kdf} {prov : Provider}.
Variable c0 : list LogLine.

Lemma console_clean_same s : console s = c0 -> console_clean c0 s.
Proof. intros H. exists []. by rewrite app_nil_r. Qed.

Lemma zoom_acc_clean {A} (m : St Accounts A) : preserves (console_clean c0) (zoom acc_lens m).
Proof. intros s Hs. unfold zoom. by destruct (m _). Qed.

Lemma zoom_sess_clean {A} (m : St Sess A) : preserves (console_clean c0) (zoom sess_lens m).
Proof. intros s Hs. unfold zoom. by destruct (m _). Qed.

Lemma console_log_clean x : (forall v, x <> LogValue v) -> preserves (console_clean c0) (console_log x).
Proof.
  intros Hx s (l & Hc & Hl). exists (l ++ [x]). cbn. rewrite Hc, <- app_assoc.
  split; [done|]. apply Forall_app. by split; [|constructor].
Qed.

Lemma console_log_profile_clean g : preserves (console_clean c0) (console_log (LogProfile g)).
Proof. by apply console_log_clean. Qed.

#[local] Hint Resolve zoom_acc_clean zoom_sess_clean console_log_profile_clean : app.

Lemma google_strategy_clean q sc : preserves (console_clean c0) (google_strategy q sc).
Proof. unfold google_strategy, google_verify. preserve. Qed.

Lemma authenticate_clean o f next :
  (forall e, preserves (console_clean c0) (next e)) -> preserves (console_clean c0) (authenticate o f next).
Proof. intros Hn. unfold authenticate. preserve. Qed.

#[local] Hint Resolve google_strategy_clean authenticate_clean : app.

(** Every route but [POST /register] writes no logged value. *)
Lemma route_clean rq :
  ~ (method rq = POST /\ path rq = "/register") -> preserves (console_clean c0) (route rq).
Proof.
  intros Hn. unfold route. destruct (method rq) eqn:Em.
  - unfold get_root, get_auth_google, get_auth_google_secrets, get_login, get_register,
      get_secrets, get_logout, get_submit. preserve.
  - rewrite bool_decide_eq_false_2 by naive_solver. unfold post_login, post_submit. preserve.
Qed.

End Console.

(** [passport.authenticate] with a replying [next] writes nothing. *)
Lemma authenticate_console o f next k s :
  replies_with next k -> console (snd (authenticate o f next s)) = console s.
Proof. intros Hn. destruct o; simpl; [|destruct f|..]; rewrite ?Hn; try done. unfold st_bind. by rewrite zoom_sess_eq, Hn. Qed.

(** ** Properties of the application *)

(** The branches of the Google strategy: [error], then [code], then
    the exchange, then [findOrCreate]. *)
Ltac google_branches :=
  match goal with |- context [truthy_val (q_error ?q)] =>
    destruct (truthy_val (q_error q)); [unfold authz_status; repeat case_bool_decide; subst; done|];
    destruct (truthy_val (q_code q)) as [c|]; [|done];
    destruct (exchange c); [|done]; by destruct (fst (findOrCreate _ _))
  end.

Section Claims.
Context {kdf : Kdf} {prov : Provider}.

(** C3. Invariant of every reachable state: the unique indexes hold
    and the session ids are issued by the id source; in particular no
    two user documents share an [_id], a [googleId] or a [username]
    (a missing one included, as MongoDB's non-sparse indexes
    enforce). *)
Theorem reachable_unique_users s :
  reachable s ->
  server_wf s /\
  forall d e, d ∈ docs (acc_db (accounts s)) -> e ∈ docs (acc_db (accounts s)) ->
    _id d = _id e \/ googleId d = googleId e \/ username d = username e -> d = e.
Proof.
  intros Hr. pose proof (reachable_server_wf s Hr) as Hwf. split; [done|].
  intros d e. apply db_wf_same_key, Hwf.
Qed.

(** C5. The reply of [POST /login] on every branch: 400 without a
    truthy username and password (each taken from the body, else from
    the query string); 401 for an unknown username, a document without
    a salt, or a wrong password; the redirect to /secrets when the
    password matches, and also when the collection is unreachable (the
    query's error goes to [next(err)], the arrow of line 147, which
    redirects); and no response at all, the process exiting, for a
    document with a salt and no hash ([Buffer.from(undefined)] throws
    in the callback of [pbkdf2]). *)
Theorem post_login_reply s b q ck :
  reply (snd (serve s (mkRequest POST "/login" b q ck))) =
  match credential (b_username b) (q_username q), credential (b_password b) (q_password q) with
  | Some u, Some pw =>
      if connected (acc_db (accounts s)) then
        match List.find (field_is username u) (docs (acc_db (accounts s))) with
        | None => Status 401
        | Some e =>
            match truthy_val (salt e), hash e with
            | None, _ => Status 401
            | Some _, None => Crashed
            | Some sl, Some h => if bool_decide (pbkdf2 pw sl = h) then Redirect "/secrets" else Status 401
            end
        end
      else Redirect "/secrets"
  | _, _ => Status 400
  end.
Proof.
  rewrite serve_reply, route_post_login, post_login_fst. cbn [accounts].
  destruct (credential (b_username b) (q_username q)), (credential (b_password b) (q_password q)); try done. destruct (connected _); [|done].
  destruct (List.find _ _) as [e|]; [|done]. unfold Credential.authenticate.
  destruct (truthy_val (salt e)), (hash e); [by case_bool_decide | done..].
Qed.

(** C7. Registering an existing username is refused: the reply is the
    redirect back to /register and no document is added (with the
    collection unreachable, the query fails, with the same reply). *)
Theorem register_duplicate_username s b q ck name e :
  truthy_val (b_username b) = Some name -> e ∈ docs (acc_db (accounts s)) -> username e = Some name ->
  reply (snd (serve s (mkRequest POST "/register" b q ck))) = Redirect "/register" /\
  docs (acc_db (accounts (fst (serve s (mkRequest POST "/register" b q ck))))) = docs (acc_db (accounts s)).
Proof.
  intros Hu Hin He. destruct (serve_post_register s b q ck) as [-> ->].
  rewrite register_docs, (register_existing _ _ (b_password b) (accounts s) e Hu Hin He).
  by destruct (connected _).
Qed.

(** C8. Once one local account exists (a document without [googleId]),
    every further [POST /register] is refused, whatever the body: the
    new document would also lack [googleId], and the non-sparse index
    [googleId_1] holds one [null] only. *)
Theorem register_refused_after_local_user s b q ck e :
  server_wf s -> e ∈ docs (acc_db (accounts s)) -> googleId e = None ->
  reply (snd (serve s (mkRequest POST "/register" b q ck))) = Redirect "/register" /\
  docs (acc_db (accounts (fst (serve s (mkRequest POST "/register" b q ck))))) = docs (acc_db (accounts s)).
Proof.
  intros [Hwf _] Hin Hg. destruct (serve_post_register s b q ck) as [-> ->].
  pose proof (register_refused_googleId (b_username b) (b_password b) _ e Hwf Hin Hg) as Hr.
  rewrite register_docs. by destruct (fst (register _ _ _)).
Qed.

(** C9. The reply of the Google callback on every branch: without a
    code or error, a redirect to Google; [access_denied] redirects to
    /login; any other error is an [AuthorizationError], which Express's
    final handler answers with its status (502 for [server_error], 503
    for [temporarily_unavailable], 500 otherwise); a failed token
    exchange or a failed [findOrCreate] is a 500; otherwise the
    redirect to /secrets. *)
Theorem google_callback_reply s b q ck :
  reply (snd (serve s (mkRequest GET "/auth/google/secrets" b q ck))) =
  match truthy_val (q_error q) with
  | Some e =>
      if bool_decide (e = "access_denied") then Redirect "/login"
      else if bool_decide (e = "server_error") then Status 502
      else if bool_decide (e = "temporarily_unavailable") then Status 503
      else Status 500
  | None =>
      match truthy_val (q_code q) with
      | None => RedirectProvider []
      | Some c =>
          match exchange c with
          | None => Status 500
          | Some g => match fst (findOrCreate g (acc_db (accounts s))) with
                      | Ok _ => Redirect "/secrets" | Err _ => Status 500
                      end
          end
      end
  end.
Proof.
  destruct (serve_google_callback s b q ck) as [-> _]. rewrite google_strategy_fst.
  google_branches.
Qed.

(** C10. A second Google account cannot be created: once some
    document lacks [username] (every Google account does), the
    callback for a new Google profile fails with E11000 on
    [username_1] (or, with the collection unreachable, with the
    timeout of its query), answered with a 500, and no document is
    added. *)
Theorem second_google_user_error s b code ck g e :
  server_wf s -> code <> "" -> exchange code = Some g ->
  List.find (field_is googleId g) (docs (acc_db (accounts s))) = None ->
  e ∈ docs (acc_db (accounts s)) -> username e = None ->
  reply (snd (serve s (mkRequest GET "/auth/google/secrets" b (QCode code) ck))) = Status 500 /\
  docs (acc_db (accounts (fst (serve s (mkRequest GET "/auth/google/secrets" b (QCode code) ck))))) =
  docs (acc_db (accounts s)).
Proof.
  intros [Hwf _] Hc Hex Hf Hin Hu. destruct (serve_google_callback s b (QCode code) ck) as [-> ->].
  rewrite google_strategy_code, Hex, google_verify_eq by done.
  destruct (connected (acc_db (accounts s))) eqn:Hcn;
    [rewrite (findOrCreate_missing_username _ _ e Hwf Hcn Hf Hin Hu) | rewrite (findOrCreate_down _ _ Hcn)]; done.
Qed.

(** C11. With the collection reachable, the callback for a Google
    profile already in the collection logs that user in: the reply is
    the redirect to /secrets and no document is added. *)
Theorem google_callback_existing_user s b code ck g d :
  code <> "" -> exchange code = Some g -> connected (acc_db (accounts s)) = true ->
  List.find (field_is googleId g) (docs (acc_db (accounts s))) = Some d ->
  reply (snd (serve s (mkRequest GET "/auth/google/secrets" b (QCode code) ck))) = Redirect "/secrets" /\
  accounts (fst (serve s (mkRequest GET "/auth/google/secrets" b (QCode code) ck))) = accounts s.
Proof.
  intros Hc Hex Hcn Hf. destruct (serve_google_callback s b (QCode code) ck) as [-> ->].
  rewrite google_strategy_code, Hex, google_verify_eq, (findOrCreate_found _ _ _ Hcn Hf) by done.
  by destruct s as [[db r] ss].
Qed.

(** [POST /submit] discards the secret: the reply is the redirect
    to /, no cookie is sent, and neither the accounts nor any stored
    session change. *)
Theorem submit_discards s b q ck :
  let '(s', resp) := serve s (mkRequest POST "/submit" b q ck) in
  reply resp = Redirect "/" /\ set_cookie resp = None /\
  accounts s' = accounts s /\ store (sess s') = store (sess s).
Proof. by apply serve_pure. Qed.

(** C23. Initiating the Google login (spec 4.5, step 1): without a
    code, [GET /auth/google] redirects to Google's authorization
    endpoint with the scope [profile]. With Google's answer sent to
    this route instead of the callback, an [error] fails with 401 when
    it is [access_denied] and is otherwise answered with the status of
    its [AuthorizationError] (502, 503 or 500), and a code that logs
    the user in is answered with 404, as no handler follows the
    middleware. *)
Theorem google_initiate_reply s b q ck :
  reply (snd (serve s (mkRequest GET "/auth/google" b q ck))) =
  match truthy_val (q_error q) with
  | Some e =>
      if bool_decide (e = "access_denied") then Status 401
      else if bool_decide (e = "server_error") then Status 502
      else if bool_decide (e = "temporarily_unavailable") then Status 503
      else Status 500
  | None =>
      match truthy_val (q_code q) with
      | None => RedirectProvider ["profile"]
      | Some c =>
          match exchange c with
          | None => Status 500
          | Some g => match fst (findOrCreate g (acc_db (accounts s))) with
                      | Ok _ => Status 404 | Err _ => Status 500
                      end
          end
      end
  end.
Proof.
  destruct (serve_google_initiate s b q ck) as [-> _]. rewrite google_strategy_fst.
  google_branches.
Qed.

(** C33. No session fixation through the login route (spec 4.3):
    after [POST /login] with a cookie, whatever the body and whatever
    the outcome, no session is stored under the presented id and the
    reply's Set-Cookie, if any, names another id. An id an attacker
    plants in a victim's browser never carries the victim's login. *)
Theorem login_destroys_presented_session s b q k :
  let '(s', resp) := serve s (mkRequest POST "/login" b q (Some k)) in
  store (sess s') !! k = None /\ set_cookie resp <> Some k.
Proof.
  rewrite serve_eq. cbv zeta. cbn [req_cookie]. rewrite route_post_login.
  pose proof (post_login_gone b q k (mkServer (accounts s) (snd (begin_request (Some k) (sess s))) (console s))
                (begin_request_presented k (sess s))) as Hg. cbn beta in Hg.
  destruct (is_crashed _); [split; [apply Hg | done]|].
  destruct (end_request_gone k _ Hg) as [H1 H2]. cbn [sess set_cookie]. split; [exact H1 | exact H2].
Qed.

(** C25. Bound on the growth of the session store under logout: a
    [GET /logout] whose cookie names a stored session leaves the number
    of stored sessions unchanged (the old one is destroyed, the new
    empty one saved), and every other [GET /logout] (no cookie, or an
    unknown one) adds exactly one session, although it holds no user
    and the app sets [saveUninitialized: false]. *)
Theorem logout_store_size s b q ck :
  server_wf s ->
  size (store (sess (fst (serve s (mkRequest GET "/logout" b q ck))))) =
  size (store (sess s)) +
  match ck with
  | Some k => if bool_decide (is_Some (store (sess s) !! k)) then 0 else 1
  | None => 1
  end.
Proof.
  intros [_ Hwf]. pose proof (serve_logout s b q ck Hwf) as H.
  destruct (serve s _) as [s1 resp]. cbn [fst]. destruct H as (_ & _ & k' & _ & Hne & Hfr & ->).
  destruct ck as [k|]; [|rewrite map_size_insert_None by done; lia].
  rewrite map_size_insert_None by (rewrite lookup_delete_ne by congruence; done).
  destruct (store (sess s) !! k) as [v|] eqn:E.
  - rewrite bool_decide_eq_true_2 by eauto. rewrite <- (map_size_delete_lookup _ k v E). lia.
  - rewrite bool_decide_eq_false_2 by (intros [? ?]; congruence). rewrite delete_id by done. lia.
Qed.

(** C37. Requests while the collection is unreachable (spec 7):
    [mongoose.connect] failed, or the connection dropped, and every
    query and insert times out. [POST /register] is redirected back to
    /register and adds nothing; [POST /login] with a username and a
    password is redirected to /secrets (the verify function passes the
    error to passport, whose [next(err)] is the arrow of line 147,
    which ignores its argument); and a Google callback whose code is
    exchanged is answered with a 500 (Express's final handler) and
    changes no account. *)
Theorem store_unavailable_replies s b q ck code g u pw :
  connected (acc_db (accounts s)) = false ->
  (reply (snd (serve s (mkRequest POST "/register" b q ck))) = Redirect "/register" /\
   docs (acc_db (accounts (fst (serve s (mkRequest POST "/register" b q ck))))) = docs (acc_db (accounts s))) /\
  (credential (b_username b) (q_username q) = Some u -> credential (b_password b) (q_password q) = Some pw ->
   reply (snd (serve s (mkRequest POST "/login" b q ck))) = Redirect "/secrets") /\
  (code <> "" -> exchange code = Some g ->
   reply (snd (serve s (mkRequest GET "/auth/google/secrets" b (QCode code) ck))) = Status 500 /\
   accounts (fst (serve s (mkRequest GET "/auth/google/secrets" b (QCode code) ck))) = accounts s).
Proof.
  intros Hc. split; [|split].
  - destruct (serve_post_register s b q ck) as [-> ->].
    pose proof (register_down (b_username b) (b_password b) _ Hc) as Hd.
    rewrite register_docs. by destruct (fst (register _ _ _)).
  - intros Hu Hpw. by rewrite (serve_login_creds _ _ _ _ _ _ Hu Hpw), Hc.
  - intros Hcode Hex. destruct (serve_google_callback s b (QCode code) ck) as [-> ->].
    rewrite google_strategy_code, Hex, google_verify_eq, (findOrCreate_down _ _ Hc) by done.
    by destruct s as [[db r] ss].
Qed.

(** C40. The console receives a password exactly on a refused
    registration (app.js line 123): a request only appends lines to
    the console, and among them a logged value [v] exactly when it is
    a [POST /register] whose [User.register] fails (the username
    missing or taken, the password missing, an index refusing the
    document, or the collection unreachable), [v] being the submitted
    password, in clear. No other request writes a credential to the
    console. *)
Theorem console_password_exactly s rq :
  exists l, console (fst (serve s rq)) = console s ++ l /\
  forall v, LogValue v ∈ l <->
    method rq = POST /\ path rq = "/register" /\
    is_ok (fst (register (b_username (body rq)) (b_password (body rq)) (accounts s))) = false /\
    v = b_password (body rq).
Proof.
  destruct (decide (method rq = POST /\ path rq = "/register")) as [[Hm Hp]|Hn].
  - destruct rq as [m p b q ck]; cbn in Hm, Hp; subst m p; cbn [method path body].
    rewrite serve_console, route_post_register, post_register_eq. cbn [accounts console].
    destruct (register _ _ _) as [[d|e] a1]; cbn [is_ok fst snd console].
    + exists []. rewrite (authenticate_console _ _ _ _ _ (arrow_next_replies _)), app_nil_r. cbn [console].
      split; [done|].
      intros v. rewrite elem_of_nil. naive_solver.
    + exists [LogError e; LogValue (b_password b)]. split; [done|].
      intros v. rewrite !elem_of_cons, elem_of_nil. naive_solver.
  - rewrite serve_console.
    set (s1 := {| accounts := accounts s; sess := snd (begin_request (req_cookie rq) (sess s));
                  console := console s |}).
    destruct (route_clean (console s) rq Hn s1 (console_clean_same _ s1 eq_refl)) as (l & Hc & Hl).
    exists l. split; [exact Hc|]. intros v. split; [|naive_solver].
    intros Hin. rewrite Forall_forall in Hl. by destruct (Hl _ Hin v).
Qed.

(** C22. The process never exits in a reachable state: every document
    with a salt has a hash ([register] saves both, [findOrCreate]
    neither, and no request edits a saved document), so the password
    check of the local strategy never reaches [Buffer.from(undefined)],
    and every request, on every route, is answered. *)
Theorem reachable_never_crashes s rq :
  reachable s -> hashed (acc_db (accounts s)) /\ reply (snd (serve s rq)) <> Crashed.
Proof.
  intros H. split; [by apply reachable_hashed|]. pose proof (reachable_no_crash s rq H) as Hn.
  intros Hc. by rewrite Hc in Hn.
Qed.

(** C35. The only request that ends the process is a [POST /login]
    with a username and a password (each from the body, else the query
    string), the collection reachable, whose first document with that
    username has a salt and no hash: passport-local-mongoose reads the
    missing hash with [Buffer.from] in the callback of [pbkdf2], and
    the [TypeError] is uncaught. Such a request gets no response and
    no Set-Cookie. *)
Theorem serve_crash_iff s rq :
  (reply (snd (serve s rq)) = Crashed <->
   method rq = POST /\ path rq = "/login" /\ connected (acc_db (accounts s)) = true /\
   exists u pw e, credential (b_username (body rq)) (q_username (query rq)) = Some u /\
     credential (b_password (body rq)) (q_password (query rq)) = Some pw /\
     List.find (field_is username u) (docs (acc_db (accounts s))) = Some e /\
     is_Some (truthy_val (salt e)) /\ hash e = None) /\
  (reply (snd (serve s rq)) = Crashed -> set_cookie (snd (serve s rq)) = None).
Proof.
  split; [split|].
  - rewrite serve_reply. intros (Hm & Hp & Hl)%route_crashed. split_and!; [done|done|..];
      rewrite local_strategy_eq in Hl; cbn [accounts acc_db connected docs new_oid snd] in Hl;
      destruct (credential (b_username (body rq)) (q_username (query rq))) as [u|] eqn:Hu,
        (credential (b_password (body rq)) (q_password (query rq))) as [pw|] eqn:Hpw; try done;
      destruct (connected (acc_db (accounts s))) eqn:Hc; try done;
      destruct (List.find (field_is username u) (docs (acc_db (accounts s)))) as [e|] eqn:Hf; try done;
      destruct (Credential.authenticate e pw) eqn:Ha; try done.
    apply authenticate_throw in Ha as [Hs Hh]. by exists u, pw, e.
  - destruct rq as [m p b q ck]. cbn [method path body query]. intros (-> & -> & Hc & u & pw & e & Hu & Hpw & Hf & [sl Hs] & Hh).
    rewrite (serve_login_creds _ _ _ _ _ _ Hu Hpw), Hc, Hf. unfold Credential.authenticate. by rewrite Hs, Hh.
  - intros H. rewrite serve_reply in H. rewrite serve_eq. cbv zeta. by rewrite H.
Qed.

End Claims.

(** C29. The process serves requests exactly when the Google client
    id is a non-empty string, taken from the process environment or
    else from the [.env] file, and port 3000 is free; the server is
    then the start-up state after [mongoose.connect], whether the
    connection succeeded or not. The client secret, which spec 6 lists
    as required configuration, plays no part: the process starts
    without it. *)
Theorem startup_serves proc dotfile ok free :
  (forall s, startup proc dotfile ok free = Ok s <->
     s = boot ok /\ free = true /\
     exists id, id <> "" /\
       (proc !! "CLIENT_ID" = Some id \/ (proc !! "CLIENT_ID" = None /\ dotfile !! "CLIENT_ID" = Some id))) /\
  (forall v, startup (<["CLIENT_SECRET" := v]> proc) dotfile ok free = startup proc dotfile ok free).
Proof.
  unfold startup, dotenv_config. split.
  - intros s. rewrite lookup_union.
    destruct (proc !! "CLIENT_ID") as [id|] eqn:Ep; destruct (dotfile !! "CLIENT_ID") as [id'|] eqn:Ed; cbn;
      unfold truthy_val; repeat case_bool_decide; destruct free; split; intros Hs; try naive_solver.
  - intros v. by rewrite lookup_union, lookup_insert_ne, <- lookup_union.
Qed.

(** ** The claims at concrete states

    The states are reached from [server0] with the instances
    [demo_kdf] and [demo_provider]: after alice registers, and after
    a first Google login with the profile ["g-42"]. *)

Lemma reachable_unique_users_witness :
  let s := fst (@serve demo_kdf demo_provider server0
                  (mkRequest POST "/register" (mkBody (Some "alice") (Some "pw123") None) QNone None)) in
  @reachable demo_kdf demo_provider s /\ server_wf s.
Proof.
  intros s. assert (Hr : @reachable demo_kdf demo_provider s) by (apply reachable_serve, reach_init).
  split; [exact Hr | exact (proj1 (@reachable_unique_users demo_kdf demo_provider s Hr))].
Defined.

Lemma register_duplicate_username_witness :
  let s := fst (@serve demo_kdf demo_provider server0
                  (mkRequest POST "/register" (mkBody (Some "alice") (Some "pw123") None) QNone None)) in
  let e := mkDoc 0 (Some "alice") None None (Some "s") (Some "s:pw123") in
  e ∈ docs (acc_db (accounts s)) /\
  reply (snd (@serve demo_kdf demo_provider s
                (mkRequest POST "/register" (mkBody (Some "alice") (Some "other") None) QNone None))) =
  Redirect "/register".
Proof.
  intros s e.
  assert (Hin : e ∈ docs (acc_db (accounts s))) by (apply list_elem_of_In; vm_compute; auto).
  split; [exact Hin|].
  exact (proj1 (@register_duplicate_username demo_kdf demo_provider s (mkBody (Some "alice") (Some "other") None) QNone None "alice" e
                  eq_refl Hin eq_refl)).
Defined.

Lemma register_refused_after_local_user_witness :
  let s := fst (@serve demo_kdf demo_provider server0
                  (mkRequest POST "/register" (mkBody (Some "alice") (Some "pw123") None) QNone None)) in
  let e := mkDoc 0 (Some "alice") None None (Some "s") (Some "s:pw123") in
  server_wf s /\ e ∈ docs (acc_db (accounts s)) /\
  reply (snd (@serve demo_kdf demo_provider s
                (mkRequest POST "/register" (mkBody (Some "bob") (Some "hunter2") None) QNone None))) =
  Redirect "/register".
Proof.
  intros s e.
  assert (Hwf : server_wf s) by apply (@reachable_server_wf demo_kdf demo_provider), reachable_serve, reach_init.
  assert (Hin : e ∈ docs (acc_db (accounts s))) by (apply list_elem_of_In; vm_compute; auto).
  split_and!; [exact Hwf | exact Hin |].
  exact (proj1 (@register_refused_after_local_user demo_kdf demo_provider s (mkBody (Some "bob") (Some "hunter2") None) QNone None e Hwf Hin eq_refl)).
Defined.

Lemma second_google_user_error_witness :
  let s := fst (@serve demo_kdf demo_provider server0
                  (mkRequest GET "/auth/google/secrets" (mkBody None None None) (QCode "g-42") None)) in
  let e := mkDoc 0 None (Some "g-42") None None None in
  server_wf s /\ e ∈ docs (acc_db (accounts s)) /\
  List.find (field_is googleId "g-7") (docs (acc_db (accounts s))) = None /\
  reply (snd (@serve demo_kdf demo_provider s
                (mkRequest GET "/auth/google/secrets" (mkBody None None None) (QCode "g-7") None))) =
  Status 500.
Proof.
  intros s e.
  assert (Hwf : server_wf s) by apply (@reachable_server_wf demo_kdf demo_provider), reachable_serve, reach_init.
  assert (Hin : e ∈ docs (acc_db (accounts s))) by (apply list_elem_of_In; vm_compute; auto).
  assert (Hf : List.find (field_is googleId "g-7") (docs (acc_db (accounts s))) = None)
    by (vm_compute; reflexivity).
  split_and!; [exact Hwf | exact Hin | exact Hf |].
  exact (proj1 (@second_google_user_error demo_kdf demo_provider s (mkBody None None None) "g-7" None "g-7" e
                  Hwf ltac:(discriminate) eq_refl Hf Hin eq_refl)).
Defined.

Lemma google_callback_existing_user_witness :
  let s := fst (@serve demo_kdf demo_provider server0
                  (mkRequest GET "/auth/google/secrets" (mkBody None None None) (QCode "g-42") None)) in
  let d := mkDoc 0 None (Some "g-42") None None None in
  List.find (field_is googleId "g-42") (docs (acc_db (accounts s))) = Some d /\
  reply (snd (@serve demo_kdf demo_provider s
                (mkRequest GET "/auth/google/secrets" (mkBody None None None) (QCode "g-42") None))) =
  Redirect "/secrets".
Proof.
  intros s d.
  assert (Hf : List.find (field_is googleId "g-42") (docs (acc_db (accounts s))) = Some d)
    by (vm_compute; reflexivity).
  split; [exact Hf|].
  exact (proj1 (@google_callback_existing_user demo_kdf demo_provider s (mkBody None None None) "g-42" None "g-42" d
                  ltac:(discriminate) eq_refl ltac:(vm_compute; reflexivity) Hf)).
Defined.

Lemma logout_store_size_witness :
  server_wf server0 /\
  size (store (sess (fst (@serve demo_kdf demo_provider server0
                            (mkRequest GET "/logout" (mkBody None None None) QNone None))))) = 1.
Proof.
  split; [exact server0_wf|].
  exact (@logout_store_size demo_kdf demo_provider server0 (mkBody None None None) QNone None server0_wf).
Defined.

Lemma reachable_never_crashes_witness :
  let s := fst (@serve demo_kdf demo_provider server0
                  (mkRequest POST "/register" (mkBody (Some "alice") (Some "pw123") None) QNone None)) in
  @reachable demo_kdf demo_provider s /\ hashed (acc_db (accounts s)) /\
  reply (snd (@serve demo_kdf demo_provider s
                (mkRequest POST "/login" (mkBody (Some "alice") (Some "guess") None) QNone None))) <> Crashed.
Proof.
  intros s. assert (Hr : @reachable demo_kdf demo_provider s) by (apply reachable_serve, reach_init).
  split; [exact Hr | exact (@reachable_never_crashes demo_kdf demo_provider s _ Hr)].
Defined.

(** A collection edited outside the application, with a document that
    has a salt and no hash: logging in as that user ends the process. *)
Lemma login_crash_example :
  let s := mkServer (mkAccounts (mkDb [mkDoc 0 (Some "bob") None None (Some "s") None] 1 true) 0)
                    (sess server0) (console server0) in
  @serve demo_kdf demo_provider s (mkRequest POST "/login" (mkBody (Some "bob") (Some "pw") None) QNone None) =
  (fst (@serve demo_kdf demo_provider s (mkRequest POST "/login" (mkBody (Some "bob") (Some "pw") None) QNone None)),
   mkResponse Crashed None).
Proof. vm_compute. reflexivity. Qed.

(** The server started after a failed [mongoose.connect]: it is
    reachable, and answers as C37 says. *)
Lemma store_unavailable_replies_witness :
  @reachable demo_kdf demo_provider (boot false) /\
  connected (acc_db (accounts (boot false))) = false /\
  reply (snd (@serve demo_kdf demo_provider (boot false)
                (mkRequest POST "/login" (mkBody (Some "alice") (Some "pw123") None) QNone None))) = Redirect "/secrets".
Proof.
  split_and!; [apply reach_init | reflexivity |].
  exact (proj1 (proj2 (@store_unavailable_replies demo_kdf demo_provider (boot false)
                         (mkBody (Some "alice") (Some "pw123") None) QNone None "c" "g" "alice" "pw123" eq_refl))
           eq_refl eq_refl).
Defined.

(** A second registration of alice is refused, and the password it
    carried is written to the console. *)
Lemma register_failure_example :
  let s := fst (@serve demo_kdf demo_provider server0
                  (mkRequest POST "/register" (mkBody (Some "alice") (Some "pw123") None) QNone None)) in
  console (fst (@serve demo_kdf demo_provider s
                  (mkRequest POST "/register" (mkBody (Some "alice") (Some "hunter2") None) QNone None))) =
    console s ++ [LogError UserExistsError; LogValue (Some "hunter2")].
Proof. vm_compute. reflexivity. Qed.

End App.
