(* ===== verification/SessionRefinement.v ===== *)
(** * The session manager refines its contract (spec 4.3)

    The specification describes the Session Manager as a map from
    opaque tokens to identities: a successful authentication
    establishes a fresh token for the identity, the token the client
    presented being dropped; logout invalidates the presented token; a
    protected resource is granted when the presented token restores an
    identity. [AbsSess] with [abs_establish], [abs_invalidate] and
    [abs_restore] is that contract, and [abs_step] what one request may
    do to it, with the token sent back.

    [sess_view] abstracts the MemoryStore of express-session to the
    sessions that hold a user. The theorems show that every request of
    the server ([App.serve]) is one abstract step ([serve_sess_refines],
    on every collection whose salted documents have a hash, so that no
    request ends the process) and that the access gate is the abstract
    restore ([secrets_restore]). The proof follows a request's session from
    the state [begin_request] leaves: [since] holds from there through
    any number of [req.login]s, whatever the accounts do. *)

From S2P Require Import Prelude Store Credential Session Passport App.
Import Store Credential Session Passport App.

Module SessionRefinement.

(** ** The contract *)

Abbreviation AbsSess := (gmap nat Payload) (only parsing).

Definition abs_invalidate (ck : option nat) (A : AbsSess) : AbsSess :=
  match ck with Some c => delete c A | None => A end.

Definition abs_establish (ck : option nat) (k : nat) (p : Payload) (A : AbsSess) : AbsSess :=
  <[k := p]> (abs_invalidate ck A).

Definition abs_restore (ck : option nat) (A : AbsSess) : option Payload :=
  match ck with Some c => A !! c | None => None end.

(** One request, given the token it presents: nothing changes and no
    token is sent; or a fresh token is established for an identity; or
    the presented token is invalidated and a fresh token without
    identity is sent. *)
Inductive abs_step (ck : option nat) (A : AbsSess) : AbsSess -> option nat -> Prop :=
| abs_keep : abs_step ck A A None
| abs_login k p : A !! k = None -> ck <> Some k -> abs_step ck A (abs_establish ck k p A) (Some k)
| abs_logout k : A !! k = None -> ck <> Some k -> abs_step ck A (abs_invalidate ck A) (Some k).

(** ** The abstraction *)

(** The stored sessions that hold a user. *)
Definition sess_view (ss : Sess) : AbsSess := omap id (store ss).

(** [ss] is the session state [ss0] left by [begin_request], or one
    that [req.login] reached from it: a regenerated session with a
    user, under an id issued after [ss0], the presented session
    removed. *)
Definition since (ss0 ss : Sess) : Prop :=
  ss = ss0 \/
  exists p, data (ctx ss) = Some p /\ cookie (ctx ss) = cookie (ctx ss0) /\
    orig_id (ctx ss) = orig_id (ctx ss0) /\
    next_sid ss0 <= sid (ctx ss) /\ sid (ctx ss) < next_sid ss /\ cookie (ctx ss) <> Some (sid (ctx ss)) /\
    sess_view ss = <[sid (ctx ss) := p]> (delete (sid (ctx ss0)) (sess_view ss0)).

(** ** Lemmas *)

Lemma sess_view_fresh ss k : sess_wf ss -> next_sid ss <= k -> sess_view ss !! k = None.
Proof.
  intros Hwf Hk. unfold sess_view. rewrite lookup_omap.
  by rewrite (wf_fresh ss k Hwf Hk).
Qed.

Lemma sess_view_logIn u p ss :
  sess_view (snd (logIn u p ss)) =
  <[next_id (cookie (ctx ss)) (next_sid ss) := p]> (delete (sid (ctx ss)) (sess_view ss)).
Proof. rewrite logIn_eq. unfold sess_view. simpl. by rewrite (omap_insert_Some _ _ _ (Some p) p), omap_delete. Qed.

Lemma since_refl ss0 : since ss0 ss0.
Proof. by left. Qed.

Section Since.
Variable ss0 : Sess.
Hypothesis Hwf0 : sess_wf ss0.

(** [req.login] keeps [since]. *)
Lemma since_logIn u p ss : since ss0 ss -> since ss0 (snd (logIn u p ss)).
Proof.
  pose proof Hwf0 as (_ & _ & Ho0 & _). intros Hs.
  pose proof (next_id_ne (cookie (ctx ss)) (next_sid ss)) as Hne.
  pose proof (next_id_ge (cookie (ctx ss)) (next_sid ss)) as Hnge.
  right. exists p. rewrite sess_view_logIn, logIn_eq. cbn [snd ctx data cookie orig_id sid next_sid].
  destruct Hs as [->|(p1 & Hd & Hc & Ho & Hge & Hlt & Hcs & Hv)];
    (split_and!; [done | done | done | lia | lia | done |]); [done|].
  rewrite Hv, delete_insert_eq, (delete_id (delete _ _) (sid (ctx ss))); [done|].
  rewrite lookup_delete_None. right. apply sess_view_fresh; [done | lia].
Qed.

(** The end of the response after [since]: nothing, or the login of
    a fresh token. *)
Lemma since_end ss :
  ctx_untouched (ctx ss0) ->
  delete (sid (ctx ss0)) (sess_view ss0) = abs_invalidate (cookie (ctx ss0)) (sess_view ss0) ->
  since ss0 ss ->
  abs_step (cookie (ctx ss0)) (sess_view ss0) (sess_view (snd (end_request ss))) (fst (end_request ss)).
Proof.
  intros Hu Hdel [->|(p & Hd & Hc & Ho & Hge & Hlt & Hcs & Hv)].
  - rewrite end_request_untouched by done. apply abs_keep.
  - pose proof Hwf0 as (_ & _ & Ho0 & _).
    assert (Hr : ctx_regenerated (ctx ss)) by (split; [lia | done]).
    rewrite (end_request_regenerated _ Hr). cbn [fst snd].
    replace (sess_view (mkSess _ _ _)) with (abs_establish (cookie (ctx ss0)) (sid (ctx ss)) p (sess_view ss0)).
    + apply abs_login; [apply sess_view_fresh; [done | lia] | by rewrite <- Hc].
    + unfold abs_establish. rewrite <- Hdel, <- Hv. unfold sess_view at 2. simpl.
      rewrite Hd, (omap_insert_Some _ _ _ (Some p) p) by done. fold (sess_view ss).
      by rewrite Hv, insert_insert_eq.
Qed.

End Since.

(** The request's session after [begin_request] is the presented one,
    or one that is not stored. *)
Lemma sess_view_begin ck ss : sess_view (snd (begin_request ck ss)) = sess_view ss.
Proof. unfold sess_view. by rewrite begin_request_store. Qed.

Lemma begin_request_view ck ss :
  sess_wf ss ->
  delete (sid (ctx (snd (begin_request ck ss)))) (sess_view (snd (begin_request ck ss))) =
  abs_invalidate (cookie (ctx (snd (begin_request ck ss)))) (sess_view (snd (begin_request ck ss))).
Proof.
  intros Hwf. rewrite begin_request_cookie. unfold sess_view. rewrite begin_request_store, <- omap_delete, begin_request_delete by done.
  destruct ck; [by rewrite omap_delete | done].
Qed.

(** ** Every route but logout keeps [since] *)

Section Route.
Context {kdf : Kdf} {prov : Provider}.
Variable ss0 : Sess.
Hypothesis Hwf0 : sess_wf ss0.

Lemma acc_since {A} (m : St Accounts A) : preserves (fun s => since ss0 (sess s)) (zoom acc_lens m).
Proof. intros s Hs. by rewrite zoom_acc_sess. Qed.

Lemma logIn_since u p : preserves (fun s => since ss0 (sess s)) (zoom sess_lens (logIn u p)).
Proof. intros s Hs. rewrite zoom_sess_eq. by apply since_logIn. Qed.

Lemma isAuthenticated_since : preserves (fun s => since ss0 (sess s)) (zoom sess_lens isAuthenticated).
Proof. intros s Hs. by rewrite zoom_sess_eq. Qed.

Lemma google_strategy_since q sc : preserves (fun s => since ss0 (sess s)) (google_strategy q sc).
Proof. intros s Hs. by rewrite google_strategy_sess. Qed.

Lemma console_log_since l : preserves (fun s => since ss0 (sess s)) (console_log l).
Proof. by intros s. Qed.

#[local] Hint Resolve acc_since logIn_since isAuthenticated_since google_strategy_since console_log_since : app.

Lemma authenticate_since o f next :
  (forall e, preserves (fun s => since ss0 (sess s)) (next e)) ->
  preserves (fun s => since ss0 (sess s)) (authenticate o f next).
Proof. intros Hn. unfold authenticate. preserve. Qed.

#[local] Hint Resolve authenticate_since : app.

Lemma route_since rq :
  ~ (method rq = GET /\ path rq = "/logout") -> preserves (fun s => since ss0 (sess s)) (route rq).
Proof.
  intros Hn. unfold route. destruct (method rq) eqn:Em.
  - rewrite (bool_decide_eq_false_2 (path rq = "/logout")) by naive_solver.
    unfold get_root, get_auth_google, get_auth_google_secrets, get_login, get_register,
      get_secrets, get_submit. preserve.
  - unfold post_register, post_login, post_submit. preserve.
Qed.

End Route.

(** ** The refinement *)

Section Claims.
Context {kdf : Kdf} {prov : Provider}.

(** C34. The session manager refines its contract (spec 4.3): on a
    well-formed state, every request is one step of the abstract
    session map. It changes nothing and sends no token; or it
    establishes a fresh token for one identity and drops the presented
    token (a login, by any route); or it drops the presented token and
    sends a fresh one without identity (a logout). The collection is
    hashed, as in every reachable state ([reachable_hashed]): otherwise
    a login can end the process midway. *)
Theorem serve_sess_refines s rq :
  server_wf s -> hashed (acc_db (accounts s)) ->
  let '(s', resp) := serve s rq in
  abs_step (req_cookie rq) (sess_view (sess s)) (sess_view (sess s')) (set_cookie resp).
Proof.
  intros [_ Hwf] Hh. destruct (decide (method rq = GET /\ path rq = "/logout")) as [[Hm Hp]|Hn].
  - destruct rq as [m p b q ck]; cbn in Hm, Hp |- *; subst m p.
    pose proof (serve_logout s b q ck Hwf) as H. destruct (serve s _) as [s' resp].
    destruct H as (_ & _ & k' & Hk & Hne & Hfr & Hst). rewrite Hk.
    replace (sess_view (sess s')) with (abs_invalidate ck (sess_view (sess s))).
    + apply abs_logout; [unfold sess_view; by rewrite lookup_omap, Hfr | done].
    + unfold sess_view. rewrite Hst, (omap_insert_None _ _ _ None) by done. rewrite delete_id.
      * destruct ck; [by rewrite omap_delete | done].
      * rewrite lookup_omap. destruct ck; [rewrite lookup_delete_ne by congruence|]; by rewrite Hfr.
  - pose proof (proj2 (serve_hashed s rq Hh)) as Hnc. rewrite serve_reply in Hnc.
    rewrite serve_eq. cbv zeta. rewrite Hnc. cbn [fst snd sess set_cookie].
    pose proof (begin_request_wf (req_cookie rq) _ Hwf) as Hwf0.
    pose proof (route_since _ Hwf0 rq Hn (mkServer (accounts s) (snd (begin_request (req_cookie rq) (sess s))) (console s))
                  (since_refl _)) as Hs.
    pose proof (since_end _ Hwf0 _ (begin_request_untouched _ _) (begin_request_view _ _ Hwf) Hs) as H.
    by rewrite begin_request_cookie, sess_view_begin in H.
Qed.

(** The access gate is the abstract restore: [GET /secrets]
    renders the protected page exactly when the presented token
    restores an identity from the abstract session map, and redirects
    to /login otherwise. *)
Lemma secrets_restore s ck b q :
  reply (snd (serve s (mkRequest GET "/secrets" b q ck))) =
  match abs_restore ck (sess_view (sess s)) with
  | Some _ => Render "secrets.ejs"
  | None => Redirect "/login"
  end.
Proof.
  rewrite get_secrets_serve. cbn [reply snd]. unfold abs_restore, sess_view.
  destruct ck as [k|]; [|done]. rewrite lookup_omap. by destruct (store (sess s) !! k) as [[p|]|].
Qed.

End Claims.

Lemma serve_sess_refines_witness :
  let rq := mkRequest POST "/login" (mkBody (Some "mallory") (Some "x") None) QNone None in
  server_wf server0 /\ hashed (acc_db (accounts server0)) /\
  let '(s', resp) := @serve demo_kdf demo_provider server0 rq in
  abs_step (req_cookie rq) (sess_view (sess server0)) (sess_view (sess s')) (set_cookie resp).
Proof.
  intros rq. split_and!; [exact server0_wf | exact (List.Forall_nil _) |].
  exact (@serve_sess_refines demo_kdf demo_provider server0 rq server0_wf (List.Forall_nil _)).
Defined.

End SessionRefinement.
