(* ===== verification/Identity.v ===== *)
(** * Session identities against the collection

    The session store (Module [Session]) and the [User] collection
    (Module [Store]) meet in [serializeUser] (app.js lines 53-61): what
    a session holds as [req.session.passport.user] is a projection of a
    [User] document, and [deserializeUser] (lines 63-67) trusts it
    without reading the collection again. This file states how the
    identities held in sessions relate to the documents, and proves
    it of every reachable state.

    A payload is well-typed ([payload_ok]) when its id is an ObjectId
    the collection has issued, and it is either the projection of a
    document of the collection or names no document at all. The second
    case is real: [POST /login] (lines 134-152) gives [req.login] a
    document that is never saved (C1). The collection only grows, and
    each document it gains takes an id issued after every id a session
    holds ([db_ext]), so neither case is ever undone: a session never
    comes to name a document it is not the projection of. *)

From S2P Require Import Prelude Store Credential Session Passport App.
Import Store Credential Session Passport App.

Module Identity.

(** ** The relations *)

(** [db] extends [db0]: the counter did not go back, and the documents
    of [db0] are still there, followed by documents whose ids were
    issued after [db0]. *)
Definition db_ext (db0 db : Db) : Prop :=
  next_oid db0 <= next_oid db /\
  exists l, docs db = docs db0 ++ l /\ Forall (fun d => next_oid db0 <= _id d) l.

(** A payload held by a session, against the collection. *)
Definition payload_ok (db : Db) (p : Payload) : Prop :=
  p_id p < next_oid db /\
  ((exists d, d ∈ docs db /\ serializeUser d = p) \/ Forall (fun d => _id d <> p_id p) (docs db)).

(** Every payload of the session store and of the request's session
    satisfies [P]. *)
Definition payloads_ok (P : Payload -> Prop) (ss : Sess) : Prop :=
  map_Forall (fun _ v => from_option P True v) (store ss) /\ from_option P True (data (ctx ss)).

Definition ids_ok (s : Server) : Prop := payloads_ok (payload_ok (acc_db (accounts s))) (sess s).

(** The invariant of this file: that of the server, and well-typed
    session identities. *)
Definition id_inv (s : Server) : Prop := server_wf s /\ ids_ok s.

(** ** The collection only grows *)

Lemma db_ext_refl db : db_ext db db.
Proof. split; [lia|]. exists []. by rewrite app_nil_r. Qed.

Lemma db_ext_snoc db d n b :
  next_oid db <= _id d -> next_oid db <= n -> db_ext db (mkDb (docs db ++ [d]) n b).
Proof. intros Hd Hn. split; [done|]. exists [d]. split; [done|]. by constructor. Qed.

Lemma db_ext_counter db n b : next_oid db <= n -> db_ext db (mkDb (docs db) n b).
Proof. intros Hn. split; [done|]. exists []. by rewrite app_nil_r. Qed.

#[local] Hint Resolve db_ext_refl db_ext_snoc db_ext_counter : core.

Lemma register_ext {kdf : Kdf} u pw a : db_ext (acc_db a) (acc_db (snd (register u pw a))).
Proof. rewrite register_eq. cbv zeta. repeat case_match; simpl; auto with lia. Qed.

Lemma findOrCreate_ext g db : db_ext db (snd (findOrCreate g db)).
Proof.
  destruct (findOrCreate_cases g db) as [(_ & ->)|[(d & _ & _ & ->)|(_ & _ & ->)]]; [done..|].
  destruct (save_cases (mkDoc (next_oid db) None (Some g) None None None) (mkDb (docs db) (S (next_oid db)) (connected db)))
    as [[e ->] | (_ & _ & ->)]; simpl; auto with lia.
Qed.

Lemma local_strategy_ext {kdf : Kdf} b q a : db_ext (acc_db a) (acc_db (snd (local_strategy b q a))).
Proof. rewrite local_strategy_eq. by repeat case_match. Qed.

Lemma google_strategy_ext {kdf : Kdf} {prov : Provider} q sc s :
  db_ext (acc_db (accounts s)) (acc_db (accounts (snd (google_strategy q sc s)))).
Proof. rewrite google_strategy_accounts. repeat case_match; try done. apply findOrCreate_ext. Qed.

(** A payload stays well-typed as the collection grows. *)
Lemma payload_ok_ext db0 db p : db_ext db0 db -> payload_ok db0 p -> payload_ok db p.
Proof.
  intros [Hn (l & Hd & Hl)] [Hp Hc]. split; [lia|]. rewrite Hd.
  destruct Hc as [(d & Hin & Hs)|Hf].
  - left. exists d. split; [apply elem_of_app; by left | done].
  - right. apply Forall_app. split; [done|]. eapply Forall_impl; [exact Hl|]. simpl. lia.
Qed.

(** ** The session operations keep the payloads *)

Section Payloads.
Variable P : Payload -> Prop.

Lemma payloads_ok_mono (Q : Payload -> Prop) ss :
  (forall p, P p -> Q p) -> payloads_ok P ss -> payloads_ok Q ss.
Proof.
  intros HPQ [Hs Hd]. split.
  - eapply map_Forall_impl; [exact Hs|]. intros _ [p|]; simpl; auto.
  - destruct (data (ctx ss)); simpl in *; auto.
Qed.

Lemma begin_request_payloads ck ss : payloads_ok P ss -> payloads_ok P (snd (begin_request ck ss)).
Proof.
  intros [Hs Hd]. rewrite begin_request_eq.
  destruct ck as [k|]; [destruct (store ss !! k) eqn:E|]; split; simpl; try done.
  exact (Hs _ _ E).
Qed.

Lemma logIn_payloads u p ss : P p -> payloads_ok P ss -> payloads_ok P (snd (logIn u p ss)).
Proof.
  intros Hp [Hs Hd]. rewrite logIn_eq. split; simpl; [|done].
  apply map_Forall_insert_2; [done|]. by apply map_Forall_delete.
Qed.

Lemma logOut_payloads ss : payloads_ok P ss -> payloads_ok P (snd (logOut ss)).
Proof.
  intros [Hs Hd]. rewrite logOut_eq. split; simpl; [|done].
  apply map_Forall_delete, map_Forall_insert_2; [done | exact Hs].
Qed.

Lemma end_request_payloads ss : payloads_ok P ss -> payloads_ok P (snd (end_request ss)).
Proof.
  destruct ss as [st n c]. intros [Hs Hd]. unfold end_request, get_ctx, store_set. st_unfold. simpl.
  destruct (should_save c); split; simpl; try done. by apply map_Forall_insert_2.
Qed.

Lemma isAuthenticated_payloads ss : payloads_ok P ss -> payloads_ok P (snd (isAuthenticated ss)).
Proof. done. Qed.

End Payloads.

(** ** Every request keeps the invariant *)

Lemma authenticate_VOk {kdf : Kdf} e pw d : Credential.authenticate e pw = VOk d -> d = e.
Proof. unfold Credential.authenticate. repeat case_match; congruence. Qed.

(** A document a strategy succeeds with is in the collection. *)
Lemma local_strategy_success {kdf : Kdf} b q a d :
  fst (local_strategy b q a) = Success d -> d ∈ docs (acc_db (snd (local_strategy b q a))).
Proof.
  rewrite local_strategy_eq. repeat case_match; simpl; intros; simplify_eq.
  match goal with H : Credential.authenticate _ _ = VOk _ |- _ => apply authenticate_VOk in H as -> end.
  apply list_elem_of_In. eapply List.find_some. eassumption.
Qed.

Lemma google_strategy_success {kdf : Kdf} {prov : Provider} q sc s d :
  fst (google_strategy q sc s) = Success d -> d ∈ docs (acc_db (accounts (snd (google_strategy q sc s)))).
Proof.
  rewrite google_strategy_fst, google_strategy_accounts.
  destruct (truthy_val (q_error q)); [by case_bool_decide|].
  destruct (truthy_val (q_code q)) as [code|]; [|done].
  destruct (exchange code) as [g|]; [|done]. cbn [acc_db].
  destruct (findOrCreate g (acc_db (accounts s))) as [[d'|e] db] eqn:E; [|done]. intros [= <-].
  apply (findOrCreate_ok _ _ _ _ E).
Qed.

Lemma id_inv_wf_doc s d : id_inv s -> d ∈ docs (acc_db (accounts s)) -> _id d < next_oid (acc_db (accounts s)).
Proof. intros [[(_ & _ & _ & Hlt) _] _] Hd. rewrite Forall_forall in Hlt. by apply Hlt. Qed.

Section Requests.
Context {kdf : Kdf} {prov : Provider}.

(** An operation on the accounts that keeps their invariant and only
    grows the collection keeps [id_inv]. *)
Lemma acc_step_inv {A} (m : St Accounts A) :
  preserves acc_wf m -> (forall a, db_ext (acc_db a) (acc_db (snd (m a)))) ->
  preserves id_inv (zoom acc_lens m).
Proof.
  intros Hwf Hext s [Hs Hi]. split; [by apply (preserves_zoom_acc m Hwf)|].
  unfold ids_ok. rewrite zoom_acc_accounts. cbn [snd accounts sess].
  eapply payloads_ok_mono; [|exact Hi]. intros p. by apply payload_ok_ext.
Qed.

(** So does an operation on the sessions that keeps theirs and every
    property of all payloads. *)
Lemma sess_step_inv {A} (m : St Sess A) :
  preserves sess_wf m -> (forall P ss, payloads_ok P ss -> payloads_ok P (snd (m ss))) ->
  preserves id_inv (zoom sess_lens m).
Proof.
  intros Hwf Hm s [Hs Hi]. split; [by apply (preserves_zoom_sess m Hwf)|].
  unfold ids_ok. rewrite zoom_sess_eq. by apply Hm.
Qed.

(** A strategy that only grows the collection and keeps the
    sessions, then [passport.authenticate] with a replying [next]: a
    success logs in a document of the collection. *)
Lemma strategy_auth_inv (m : St Server Outcome) f next k s :
  replies_with next k ->
  preserves server_wf m -> (forall s, db_ext (acc_db (accounts s)) (acc_db (accounts (snd (m s))))) ->
  (forall s, sess (snd (m s)) = sess s) ->
  (forall s d, fst (m s) = Success d -> d ∈ docs (acc_db (accounts (snd (m s))))) ->
  id_inv s -> id_inv (snd (authenticate (fst (m s)) f next (snd (m s)))).
Proof.
  intros Hn Hwf Hext Hsess Hsucc Hs.
  assert (Hs1 : id_inv (snd (m s))).
  { destruct Hs as [Hw Hi]. split; [by apply Hwf|]. unfold ids_ok. rewrite Hsess.
    eapply payloads_ok_mono; [|exact Hi]. intros p. by apply payload_ok_ext. }
  pose proof (Hsucc s) as Hd. destruct (m s) as [o s1]. cbn [fst snd] in *.
  split; [apply (authenticate_pres o f next); [intros e s'; rewrite Hn; done | apply Hs1]|].
  unfold ids_ok. destruct (authenticate_ret o f next k s1 Hn) as [-> ->].
  destruct o as [d| | | |]; try apply Hs1.
  apply logIn_payloads; [|apply Hs1]. specialize (Hd d eq_refl).
  split; [apply (id_inv_wf_doc s1); [exact Hs1 | exact Hd]|]. left. by exists d.
Qed.

(** The same for a strategy on the accounts alone. *)
Lemma strategy_auth_inv_acc (m : St Accounts Outcome) f next k s :
  replies_with next k ->
  preserves acc_wf m -> (forall a, db_ext (acc_db a) (acc_db (snd (m a)))) ->
  (forall a d, fst (m a) = Success d -> d ∈ docs (acc_db (snd (m a)))) ->
  id_inv s ->
  id_inv (snd (authenticate (fst (m (accounts s))) f next
                            (mkServer (snd (m (accounts s))) (sess s) (console s)))).
Proof.
  intros Hn Hwf Hext Hsucc Hs.
  pose proof (strategy_auth_inv (zoom acc_lens m) f next k s Hn) as H. rewrite zoom_acc_accounts in H.
  apply H; [by apply preserves_zoom_acc | | | | exact Hs]; intros s'; rewrite zoom_acc_accounts; [apply Hext | done |].
  apply Hsucc.
Qed.

(** [console.log] changes no state the invariant reads. *)
Lemma console_log_inv l : preserves id_inv (console_log l).
Proof. by intros s. Qed.

(** The session operations of a request. *)
Lemma begin_request_inv ck : preserves id_inv (zoom sess_lens (begin_request ck)).
Proof. apply sess_step_inv; [apply begin_request_pres | intros P; apply begin_request_payloads]. Qed.

Lemma end_request_inv : preserves id_inv (zoom sess_lens end_request).
Proof. apply sess_step_inv; [apply end_request_pres | apply end_request_payloads]. Qed.

Lemma isAuthenticated_inv : preserves id_inv (zoom sess_lens isAuthenticated).
Proof. apply sess_step_inv; [apply isAuthenticated_pres | apply isAuthenticated_payloads]. Qed.

Lemma logOut_inv : preserves id_inv (zoom sess_lens logOut).
Proof. apply sess_step_inv; [apply logOut_pres | apply logOut_payloads]. Qed.

(** ** The handlers *)

Lemma get_auth_google_inv q : preserves id_inv (get_auth_google q).
Proof.
  intros s Hs. rewrite get_auth_google_eq.
  apply (strategy_auth_inv _ _ _ _ _ (express_next_replies _)); auto using google_strategy_pres, google_strategy_ext, google_strategy_sess,
    google_strategy_success.
Qed.

Lemma get_auth_google_secrets_inv q : preserves id_inv (get_auth_google_secrets q).
Proof.
  intros s Hs. rewrite get_auth_google_secrets_eq.
  apply (strategy_auth_inv _ _ _ _ _ (express_next_replies _)); auto using google_strategy_pres, google_strategy_ext, google_strategy_sess,
    google_strategy_success.
Qed.

Lemma post_register_inv b q : preserves id_inv (post_register b q).
Proof.
  unfold post_register. apply preserves_bind; [apply acc_step_inv; [apply register_pres | apply register_ext]|].
  intros [d|e]; [|repeat (apply preserves_bind; [apply console_log_inv | intros _]); apply preserves_ret].
  intros s Hs. unfold st_bind. rewrite zoom_acc_accounts. cbv beta iota.
  apply (strategy_auth_inv_acc _ _ _ _ _ (arrow_next_replies _)); auto using local_strategy_pres, local_strategy_ext, local_strategy_success.
Qed.

(** [POST /login] logs in the unsaved document it builds: its id is
    the ObjectId just issued, which no document of the collection
    has. *)
Lemma post_login_inv b q : preserves id_inv (post_login b q).
Proof.
  intros s Hs. rewrite post_login_eq. cbv zeta.
  apply (strategy_auth_inv_acc (local_strategy b q) _ _ _ (mkServer _ _ _) (arrow_next_replies _));
    auto using local_strategy_pres, local_strategy_ext, local_strategy_success.
  destruct Hs as [[Hacc Hss] Hi]. split; [split; [exact (new_oid_wf _ Hacc) | by apply logIn_wf]|].
  unfold ids_ok. cbn [accounts sess acc_db]. apply logIn_payloads.
  - split; [simpl; lia|]. right. destruct Hacc as (_ & _ & _ & Hlt). simpl.
    eapply Forall_impl; [exact Hlt|]. simpl. lia.
  - eapply payloads_ok_mono; [|exact Hi]. intros p. apply payload_ok_ext, db_ext_counter. simpl. lia.
Qed.

Lemma get_secrets_inv : preserves id_inv get_secrets.
Proof. unfold get_secrets. apply preserves_bind; [apply isAuthenticated_inv|]. intros []; apply preserves_ret. Qed.

Lemma get_logout_inv : preserves id_inv get_logout.
Proof. unfold get_logout. apply preserves_bind; [apply logOut_inv | intros; apply preserves_ret]. Qed.

Lemma route_inv rq : preserves id_inv (route rq).
Proof.
  unfold route, get_root, get_login, get_register, get_submit, post_submit.
  destruct (method rq); repeat case_bool_decide;
    first [ apply preserves_ret | apply get_auth_google_inv | apply get_auth_google_secrets_inv
          | apply get_secrets_inv | apply get_logout_inv | apply post_register_inv | apply post_login_inv ].
Qed.

Lemma serve_inv s rq : id_inv s -> id_inv (fst (serve s rq)).
Proof.
  intros Hs. unfold serve.
  assert (H : preserves id_inv (handle rq)).
  { unfold handle. rewrite static_miss. apply preserves_bind; [apply begin_request_inv|]. intros _.
    apply preserves_bind; [apply route_inv|]. intros r. destruct (is_crashed r); [apply preserves_ret|].
    apply preserves_bind; [apply end_request_inv | intros; apply preserves_ret]. }
  specialize (H s Hs). destruct (handle rq s) as [r s']. exact H.
Qed.

Lemma reachable_inv s : reachable s -> id_inv s.
Proof.
  induction 1 as [b|s rq _ IH|s b _ [Hw Hi]]; [|by apply serve_inv|].
  - split; [apply boot_wf | split; [apply map_Forall_empty | done]].
  - split; [by apply set_connected_wf | exact Hi].
Qed.

End Requests.

(** ** The property *)

Section Claims.
Context {kdf : Kdf} {prov : Provider}.

(** C27. Session identities are well-typed in every reachable state:
    the payload a stored session holds as its user carries an ObjectId
    the collection has issued, and it is either the projection
    ([serializeUser]) of a document of the collection, or names no
    document at all (the unsaved document of [POST /login]). A session
    never names a document with other data than its own. *)
Theorem reachable_session_identity s k p :
  reachable s -> store (sess s) !! k = Some (Some p) -> payload_ok (acc_db (accounts s)) p.
Proof. intros Hr Hk. destruct (reachable_inv s Hr) as [_ [Hs _]]. exact (Hs k (Some p) Hk). Qed.

End Claims.

(** A ghost session: after [POST /login] for a user that does not
    exist, the session store holds an identity that names no
    document. *)
Lemma reachable_session_identity_witness :
  let s := fst (@serve demo_kdf demo_provider server0
                  (mkRequest POST "/login" (mkBody (Some "mallory") (Some "x") None) QNone None)) in
  @reachable demo_kdf demo_provider s /\ store (sess s) !! 2 = Some (Some (mkPayload 0 (Some "mallory") None)) /\
  docs (acc_db (accounts s)) = [] /\
  payload_ok (acc_db (accounts s)) (mkPayload 0 (Some "mallory") None).
Proof.
  intros s. assert (Hr : @reachable demo_kdf demo_provider s) by apply reachable_serve, reach_init.
  assert (Hk : store (sess s) !! 2 = Some (Some (mkPayload 0 (Some "mallory") None))) by (vm_compute; reflexivity).
  split_and!; [exact Hr | exact Hk | vm_compute; reflexivity | exact (@reachable_session_identity demo_kdf demo_provider s 2 _ Hr Hk)].
Defined.

End Identity.
