(* ===== verification/Concurrency.v ===== *)
(** * Interleaving of concurrent requests at the collection

    Node runs the handlers of concurrent requests on one thread, but
    each handler waits for MongoDB, for [randomBytes] and for [pbkdf2],
    and other requests run meanwhile. The shared state they meet is the
    collection (and the salt source). Two library calls of app.js touch
    it across such waits:
    - [User.findOrCreate({ googleId })] of the Google verify callback
      (app.js lines 75-80, mongoose-findorcreate): a [findOne], then,
      in its callback, [new User(conditions)] and [save];
    - [User.register] of [POST /register] (lines 117-132,
      passport-local-mongoose): [new User] when called, then
      [findByUsername], [setPassword] (which draws a salt), and [save].

    A call is a thread ([FocThread], [RegThread]); [foc_step] and
    [reg_step] run its next atomic step, the code between two waits,
    with the operations of [Store] and [Credential]. [cstep] is the
    interleaving: a request starts a thread, or any unfinished thread
    takes its next step. The connection of the collection is fixed
    during an interleaving; with it down, each call ends at its first
    query with the timeout error.

    Theorems: a thread run alone is the sequential definition
    ([register_threads_alone], [findOrCreate_threads_alone]); every
    interleaving keeps the unique indexes, and every finished call's
    document is in the collection (C30); two concurrent
    [findOrCreate]s for a new profile can both miss in [findOne], and
    the second [save] then fails with E11000 ([race_steps]; the whole
    requests are in [Interleaving], C31); without new requests, every
    interleaving ends (C32). *)

From S2P Require Import Prelude Store Credential.
Import Store Credential.

Module Concurrency.

(** ** Threads *)

(** A call of [findOrCreate]: before its [findOne], before its [save],
    or finished. *)
Inductive FocThread :=
| FocFind (g : string)
| FocSave (d : Doc)
| FocDone (r : result MongoError Doc).

(** A call of [User.register]: before [findByUsername], before
    [setPassword], before [save], or finished. *)
Inductive RegThread :=
| RegFind (d : Doc) (name : string) (password : option string)
| RegSet (d : Doc) (password : option string)
| RegSave (d : Doc)
| RegDone (r : result PlmError Doc).

Inductive Thread :=
| TReg (t : RegThread)
| TFoc (t : FocThread).

Section Steps.
Context {kdf : Kdf}.

Local Open Scope st_scope.

(** The step of [findOrCreate] after a wait: the [findOne] callback
    (which builds the document, issuing its ObjectId), or the [save]
    callback. *)
Definition foc_step (t : FocThread) : St Db FocThread :=
  match t with
  | FocFind g =>
      (found <- findOne (field_is googleId g) ;;
       match found with
       | Err e => ret (FocDone (Err e))
       | Ok (Some d) => ret (FocDone (Ok d))
       | Ok None => oid <- new_oid ;; ret (FocSave (mkDoc oid None (Some g) None None None))
       end)%st
  | FocSave d => (r <- save d ;; ret (FocDone r))%st
  | FocDone r => ret (FocDone r)
  end.

(** The synchronous start of [User.register]: [new this(user)] issues
    the ObjectId; a falsy username is refused before any wait. *)
Definition reg_start (u password : option string) : St Accounts RegThread :=
  (oid <- zoom db_lens new_oid ;;
   let d := mkDoc oid u None None None None in
   match truthy_val u with
   | None => ret (RegDone (Err MissingUsernameError))
   | Some name => ret (RegFind d name password)
   end)%st.

Definition reg_step (t : RegThread) : St Accounts RegThread :=
  match t with
  | RegFind d name password =>
      (existing <- zoom db_lens (findByUsername name) ;;
       match existing with
       | Err e => ret (RegDone (Err (DbError e)))
       | Ok (Some _) => ret (RegDone (Err UserExistsError))
       | Ok None => ret (RegSet d password)
       end)%st
  | RegSet d password =>
      (r <- setPassword d password ;;
       match r with
       | Err e => ret (RegDone (Err e))
       | Ok d' => ret (RegSave d')
       end)%st
  | RegSave d =>
      (saved <- zoom db_lens (save d) ;;
       ret (RegDone (match saved with Ok d' => Ok d' | Err e => Err (DbError e) end)))%st
  | RegDone r => ret (RegDone r)
  end.

Definition thread_step (t : Thread) : St Accounts Thread :=
  match t with
  | TReg r => (r' <- reg_step r ;; ret (TReg r'))%st
  | TFoc f => (f' <- zoom db_lens (foc_step f) ;; ret (TFoc f'))%st
  end.

Definition thread_done (t : Thread) : bool :=
  match t with
  | TReg (RegDone _) | TFoc (FocDone _) => true
  | _ => false
  end.

(** A thread run alone for [fuel] steps. *)
Fixpoint reg_run (fuel : nat) (t : RegThread) : St Accounts RegThread :=
  match fuel with
  | 0 => ret t
  | S n => (t' <- reg_step t ;; reg_run n t')%st
  end.

Fixpoint foc_run (fuel : nat) (t : FocThread) : St Db FocThread :=
  match fuel with
  | 0 => ret t
  | S n => (t' <- foc_step t ;; foc_run n t')%st
  end.

(** The collection with the threads in flight. *)
Record World := mkWorld {
  w_acc : Accounts;
  w_threads : list Thread
}.

(** One step of the interleaving: a [POST /register] or a Google
    callback starts its call, or an unfinished call takes its next
    step. *)
Inductive cstep : World -> World -> Prop :=
| cs_register w u pw :
    cstep w (mkWorld (snd (reg_start u pw (w_acc w))) (w_threads w ++ [TReg (fst (reg_start u pw (w_acc w)))]))
| cs_google w g :
    cstep w (mkWorld (w_acc w) (w_threads w ++ [TFoc (FocFind g)]))
| cs_run w i t :
    w_threads w !! i = Some t -> thread_done t = false ->
    cstep w (mkWorld (snd (thread_step t (w_acc w))) (<[i := fst (thread_step t (w_acc w))]> (w_threads w))).

End Steps.

(** ** The invariant *)

(** A document a call holds was issued; the document of a finished
    call is in the collection. *)
Definition thread_wf (db : Db) (t : Thread) : Prop :=
  match t with
  | TReg (RegFind d _ _) | TReg (RegSet d _) | TReg (RegSave d) | TFoc (FocSave d) => _id d < next_oid db
  | TReg (RegDone (Ok d)) | TFoc (FocDone (Ok d)) => d ∈ docs db
  | _ => True
  end.

Definition world_wf (w : World) : Prop :=
  db_wf (acc_db (w_acc w)) /\ Forall (thread_wf (acc_db (w_acc w))) (w_threads w).

(** The empty collection, with no call in flight. *)
Definition world0 : World := mkWorld (mkAccounts (mkDb [] 0 true) 0) [].

(** The waits a call has left, and those of all the calls in flight. *)
Definition waits (t : Thread) : nat :=
  match t with
  | TReg (RegFind _ _ _) => 3
  | TReg (RegSet _ _) | TFoc (FocFind _) => 2
  | TReg (RegSave _) | TFoc (FocSave _) => 1
  | TReg (RegDone _) | TFoc (FocDone _) => 0
  end.

Definition world_waits (w : World) : nat := sum_list_with waits (w_threads w).

(** The collection grows: documents are only appended, and the
    ObjectId counter does not go back. *)
Definition db_grows (db0 db : Db) : Prop :=
  next_oid db0 <= next_oid db /\ exists l, docs db = docs db0 ++ l.

(** ** Lemmas *)

Lemma db_grows_same db n b : next_oid db <= n -> db_grows db (mkDb (docs db) n b).
Proof. intros Hn. split; [done|]. exists []. by rewrite app_nil_r. Qed.

Lemma db_grows_snoc db d b : db_grows db (mkDb (docs db ++ [d]) (next_oid db) b).
Proof. split; [done|]. by exists [d]. Qed.

Lemma db_grows_refl db : db_grows db db.
Proof. split; [done|]. exists []. by rewrite app_nil_r. Qed.

#[local] Hint Resolve db_grows_refl db_grows_same db_grows_snoc : core.

Lemma thread_wf_grows db0 db t : db_grows db0 db -> thread_wf db0 t -> thread_wf db t.
Proof.
  intros [Hn [l Hl]]. destruct t as [[]|[]]; simpl; try lia; try done;
    destruct r; try done; rewrite Hl; intros; apply elem_of_app; by left.
Qed.

(** What a step of each kind of call does to the collection. *)
Lemma foc_step_wf t db :
  db_wf db -> thread_wf db (TFoc t) ->
  db_wf (snd (foc_step t db)) /\ thread_wf (snd (foc_step t db)) (TFoc (fst (foc_step t db))) /\
  db_grows db (snd (foc_step t db)).
Proof.
  intros Hwf Ht. destruct t as [g|d|r]; simpl in *.
  - unfold findOne, new_oid; st_unfold. simpl. destruct (connected db); simpl; [|split_and!; auto].
    destruct (List.find _ _) as [d|] eqn:E; simpl.
    + split_and!; auto. by apply (find_some_in _ _ _ E).
    + split_and!; [apply (new_oid_wf _ Hwf) | simpl; lia | simpl; auto].
  - st_unfold. pose proof (save_wf d db Hwf Ht) as Hs.
    destruct (save_cases d db) as [[e E] | (_ & _ & E)]; rewrite E in *; simpl in *; split_and!; auto.
    apply elem_of_app. right. by left.
  - st_unfold. simpl. split_and!; auto.
Qed.

Lemma reg_step_wf {kdf : Kdf} t a :
  db_wf (acc_db a) -> thread_wf (acc_db a) (TReg t) ->
  db_wf (acc_db (snd (reg_step t a))) /\
  thread_wf (acc_db (snd (reg_step t a))) (TReg (fst (reg_step t a))) /\
  db_grows (acc_db a) (acc_db (snd (reg_step t a))).
Proof.
  intros Hwf Ht. destruct a as [db r0]. destruct t as [d name pw|d pw|d|r]; simpl in *; st_unfold; simpl.
  - unfold findByUsername, findOne. destruct (connected db); simpl; [|split_and!; auto].
    destruct (List.find _ _); simpl; split_and!; auto.
  - unfold setPassword. destruct (truthy_val pw); simpl; split_and!; auto.
  - pose proof (save_wf d db Hwf Ht) as Hs.
    destruct (save_cases d db) as [[e E] | (_ & _ & E)]; rewrite E in *; simpl in *; split_and!; auto.
    apply elem_of_app. right. by left.
  - split_and!; auto.
Qed.

Lemma thread_step_wf {kdf : Kdf} t a :
  db_wf (acc_db a) -> thread_wf (acc_db a) t ->
  db_wf (acc_db (snd (thread_step t a))) /\
  thread_wf (acc_db (snd (thread_step t a))) (fst (thread_step t a)) /\
  db_grows (acc_db a) (acc_db (snd (thread_step t a))).
Proof.
  destruct t as [r|f]; intros Hwf Ht; simpl; st_unfold; simpl.
  - pose proof (reg_step_wf r a Hwf Ht). by destruct (reg_step r a).
  - pose proof (foc_step_wf f (acc_db a) Hwf Ht). by destruct (foc_step f (acc_db a)).
Qed.

Lemma reg_start_wf {kdf : Kdf} u pw a :
  db_wf (acc_db a) ->
  db_wf (acc_db (snd (reg_start u pw a))) /\
  thread_wf (acc_db (snd (reg_start u pw a))) (TReg (fst (reg_start u pw a))) /\
  db_grows (acc_db a) (acc_db (snd (reg_start u pw a))).
Proof.
  intros Hwf. destruct a as [db r]. unfold reg_start, new_oid. st_unfold. simpl.
  destruct (truthy_val u); simpl; split_and!; auto; try apply (new_oid_wf _ Hwf); lia.
Qed.

Lemma cstep_wf {kdf : Kdf} w w' : world_wf w -> cstep w w' -> world_wf w'.
Proof.
  intros [Hwf Hts] Hs. destruct Hs as [w u pw|w g|w i t Hi Hd]; unfold world_wf; simpl.
  - destruct (reg_start_wf u pw (w_acc w) Hwf) as (Hwf' & Ht & Hg).
    split; [done|]. apply Forall_app_2; [|by constructor].
    eapply Forall_impl; [exact Hts|]. intros t. by apply thread_wf_grows.
  - split; [done|]. apply Forall_app_2; [done | by repeat constructor].
  - pose proof (Forall_lookup_1 _ _ _ _ Hts Hi) as Ht.
    destruct (thread_step_wf t (w_acc w) Hwf Ht) as (Hwf' & Ht' & Hg).
    split; [done|]. apply Forall_insert; [|done].
    eapply Forall_impl; [exact Hts|]. intros t0. by apply thread_wf_grows.
Qed.

Lemma steps_wf {kdf : Kdf} w w' : world_wf w -> rtc cstep w w' -> world_wf w'.
Proof. intros Hw Hs. induction Hs; eauto using cstep_wf. Qed.

(** Each step of a call brings it closer to its end. *)
Lemma thread_step_waits {kdf : Kdf} t a : thread_done t = false -> waits (fst (thread_step t a)) < waits t.
Proof.
  destruct t as [[d name pw|d pw|d|r]|[g|d|r]]; intros Hd; try discriminate;
    unfold thread_step, reg_step, foc_step, setPassword, draw_salt, findByUsername, findOne, save, new_oid;
    st_unfold; simpl; try destruct (connected _); simpl; try destruct (List.find _ _); try destruct (truthy_val _);
    try destruct (dup_key _ _);
    simpl; lia.
Qed.

Lemma cstep_waits {kdf : Kdf} w w' :
  cstep w w' -> length (w_threads w') = length (w_threads w) -> world_waits w' < world_waits w.
Proof.
  intros Hs Hl. destruct Hs as [w u pw|w g|w i t Hi Hd]; simpl in Hl.
  - rewrite length_app in Hl. simpl in Hl. lia.
  - rewrite length_app in Hl. simpl in Hl. lia.
  - apply (sum_list_with_insert_lt waits _ i t); [exact Hi | by apply thread_step_waits].
Qed.

(** A concrete interleaving: two Google callbacks for the same new
    profile arrive; both [findOne]s run before either [save]. *)
Lemma race_steps {kdf : Kdf} :
  rtc cstep world0
    (mkWorld (mkAccounts (mkDb [mkDoc 0 None (Some "g-42") None None None] 2 true) 0)
             [TFoc (FocDone (Ok (mkDoc 0 None (Some "g-42") None None None)));
              TFoc (FocDone (Err (E11000 "googleId_1")))]).
Proof.
  eapply rtc_l; [apply (cs_google _ "g-42")|].
  eapply rtc_l; [apply (cs_google _ "g-42")|].
  eapply rtc_l; [apply (cs_run _ 0 (TFoc (FocFind "g-42"))); reflexivity|].
  eapply rtc_l; [apply (cs_run _ 1 (TFoc (FocFind "g-42"))); reflexivity|].
  eapply rtc_l; [apply (cs_run _ 0 (TFoc (FocSave (mkDoc 0 None (Some "g-42") None None None)))); reflexivity|].
  eapply rtc_l; [apply (cs_run _ 1 (TFoc (FocSave (mkDoc 1 None (Some "g-42") None None None)))); reflexivity|].
  apply rtc_refl.
Qed.

(** ** Properties *)

Section Claims.
Context {kdf : Kdf}.

(** Equivalence of the threaded [User.register] with the
    sequential one: its synchronous start followed by three steps, with
    no other call in between, gives the result and the accounts of
    [register] on every branch. *)
Lemma register_threads_alone u pw a :
  reg_run 3 (fst (reg_start u pw a)) (snd (reg_start u pw a)) =
  (RegDone (fst (register u pw a)), snd (register u pw a)).
Proof.
  destruct a as [[c n b] r].
  unfold reg_run, reg_start, register, reg_step, setPassword, draw_salt, findByUsername, findOne,
    save, new_oid. st_unfold. simpl.
  destruct (truthy_val u) as [name|]; [|done]. simpl. destruct b; [|done]. simpl. destruct (List.find _ c); [done|].
  destruct (truthy_val pw); [|done]. simpl. by destruct (dup_key _ _).
Qed.

(** Equivalence of the threaded [findOrCreate] with the
    sequential one: its two steps, with no other call in between, give
    the result and the collection of [findOrCreate]. *)
Theorem findOrCreate_threads_alone g db :
  foc_run 2 (FocFind g) db = (FocDone (fst (findOrCreate g db)), snd (findOrCreate g db)).
Proof.
  unfold foc_run, foc_step, findOrCreate, findOne, new_oid. st_unfold. simpl.
  destruct (connected db); [|done]. simpl. destruct (List.find _ _); [done|]. simpl. by destruct (save _ _).
Qed.

(** C30. Under every interleaving of concurrent registrations and
    Google callbacks, started from a well-formed collection, the unique
    indexes hold: no two documents share an [_id], a [googleId] or a
    [username]; and the document every finished call returned is in
    the collection. *)
Theorem interleaving_unique w w' :
  world_wf w -> rtc cstep w w' ->
  world_wf w' /\
  forall d e, d ∈ docs (acc_db (w_acc w')) -> e ∈ docs (acc_db (w_acc w')) ->
    _id d = _id e \/ googleId d = googleId e \/ username d = username e -> d = e.
Proof.
  intros Hw Hs. pose proof (steps_wf w w' Hw Hs) as Hw'. split; [done|].
  intros d e. apply db_wf_same_key, Hw'.
Qed.

(** C32. Termination of the calls in flight: the steps of the
    interleaving that start no new call admit no infinite sequence.
    Each such step lowers the number of waits left to the calls
    ([world_waits]), so without new requests every interleaving ends
    after at most that many steps, with every call finished. *)
Theorem calls_terminate :
  well_founded (fun w' w => cstep w w' /\ length (w_threads w') = length (w_threads w)).
Proof.
  apply (Wf_nat.well_founded_lt_compat _ world_waits). intros w' w [Hs Hl]. by apply cstep_waits.
Qed.

End Claims.

Lemma interleaving_unique_witness :
  world_wf world0 /\
  @rtc World (@cstep demo_kdf) world0
    (mkWorld (mkAccounts (mkDb [mkDoc 0 None (Some "g-42") None None None] 2 true) 0)
             [TFoc (FocDone (Ok (mkDoc 0 None (Some "g-42") None None None)));
              TFoc (FocDone (Err (E11000 "googleId_1")))]) /\
  world_wf (mkWorld (mkAccounts (mkDb [mkDoc 0 None (Some "g-42") None None None] 2 true) 0)
             [TFoc (FocDone (Ok (mkDoc 0 None (Some "g-42") None None None)));
              TFoc (FocDone (Err (E11000 "googleId_1")))]).
Proof.
  assert (H0 : world_wf world0) by (split; [split_and!; constructor | constructor]).
  split_and!; [exact H0 | apply race_steps |].
  exact (proj1 (@interleaving_unique demo_kdf _ _ H0 race_steps)).
Defined.

End Concurrency.
