(* ===== verification/Refinement.v ===== *)
(** * The local accounts refine an abstract credential store

    The specification (sections 4.1, 4.2 and 4.4) describes the local
    accounts as a map from usernames to passwords: [Register] adds a
    username that is not yet taken, and [Login] succeeds exactly for a
    registered pair. [AbsAccounts] with [abs_register] and [abs_login]
    is that contract. [accounts_refine A c] relates it to the
    collection: every registered username is found by
    [findByUsername] on a document whose salt and hash are those of
    its password, and an unregistered username is found on no
    document. The theorems show that [register], [verify_local] and
    every request of the server keep the relation, with each request
    matched by no abstract step or by one [abs_register]. *)

From S2P Require Import Prelude Store Credential Session Passport App.
Import Store Credential Session Passport App.

Module Refinement.

(** ** The abstract credential store *)

Abbreviation AbsAccounts := (gmap string string) (only parsing).

(** [Register(username, password)]: [None] is [DuplicateUsername]. *)
Definition abs_register (u pw : string) (A : AbsAccounts) : option AbsAccounts :=
  if decide (is_Some (A !! u)) then None else Some (<[u := pw]> A).

(** [Login(username, password)]: whether the pair is registered. *)
Definition abs_login (u pw : string) (A : AbsAccounts) : bool :=
  bool_decide (A !! u = Some pw).

Definition verified_ok (v : Verified) : bool :=
  match v with VOk _ => true | _ => false end.

Section Relation.
Context {kdf : Kdf}.

(** The refinement relation between the abstract store and the
    documents of the collection. *)
Definition accounts_refine (A : AbsAccounts) (c : list Doc) : Prop :=
  forall u,
    match A !! u with
    | Some pw => exists d s, List.find (field_is username u) c = Some d /\
                             salt d = Some s /\ s <> "" /\ hash d = Some (pbkdf2 pw s)
    | None => List.find (field_is username u) c = None
    end.

Definition srv_refines (A : AbsAccounts) (s : Server) : Prop :=
  accounts_refine A (docs (acc_db (accounts s))).

End Relation.

Section Lemmas.
Context {kdf : Kdf}.

Lemma refine_empty : accounts_refine ∅ [].
Proof. intros u. by rewrite lookup_empty. Qed.

(** A document without [username] (a Google account) changes nothing
    the relation sees. *)
Lemma refine_snoc_nouser A c d :
  accounts_refine A c -> username d = None -> accounts_refine A (c ++ [d]).
Proof.
  intros H Hd u. specialize (H u).
  assert (Hf : field_is username u d = false) by (unfold field_is; rewrite Hd; by apply bool_decide_eq_false_2).
  destruct (A !! u) as [pw|]; rewrite find_snoc.
  - destruct H as (e & s & He & ?). rewrite He. by exists e, s.
  - by rewrite H, Hf.
Qed.

(** The document [register] saves adds its username with its
    password. *)
Lemma refine_snoc_registered A a name pw :
  accounts_refine A (docs (acc_db a)) -> A !! name = None ->
  accounts_refine (<[name := pw]> A) (docs (acc_db a) ++ [registered_doc a (Some name) pw]).
Proof.
  intros H Hn u. pose proof (H u) as Hu.
  destruct (decide (u = name)) as [->|Hne].
  - rewrite lookup_insert_eq, find_snoc. rewrite Hn in Hu. rewrite Hu.
    unfold field_is. rewrite bool_decide_eq_true_2 by done.
    exists (registered_doc a (Some name) pw), (gen_salt (acc_rng a)).
    split_and!; [done|done|apply gen_salt_nonempty|done].
  - assert (Hf : field_is username u (registered_doc a (Some name) pw) = false)
      by (unfold field_is; apply bool_decide_eq_false_2; simpl; congruence).
    rewrite lookup_insert_ne by congruence.
    destruct (A !! u) as [pw'|]; rewrite find_snoc.
    + destruct Hu as (e & s & He & ?). rewrite He. by exists e, s.
    + by rewrite Hu, Hf.
Qed.

Lemma findOrCreate_refine A g db :
  accounts_refine A (docs db) -> accounts_refine A (docs (snd (findOrCreate g db))).
Proof.
  intros H. destruct (findOrCreate g db) as [[d|e] db'] eqn:E; cbn [snd].
  - destruct (findOrCreate_cases g db) as [(_ & E')|[(d' & _ & _ & E')|(_ & _ & E')]]; rewrite E' in E;
      [done | by simplify_eq|].
    destruct (save_cases (mkDoc (next_oid db) None (Some g) None None None) (mkDb (docs db) (S (next_oid db)) (connected db)))
      as [[e E''] | (_ & _ & E'')]; rewrite E'' in E; [done|]. simplify_eq. by apply refine_snoc_nouser.
  - by rewrite (findOrCreate_err_docs _ _ _ _ E).
Qed.

(** [register] with a truthy username and password, against the
    abstract [Register], with the collection reachable: a success adds
    the pair, and [UserExistsError] is exactly [DuplicateUsername]. A refusal by a unique index leaves
    the abstract store unchanged where the abstract [Register] would
    have succeeded. *)
Lemma register_refine A a u password name pw :
  accounts_refine A (docs (acc_db a)) -> connected (acc_db a) = true ->
  truthy_val u = Some name -> truthy_val password = Some pw ->
  accounts_refine (if is_ok (fst (register u password a)) then <[name := pw]> A else A)
                  (docs (acc_db (snd (register u password a)))) /\
  (fst (register u password a) = Err UserExistsError <-> abs_register name pw A = None) /\
  (is_ok (fst (register u password a)) = true -> abs_register name pw A = Some (<[name := pw]> A)).
Proof.
  intros H Hc Hu Hpw. pose proof (H name) as Hn. rewrite register_eq, Hu, Hc, Hpw. cbv zeta.
  unfold abs_register. destruct (A !! name) as [pw0|] eqn:EA.
  - destruct Hn as (d & s & -> & _). cbn. rewrite decide_True by done. naive_solver.
  - rewrite Hn, decide_False by (intros [? ?]; congruence).
    apply truthy_val_Some in Hu as [-> _].
    destruct (dup_key _ _); cbn; [naive_solver|]. split_and!; [|naive_solver|done].
    by apply refine_snoc_registered.
Qed.

(** The lookup and password check of the local verify function,
    against the abstract [Login]; it never reports an error and never
    throws. *)
Lemma login_lookup_refine {kinj : KdfInjective} A c u pw :
  accounts_refine A c ->
  verified_ok (match List.find (field_is username u) c with
               | None => VFail IncorrectUsernameError
               | Some d => Credential.authenticate d pw
               end) = abs_login u pw A /\
  match List.find (field_is username u) c with
  | None => VFail IncorrectUsernameError
  | Some d => Credential.authenticate d pw
  end <> VError /\
  match List.find (field_is username u) c with
  | None => VFail IncorrectUsernameError
  | Some d => Credential.authenticate d pw
  end <> VThrow.
Proof.
  intros H. specialize (H u). unfold abs_login.
  destruct (A !! u) as [pw'|].
  - destruct H as (d & s & -> & Hs & Hne & Hh).
    rewrite (authenticate_hashed d pw' s Hne Hs Hh pw).
    destruct (decide (pw = pw')) as [->|Hp].
    + by rewrite !bool_decide_eq_true_2.
    + rewrite (bool_decide_eq_false_2 (Some pw' = Some pw)) by congruence.
      rewrite bool_decide_eq_false_2; [done|]. intros E. by apply Hp, (pbkdf2_inj _ _ _ E).
  - by rewrite H.
Qed.

End Lemmas.

(** ** Every request other than [POST /register] keeps the relation *)

Section Preservation.
Context {kdf : Kdf} {prov : Provider}.
Variable A : AbsAccounts.

Lemma preserves_zoom_acc_ref {X} (m : St Accounts X) :
  preserves (fun a => accounts_refine A (docs (acc_db a))) m -> preserves (srv_refines A) (zoom acc_lens m).
Proof. apply preserves_zoom; by intros. Qed.

Lemma preserves_zoom_db_ref {X} (m : St Db X) :
  preserves (fun db => accounts_refine A (docs db)) m ->
  preserves (fun a => accounts_refine A (docs (acc_db a))) (zoom db_lens m).
Proof. apply preserves_zoom; by intros. Qed.

Lemma preserves_zoom_sess_ref {X} (m : St Sess X) : preserves (srv_refines A) (zoom sess_lens m).
Proof. intros s H. unfold zoom. by destruct (m _). Qed.

Lemma new_oid_ref : preserves (fun db => accounts_refine A (docs db)) new_oid.
Proof. by intros db. Qed.

Lemma findByUsername_ref u : preserves (fun db => accounts_refine A (docs db)) (findByUsername u).
Proof. intros db. unfold findByUsername, findOne. by destruct (connected db). Qed.

Lemma findOrCreate_ref g : preserves (fun db => accounts_refine A (docs db)) (findOrCreate g).
Proof. intros db. apply findOrCreate_refine. Qed.

#[local] Hint Resolve preserves_zoom_acc_ref preserves_zoom_db_ref preserves_zoom_sess_ref
  new_oid_ref findByUsername_ref findOrCreate_ref : app.

Lemma local_strategy_ref b q : preserves (fun a => accounts_refine A (docs (acc_db a))) (local_strategy b q).
Proof. unfold local_strategy, verify_local. preserve. Qed.

Lemma google_strategy_ref q sc : preserves (srv_refines A) (google_strategy q sc).
Proof.
  intros s H. unfold srv_refines. rewrite google_strategy_accounts.
  repeat case_match; try done. by apply findOrCreate_refine.
Qed.

Lemma console_log_ref l : preserves (srv_refines A) (console_log l).
Proof. by intros s. Qed.

Lemma authenticate_ref o f next :
  (forall e, preserves (srv_refines A) (next e)) -> preserves (srv_refines A) (authenticate o f next).
Proof. intros Hn. unfold authenticate. preserve. Qed.

#[local] Hint Resolve local_strategy_ref google_strategy_ref console_log_ref authenticate_ref : app.

Lemma route_ref rq :
  ~ (method rq = POST /\ path rq = "/register") -> preserves (srv_refines A) (route rq).
Proof.
  intros Hn. unfold route. destruct (method rq) eqn:Em.
  - unfold get_root, get_auth_google, get_auth_google_secrets, get_login, get_register,
      get_secrets, get_logout, get_submit. preserve.
  - rewrite bool_decide_eq_false_2 by naive_solver. unfold post_login, post_submit. preserve.
Qed.

End Preservation.

(** ** One request against the abstract store *)

Section Step.
Context {kdf : Kdf} {prov : Provider}.

(** [POST /register] is matched by no abstract step or by one abstract
    [Register] of its truthy username and password. *)
Lemma serve_register_refine A s b q ck :
  srv_refines A s ->
  exists A', srv_refines A' (fst (serve s (mkRequest POST "/register" b q ck))) /\
    (A' = A \/
     exists name pw, truthy_val (b_username b) = Some name /\ truthy_val (b_password b) = Some pw /\
       abs_register name pw A = Some A').
Proof.
  intros H. unfold srv_refines. destruct (serve_post_register s b q ck) as [_ ->].
  destruct (truthy_val (b_username b)) as [name|] eqn:Hu;
    [destruct (truthy_val (b_password b)) as [pw|] eqn:Hpw|].
  - destruct (connected (acc_db (accounts s))) eqn:Hc.
    2:{ exists A. split; [|by left]. pose proof (register_down (b_username b) (b_password b) _ Hc) as Hd.
        rewrite register_docs. by destruct (fst (register _ _ _)). }
    destruct (register_refine A (accounts s) _ _ name pw H Hc Hu Hpw) as (Hr & _ & Hok).
    destruct (is_ok (fst (register _ _ _))) eqn:Eok.
    + exists (<[name := pw]> A). split; [done|]. right. exists name, pw. split_and!; try done. by apply Hok.
    + exists A. by split; [|left].
  - exists A. split; [|by left]. by rewrite (proj2 (register_falsy _ _ _ (or_intror Hpw))).
  - exists A. split; [|by left]. by rewrite (proj2 (register_falsy _ _ _ (or_introl Hu))).
Qed.

(** Every other request keeps the relation with the same store. *)
Lemma serve_other_refine A s rq :
  ~ (method rq = POST /\ path rq = "/register") -> srv_refines A s -> srv_refines A (fst (serve s rq)).
Proof. intros Hn H. unfold srv_refines. rewrite serve_accounts. by apply (route_ref A rq Hn). Qed.

(** The abstract [Register] only adds a pair. *)
Lemma abs_register_sub name pw A A' : abs_register name pw A = Some A' -> A ⊆ A'.
Proof.
  unfold abs_register. case_decide as H; [done|]. intros [= <-].
  apply insert_subseteq. by apply eq_None_not_Some.
Qed.

(** So the abstract store of a request only grows, and so does that of
    any sequence of requests. *)
Lemma serve_refines_sub A s rq :
  srv_refines A s -> exists A', srv_refines A' (fst (serve s rq)) /\ A ⊆ A'.
Proof.
  intros H. destruct (decide (method rq = POST /\ path rq = "/register")) as [[Hm Hp]|Hn].
  - destruct rq as [m p b q ck]; cbn in Hm, Hp; subst m p.
    destruct (serve_register_refine A s b q ck H) as (A' & H' & Hc). exists A'. split; [done|].
    destruct Hc as [->|(? & ? & _ & _ & Ha)]; [done | by eapply abs_register_sub].
  - exists A. split; [by apply serve_other_refine | done].
Qed.

Lemma steps_refines A s s' :
  steps s s' -> srv_refines A s -> exists A', srv_refines A' s' /\ A ⊆ A'.
Proof.
  intros Hs. revert A. induction Hs as [s|s1 s2 s3 [rq ->] _ IH]; intros A H; [by exists A|].
  destruct (serve_refines_sub A s1 rq H) as (A1 & H1 & Hsub1).
  destruct (IH A1 H1) as (A2 & H2 & Hsub2). exists A2. split; [done|]. by trans A1.
Qed.

End Step.

(** ** Refinement theorems *)

Section Claims.
Context {kdf : Kdf} {prov : Provider}.

(** C20. Forward simulation of the whole server onto the abstract
    credential store: if the collection refines [A] before a request,
    it refines [A'] after it, where [A'] is [A] or, for a
    [POST /register] with a truthy username and password, the result
    of the abstract [Register] of that pair. No other request changes
    the local credentials. *)
Theorem serve_refines A s rq :
  srv_refines A s ->
  exists A', srv_refines A' (fst (serve s rq)) /\
    (A' = A \/
     exists name pw, method rq = POST /\ path rq = "/register" /\
       truthy_val (b_username (body rq)) = Some name /\ truthy_val (b_password (body rq)) = Some pw /\
       abs_register name pw A = Some A').
Proof.
  intros H. destruct (decide (method rq = POST /\ path rq = "/register")) as [[Hm Hp]|Hn].
  - destruct rq as [m p b q ck]; cbn in Hm, Hp |- *; subst m p.
    destruct (serve_register_refine A s b q ck H) as (A' & H' & Hc). exists A'. split; [done|].
    destruct Hc as [->|(name & pw & Hc)]; [by left | right; by exists name, pw].
  - exists A. split; [by apply serve_other_refine | by left].
Qed.

(** C21. Login at the server follows the abstract store: with the
    collection reachable, a [POST /login] with a truthy username and
    password is answered
    with the redirect to /secrets exactly when the abstract [Login]
    accepts the pair, and with 401 otherwise; an unknown username and
    a wrong password get the same reply. (The session is another
    matter: see C1.) *)
Theorem login_refines {kinj : KdfInjective} A s b q ck name pw :
  srv_refines A s -> connected (acc_db (accounts s)) = true ->
  credential (b_username b) (q_username q) = Some name -> credential (b_password b) (q_password q) = Some pw ->
  reply (snd (serve s (mkRequest POST "/login" b q ck))) =
    if abs_login name pw A then Redirect "/secrets" else Status 401.
Proof.
  intros H Hc Hu Hpw. rewrite (serve_login_creds _ _ _ _ _ _ Hu Hpw), Hc.
  destruct (login_lookup_refine A _ name pw H) as (Hok & Hne & Hnt).
  destruct (List.find _ _) as [d|]; [|by rewrite <- Hok].
  by destruct (Credential.authenticate d pw); rewrite <- Hok.
Qed.

(** The local verify function refines the abstract [Login]: on a
    reachable collection it accepts exactly the registered pairs,
    never reports an error, and reads without writing. *)
Lemma verify_local_refines {kinj : KdfInjective} A a u pw :
  accounts_refine A (docs (acc_db a)) -> connected (acc_db a) = true ->
  verified_ok (fst (verify_local u pw a)) = abs_login u pw A /\
  fst (verify_local u pw a) <> VError /\ snd (verify_local u pw a) = a.
Proof.
  intros H Hc. rewrite verify_local_eq, Hc. cbn [fst snd].
  destruct (login_lookup_refine A _ u pw H) as (Hok & Hne & Hnt). done.
Qed.

End Claims.

(** ** The claims at concrete states: the start-up state, and the
    state after alice registers with [demo_kdf] *)

Lemma alice_refines :
  @srv_refines demo_kdf {["alice" := "pw123"]}
    (fst (@serve demo_kdf demo_provider server0
            (mkRequest POST "/register" (mkBody (Some "alice") (Some "pw123") None) QNone None))).
Proof.
  unfold srv_refines.
  assert (Hd : docs (acc_db (accounts (fst (@serve demo_kdf demo_provider server0
            (mkRequest POST "/register" (mkBody (Some "alice") (Some "pw123") None) QNone None))))) =
          [mkDoc 0 (Some "alice") None None (Some "s") (Some "s:pw123")]) by (vm_compute; reflexivity).
  rewrite Hd. intros u. destruct (decide (u = "alice")) as [->|Hne].
  - rewrite lookup_singleton_eq. exists (mkDoc 0 (Some "alice") None None (Some "s") (Some "s:pw123")), "s".
    by split_and!.
  - rewrite lookup_singleton_ne by congruence. simpl. unfold field_is. simpl.
    by rewrite bool_decide_eq_false_2 by congruence.
Qed.

Lemma serve_refines_witness :
  let rq := mkRequest POST "/register" (mkBody (Some "alice") (Some "pw123") None) QNone None in
  @srv_refines demo_kdf ∅ server0 /\
  exists A', @srv_refines demo_kdf A' (fst (@serve demo_kdf demo_provider server0 rq)) /\
    (A' = ∅ \/
     exists name pw, method rq = POST /\ path rq = "/register" /\
       truthy_val (b_username (body rq)) = Some name /\ truthy_val (b_password (body rq)) = Some pw /\
       abs_register name pw ∅ = Some A').
Proof.
  intros rq. split; [exact refine_empty|].
  exact (@serve_refines demo_kdf demo_provider ∅ server0 rq refine_empty).
Defined.

Lemma login_refines_witness :
  let s := fst (@serve demo_kdf demo_provider server0
                  (mkRequest POST "/register" (mkBody (Some "alice") (Some "pw123") None) QNone None)) in
  reply (snd (@serve demo_kdf demo_provider s
                (mkRequest POST "/login" (mkBody (Some "alice") (Some "pw123") None) QNone None))) =
    Redirect "/secrets" /\
  reply (snd (@serve demo_kdf demo_provider s
                (mkRequest POST "/login" (mkBody (Some "alice") (Some "guess") None) QNone None))) =
    Status 401.
Proof.
  intros s. split.
  - exact (@login_refines demo_kdf demo_provider demo_kdf_injective _ s (mkBody (Some "alice") (Some "pw123") None) QNone None "alice" "pw123"
             alice_refines ltac:(vm_compute; reflexivity) eq_refl eq_refl).
  - exact (@login_refines demo_kdf demo_provider demo_kdf_injective _ s (mkBody (Some "alice") (Some "guess") None) QNone None "alice" "guess"
             alice_refines ltac:(vm_compute; reflexivity) eq_refl eq_refl).
Defined.

End Refinement.
