(* ===== verification/Props.v ===== *)
(** * End-to-end properties over sequences of requests

    A browser is modelled by [browse]: it sends a list of requests in
    order, each carrying the cookie of the last Set-Cookie it received
    (its cookie jar). The theorems here state the scenarios of the
    specification (sections 4.3, 4.4, 4.5 and 8) as replies to such
    sequences, among them the defect of [app.post("/login")]. *)

From S2P Require Import Prelude Store Credential Session Passport App Refinement.
Import Store Credential Session Passport App Refinement.

Module Props.

(** One request of the browser: everything but the cookie. *)
Record Step := mkStep {
  s_method : Method;
  s_path : string;
  s_body : Body;
  s_query : Query
}.

Definition step_request (st : Step) (jar : option nat) : Request :=
  mkRequest (s_method st) (s_path st) (s_body st) (s_query st) jar.

Section Browser.
Context {kdf : Kdf} {prov : Provider}.

(** The browser: the responses of the steps, in order, and the server
    state after them. A Set-Cookie replaces the jar's cookie. *)
Fixpoint browse (s : Server) (jar : option nat) (steps : list Step) : Server * list Response :=
  match steps with
  | [] => (s, [])
  | st :: rest =>
      let r := serve s (step_request st jar) in
      let jar' := match set_cookie (snd r) with Some k => Some k | None => jar end in
      let b := browse (fst r) jar' rest in
      (fst b, snd r :: snd b)
  end.

Definition replies (s : Server) (jar : option nat) (steps : list Step) : list Reply :=
  map reply (snd (browse s jar steps)).

End Browser.

Section EndToEnd.
Context {kdf : Kdf} {prov : Provider}.

Lemma replies_cons s jar st rest :
  replies s jar (st :: rest) =
  reply (snd (serve s (step_request st jar))) ::
  replies (fst (serve s (step_request st jar)))
          (match set_cookie (snd (serve s (step_request st jar))) with
           | Some k => Some k | None => jar end) rest.
Proof. reflexivity. Qed.

Lemma replies_nil s jar : replies s jar [] = [].
Proof. reflexivity. Qed.

Lemma browse_fst_cons s jar st rest :
  fst (browse s jar (st :: rest)) =
  fst (browse (fst (serve s (step_request st jar)))
              (match set_cookie (snd (serve s (step_request st jar))) with
               | Some k => Some k | None => jar end) rest).
Proof. reflexivity. Qed.

Lemma browse_fst_nil s jar : fst (browse s jar []) = s.
Proof. reflexivity. Qed.

(** Unfold the browser on a concrete list of steps. *)
Ltac browse_steps :=
  rewrite ?replies_cons, ?replies_nil; unfold step_request; cbn [s_method s_path s_body s_query].

(** C1. A POST /login with any body at all (a wrong password, an
    unknown user, no fields) sets a session cookie with which the
    following GET /secrets renders the protected page: the handler
    calls [req.login] on an unverified document built from the body
    before the local strategy checks the password, and the strategy's
    401 (or 400) leaves that session in place. This holds in every
    state whose collection gives each salted document a hash, as every
    reachable state does ([reachable_hashed]); a document with a salt
    and no hash would make the password check throw and end the
    process. *)
Theorem login_without_password_opens_secrets s b b' :
  hashed (acc_db (accounts s)) ->
  exists r, replies s None [mkStep POST "/login" b QNone; mkStep GET "/secrets" b' QNone] =
            [r; Render "secrets.ejs"].
Proof.
  intros H. destruct (serve_post_login_session s b QNone (proj2 (serve_hashed _ _ H))) as (k & p & Hk & Hs).
  eexists. browse_steps. rewrite Hk, get_secrets_serve, Hs. done.
Qed.

(** C4. Registration (spec 4.4 and the first scenario of section 8):
    on a well-formed state with the collection reachable, a new
    username with a password, while no
    document lacks [googleId], is saved with a salted hash, the reply
    is the redirect to /secrets, and the cookie it sets opens the
    protected page. *)
Theorem register_then_secrets s b b' name pw :
  server_wf s -> connected (acc_db (accounts s)) = true ->
  truthy_val (b_username b) = Some name -> truthy_val (b_password b) = Some pw ->
  List.find (field_is username name) (docs (acc_db (accounts s))) = None ->
  Forall (fun e => is_Some (googleId e)) (docs (acc_db (accounts s))) ->
  replies s None [mkStep POST "/register" b QNone; mkStep GET "/secrets" b' QNone] =
    [Redirect "/secrets"; Render "secrets.ejs"] /\
  docs (acc_db (accounts (fst (serve s (mkRequest POST "/register" b QNone None))))) =
    docs (acc_db (accounts s)) ++ [registered_doc (accounts s) (b_username b) pw].
Proof.
  intros [Hwf _] Hc Hu Hpw Hf Hg.
  pose proof (register_fresh _ _ _ _ _ Hwf Hc Hu Hpw Hf Hg) as Hr.
  destruct (serve_post_register_session s b QNone _ _ Hr) as (k & p & Hk & Hs).
  destruct (serve_post_register s b QNone None) as [Hrep Hacc]. rewrite Hr in Hrep, Hacc.
  split; [|by rewrite Hacc].
  browse_steps. rewrite Hk, get_secrets_serve, Hs, Hrep. done.
Qed.

(** C6. Register, then log in with the same credentials (spec,
    section 8): on a reachable collection, [POST /login] from a fresh
    browser with the body of the registration is answered with the
    redirect to /secrets, and the protected page renders. *)
Theorem register_then_login s b b' name pw :
  server_wf s -> connected (acc_db (accounts s)) = true ->
  truthy_val (b_username b) = Some name -> truthy_val (b_password b) = Some pw ->
  List.find (field_is username name) (docs (acc_db (accounts s))) = None ->
  Forall (fun e => is_Some (googleId e)) (docs (acc_db (accounts s))) ->
  replies (fst (serve s (mkRequest POST "/register" b QNone None))) None
          [mkStep POST "/login" b QNone; mkStep GET "/secrets" b' QNone] =
    [Redirect "/secrets"; Render "secrets.ejs"].
Proof.
  intros [Hwf _] Hc Hu Hpw Hf Hg.
  pose proof (register_fresh _ _ _ _ _ Hwf Hc Hu Hpw Hf Hg) as Hr.
  destruct (serve_post_register s b QNone None) as [_ Hacc]. rewrite Hr in Hacc.
  set (s1 := fst (serve s (mkRequest POST "/register" b QNone None))) in *.
  assert (Hrep : reply (snd (serve s1 (mkRequest POST "/login" b QNone None))) = Redirect "/secrets").
  { rewrite (serve_login_creds _ _ _ _ _ _ (credential_body _ _ _ Hu) (credential_body _ _ _ Hpw)).
    cbn [accounts]. rewrite Hacc.
    cbn [snd acc_db docs connected]. rewrite find_snoc, Hf. unfold field_is at 1.
    apply truthy_val_Some in Hu as [Hu _]. unfold registered_doc at 1. cbn [username].
    rewrite Hu, bool_decide_eq_true_2 by done. by rewrite registered_doc_authenticate. }
  destruct (serve_post_login_session s1 b QNone) as (k & p & Hk & Hs); [by rewrite Hrep|].
  browse_steps. by rewrite Hk, get_secrets_serve, Hs, Hrep.
Qed.

(** C13. Logout (spec 4.3 and section 8): [GET /logout] answers with
    the redirect to / whether or not the browser had a session, and
    the following GET /secrets, which carries the cookie of the new
    empty session the logout set, is redirected to /login. *)
Theorem logout_then_secrets s jar b b' :
  server_wf s ->
  replies s jar [mkStep GET "/logout" b QNone; mkStep GET "/secrets" b' QNone] =
    [Redirect "/"; Redirect "/login"].
Proof.
  intros [_ Hwf]. pose proof (serve_logout s b QNone jar Hwf) as H.
  browse_steps. destruct (serve s _) as [s1 resp].
  destruct H as (Hr & _ & k' & Hc & _ & _ & Hs). cbn [fst snd]. rewrite Hr, Hc, get_secrets_serve.
  cbn [reply]. by rewrite Hs, lookup_insert_eq.
Qed.

(** C14. The Google callback twice with the same profile, from one
    browser (spec 4.5 and the last scenario of section 8): when the
    first callback logs the user in, the second (which carries the
    cookie of the first) logs in too, adds no document, and the
    collection holds exactly one document with that [googleId]. *)
Theorem google_login_twice s b code g :
  let st := mkStep GET "/auth/google/secrets" b (QCode code) in
  server_wf s -> code <> "" -> exchange code = Some g ->
  reply (snd (serve s (step_request st None))) = Redirect "/secrets" ->
  replies s None [st; st] = [Redirect "/secrets"; Redirect "/secrets"] /\
  accounts (fst (browse s None [st; st])) = accounts (fst (browse s None [st])) /\
  length (filter (fun d => googleId d = Some g) (docs (acc_db (accounts (fst (browse s None [st; st])))))) = 1.
Proof.
  intros st Hwf Hc Hex Hrep. subst st. browse_steps. rewrite !browse_fst_cons, !browse_fst_nil.
  unfold step_request in *; cbn [s_method s_path s_body s_query] in *.
  set (rq := mkRequest GET "/auth/google/secrets" b (QCode code) None) in *.
  set (ck := match set_cookie (snd (serve s rq)) with Some k => Some k | None => None end).
  pose proof (serve_wf _ rq Hwf) as [(_ & Hnd & _) _].
  destruct (serve_google_callback s b (QCode code) None) as [Hr1 Ha1]. fold rq in Hr1, Ha1.
  rewrite google_strategy_code, Hex, google_verify_eq in Hr1, Ha1 by done.
  cbn [fst snd accounts] in Hr1, Ha1. rewrite Hrep in Hr1.
  destruct (findOrCreate g (acc_db (accounts s))) as [[d|e] db1] eqn:Hfc; [|done].
  destruct (findOrCreate_ok _ _ _ _ Hfc) as (Hgd & Hin & Hfind & Hcn).
  rewrite Ha1 in Hnd. cbn [snd acc_db] in Hnd.
  destruct (serve_google_callback (fst (serve s rq)) b (QCode code) ck) as [Hr2 Ha2].
  rewrite google_strategy_code, Hex, google_verify_eq in Hr2, Ha2 by done.
  cbn [fst snd accounts] in Hr2, Ha2. rewrite Ha1 in Hr2, Ha2.
  cbn [fst snd acc_db acc_rng] in Hr2, Ha2. rewrite (findOrCreate_found _ _ _ Hcn Hfind) in Hr2, Ha2.
  cbn [fst snd] in Hr2, Ha2. rewrite Hrep, Hr2, Ha2, Ha1. split_and!; [done..|]. cbn [acc_db].
  rewrite <- Hgd. by apply NoDup_map_filter_single.
Qed.

(** C36. Federated login opens the protected page (spec 4.5, step
    3): when Google's code is exchanged for a profile that
    [findOrCreate] finds or creates, the callback redirects to
    /secrets, and the cookie it sets opens the protected page. *)
Theorem google_then_secrets s b b' code g :
  code <> "" -> exchange code = Some g -> is_ok (fst (findOrCreate g (acc_db (accounts s)))) = true ->
  replies s None [mkStep GET "/auth/google/secrets" b (QCode code); mkStep GET "/secrets" b' QNone] =
    [Redirect "/secrets"; Render "secrets.ejs"].
Proof.
  intros Hc Hex Hok.
  destruct (findOrCreate g (acc_db (accounts s))) as [[d|e] db1] eqn:Hf; [|done].
  destruct (serve_google_session s b code g d db1 Hc Hex Hf) as (k & p & Hk & Hs).
  destruct (serve_google_callback s b (QCode code) None) as [Hr _].
  rewrite google_strategy_code, Hex, google_verify_eq in Hr by done. cbn [fst] in Hr. rewrite Hf in Hr.
  browse_steps. rewrite Hk, get_secrets_serve, Hs, Hr. done.
Qed.

(** C26. A registered user is never locked out (spec 4.4 and section
    8): once the collection refines an abstract store in which [name]
    has the password [pw], then after any sequence of requests, by any
    clients, a fresh browser's [POST /login] with that pair is answered,
    whenever the collection is reachable, with the redirect to /secrets
    and the protected page renders. No request removes or changes a
    local account. *)
Theorem registered_login_persists {kinj : KdfInjective} A s s' b b' name pw :
  srv_refines A s -> A !! name = Some pw -> steps s s' -> connected (acc_db (accounts s')) = true ->
  truthy_val (b_username b) = Some name -> truthy_val (b_password b) = Some pw ->
  replies s' None [mkStep POST "/login" b QNone; mkStep GET "/secrets" b' QNone] =
    [Redirect "/secrets"; Render "secrets.ejs"].
Proof.
  intros H HA Hst Hc Hu Hpw. destruct (steps_refines A s s' Hst H) as (A' & H' & Hsub).
  assert (Hl : abs_login name pw A' = true)
    by (apply bool_decide_eq_true_2; by eapply lookup_weaken).
  destruct (login_lookup_refine A' _ name pw H') as (Hok & _ & Hnt). rewrite Hl in Hok.
  assert (Hrep : reply (snd (serve s' (mkRequest POST "/login" b QNone None))) = Redirect "/secrets").
  { rewrite (serve_login_creds _ _ _ _ _ _ (credential_body _ _ _ Hu) (credential_body _ _ _ Hpw)).
    cbn [accounts]. rewrite Hc.
    destruct (List.find _ _) as [d|]; [|done]. by destruct (Credential.authenticate d pw). }
  destruct (serve_post_login_session s' b QNone) as (k & p & Hk & Hs); [by rewrite Hrep|].
  browse_steps. by rewrite Hk, get_secrets_serve, Hs, Hrep.
Qed.

End EndToEnd.

(** ** The claims at concrete states, evaluated with [demo_kdf] and
    [demo_provider] from the start-up state *)

Lemma login_without_password_opens_secrets_witness :
  hashed (acc_db (accounts server0)) /\
  exists r, @replies demo_kdf demo_provider server0 None
              [mkStep POST "/login" (mkBody (Some "mallory") (Some "x") None) QNone;
               mkStep GET "/secrets" (mkBody None None None) QNone] = [r; Render "secrets.ejs"].
Proof.
  split; [exact (List.Forall_nil _)|].
  exact (@login_without_password_opens_secrets demo_kdf demo_provider server0 _ _ (List.Forall_nil _)).
Defined.

Lemma register_then_secrets_witness :
  @replies demo_kdf demo_provider server0 None
    [mkStep POST "/register" (mkBody (Some "alice") (Some "pw123") None) QNone;
     mkStep GET "/secrets" (mkBody None None None) QNone] =
  [Redirect "/secrets"; Render "secrets.ejs"].
Proof.
  exact (proj1 (@register_then_secrets demo_kdf demo_provider server0
                  (mkBody (Some "alice") (Some "pw123") None) (mkBody None None None) "alice" "pw123"
                  server0_wf eq_refl eq_refl eq_refl eq_refl (List.Forall_nil _))).
Defined.

Lemma google_then_secrets_witness :
  @replies demo_kdf demo_provider server0 None
    [mkStep GET "/auth/google/secrets" (mkBody None None None) (QCode "g-42");
     mkStep GET "/secrets" (mkBody None None None) QNone] =
  [Redirect "/secrets"; Render "secrets.ejs"].
Proof.
  exact (@google_then_secrets demo_kdf demo_provider server0 (mkBody None None None) (mkBody None None None)
           "g-42" "g-42" ltac:(discriminate) eq_refl eq_refl).
Defined.

Lemma register_then_login_witness :
  @replies demo_kdf demo_provider
    (fst (@serve demo_kdf demo_provider server0
            (mkRequest POST "/register" (mkBody (Some "alice") (Some "pw123") None) QNone None))) None
    [mkStep POST "/login" (mkBody (Some "alice") (Some "pw123") None) QNone;
     mkStep GET "/secrets" (mkBody None None None) QNone] =
  [Redirect "/secrets"; Render "secrets.ejs"].
Proof.
  exact (@register_then_login demo_kdf demo_provider server0
           (mkBody (Some "alice") (Some "pw123") None) (mkBody None None None) "alice" "pw123"
           server0_wf eq_refl eq_refl eq_refl eq_refl (List.Forall_nil _)).
Defined.

Lemma logout_then_secrets_witness :
  @replies demo_kdf demo_provider server0 (Some 0)
    [mkStep GET "/logout" (mkBody None None None) QNone; mkStep GET "/secrets" (mkBody None None None) QNone] =
  [Redirect "/"; Redirect "/login"].
Proof.
  exact (@logout_then_secrets demo_kdf demo_provider server0 (Some 0)
           (mkBody None None None) (mkBody None None None) server0_wf).
Defined.

Lemma registered_login_persists_witness :
  let s := fst (@serve demo_kdf demo_provider server0
                  (mkRequest POST "/register" (mkBody (Some "alice") (Some "pw123") None) QNone None)) in
  let s' := fst (@serve demo_kdf demo_provider s
                   (mkRequest POST "/login" (mkBody (Some "alice") (Some "guess") None) QNone None)) in
  @steps demo_kdf demo_provider s s' /\
  @replies demo_kdf demo_provider s' None
    [mkStep POST "/login" (mkBody (Some "alice") (Some "pw123") None) QNone;
     mkStep GET "/secrets" (mkBody None None None) QNone] =
  [Redirect "/secrets"; Render "secrets.ejs"].
Proof.
  intros s s'.
  assert (Hst : @steps demo_kdf demo_provider s s') by (apply rtc_once; eexists; reflexivity).
  split; [exact Hst|].
  exact (@registered_login_persists demo_kdf demo_provider demo_kdf_injective {["alice" := "pw123"]} s s'
           (mkBody (Some "alice") (Some "pw123") None) (mkBody None None None) "alice" "pw123"
           alice_refines eq_refl Hst ltac:(vm_compute; reflexivity) eq_refl eq_refl).
Defined.

Lemma google_login_twice_witness :
  let st := mkStep GET "/auth/google/secrets" (mkBody None None None) (QCode "g-42") in
  reply (snd (@serve demo_kdf demo_provider server0 (step_request st None))) = Redirect "/secrets" /\
  @replies demo_kdf demo_provider server0 None [st; st] = [Redirect "/secrets"; Redirect "/secrets"].
Proof.
  intros st.
  assert (Hr : reply (snd (@serve demo_kdf demo_provider server0 (step_request st None))) = Redirect "/secrets")
    by (vm_compute; reflexivity).
  split; [exact Hr|].
  exact (proj1 (@google_login_twice demo_kdf demo_provider server0 _ "g-42" "g-42" server0_wf
                  ltac:(discriminate) eq_refl Hr)).
Defined.

End Props.
