(* ===== verification/Cookie.v ===== *)
(** * Signed session cookies: express-session with cookie-signature

    [app.use(session({ secret: "Our little secret.", ... }))] (app.js
    lines 18-22) signs the session id it sends: express-session's
    [setcookie] writes [s:] followed by cookie-signature's
    [sign(id, secret)], that is the id, a dot, and the HMAC-SHA256 of
    the id under the secret in base64 without padding. On each request
    its [getcookie] reads the cookie back; a value without the [s:]
    prefix, or whose signature does not verify ([unsign] returns
    [false]), is ignored, and the request starts without a session.

    The HMAC and the string form of a session id (uid-safe's random
    base64url string) are the interface [Signer]; the theorems hold for
    every instance. [serve_http] is one request on the wire: the raw
    cookie in, [App.serve] on the id it names, the signed Set-Cookie
    out. [browse_http] is a browser that keeps the raw cookie.

    Theorems: [unsign] inverts [sign]; a cookie is accepted only when it
    is the signature of its value under the secret, so [GET /secrets]
    on the wire renders the page exactly for the signed id of a stored
    session with a user (C38); a browser on the wire sees the replies,
    and leaves the state, of the browser [Props.browse] (C39). The
    cookie header's encoding ([cookie.serialize] encodes with
    [encodeURIComponent] and [cookie.parse] decodes) gives back the
    value that was sent and is not modelled. *)

From Stdlib Require Import Ascii.
From S2P Require Import Prelude Store Credential Session Passport App Props.
Import Store Credential Session Passport App Props.

Module Cookie.

(** ** The primitives *)

Class Signer := {
  (** [crypto.createHmac('sha256', secret).update(val).digest('base64')]
      with the trailing [=] removed *)
  hmac_b64 : string -> string -> string;
  (** the base64 alphabet has no dot *)
  hmac_no_dot : forall key v, last_index_of "."%char (hmac_b64 key v) = None;
  (** the string of a session id, and the id a string names *)
  sid_string : nat -> string;
  sid_parse : string -> option nat;
  sid_parse_string : forall n, sid_parse (sid_string n) = Some n;
  sid_string_parse : forall v n, sid_parse v = Some n -> v = sid_string n
}.

(** The secret of app.js line 19. *)
Definition secret : string := "Our little secret.".

(** A concrete instance, for evaluating the definitions: the digest
    is a run of [a]s as long as the key and the value together, and the
    id [n] is written as [n] letters [a]. *)
Fixpoint a_count (v : string) : option nat :=
  match v with
  | EmptyString => Some 0
  | String c v' => if bool_decide (c = "a"%char) then option_map S (a_count v') else None
  end.

Program Definition demo_signer : Signer :=
  {| hmac_b64 := fun key v => a_string (String.length key + String.length v);
     sid_string := a_string;
     sid_parse := a_count |}.
Next Obligation.
  intros key v. simpl. induction (String.length key + String.length v) as [|n IH]; [reflexivity|]. change (a_string (S n)) with (String "a"%char (a_string n)).
  cbn [last_index_of]. rewrite IH. by rewrite bool_decide_eq_false_2.
Qed.
Next Obligation.
  intros n. induction n as [|n IH]; [done|]. change (a_string (S n)) with (String "a"%char (a_string n)).
  cbn [a_count]. rewrite IH. by rewrite bool_decide_eq_true_2.
Qed.
Next Obligation.
  intros v. induction v as [|c v IH]; intros n; cbn [a_count]; [by intros [= <-]|].
  case_bool_decide as Hc; [|done]. destruct (a_count v) as [m|] eqn:E; [|done].
  intros [= <-]. subst c. change (a_string (S m)) with (String "a"%char (a_string m)). by rewrite (IH m).
Qed.

Section Signing.
Context {sg : Signer}.

(** cookie-signature's [sign(val, secret)]. *)
Definition sign (val key : string) : string := val +:+ String "."%char (hmac_b64 key val).

(** cookie-signature's [unsign(input, secret)]: the value before the
    last dot ([input.slice(0, input.lastIndexOf('.'))], which drops the
    last character when there is no dot), returned when signing it
    gives the input back (the length check and [timingSafeEqual]). *)
Definition unsign (input key : string) : option string :=
  let tentative :=
    match last_index_of "."%char input with
    | Some i => String.substring 0 i input
    | None => String.substring 0 (String.length input - 1) input
    end in
  if bool_decide (sign tentative key = input) then Some tentative else None.

(** express-session's [getcookie] for [connect.sid] with one secret: a
    truthy value that starts with [s:] ([raw.substr(0, 2)]) and whose
    rest ([raw.slice(2)]) verifies; anything else is no session id. *)
Definition getcookie (raw : option string) : option string :=
  match raw with
  | Some r =>
      if String.prefix "s:" r then unsign (String.substring 2 (String.length r - 2) r) secret
      else None
  | None => None
  end.

(** express-session's [setcookie]: the value sent for a session id. *)
Definition signed_sid (k : nat) : string := "s:" +:+ sign (sid_string k) secret.

Context {kdf : Kdf} {prov : Provider}.

(** One request on the wire: the id the raw cookie names (a verified
    value that is no issued id names no stored session, and
    [store.get] finds nothing, as for no cookie), the request served,
    and the signed Set-Cookie. *)
Definition serve_http (s : Server) (st : Step) (raw : option string) : Server * (Reply * option string) :=
  let ck := match getcookie raw with Some v => sid_parse v | None => None end in
  let '(s', resp) := serve s (step_request st ck) in
  (s', (reply resp, option_map signed_sid (set_cookie resp))).

(** A browser on the wire: it sends the raw value of the last
    Set-Cookie it received. *)
Fixpoint browse_http (s : Server) (jar : option string) (steps : list Step)
  : Server * list (Reply * option string) :=
  match steps with
  | [] => (s, [])
  | st :: rest =>
      let r := serve_http s st jar in
      let jar' := match snd (snd r) with Some c => Some c | None => jar end in
      let b := browse_http (fst r) jar' rest in
      (fst b, snd r :: snd b)
  end.

End Signing.

(** ** Signing and reading a cookie *)

Section Lemmas.
Context {sg : Signer}.

(** Round trip of cookie-signature: [unsign] gives back the signed
    value, whatever the value and the key. *)
Lemma unsign_sign v key : unsign (sign v key) key = Some v.
Proof.
  unfold unsign, sign. rewrite last_index_of_app by apply hmac_no_dot.
  rewrite substring_app_length. by rewrite bool_decide_eq_true_2.
Qed.

(** [unsign] accepts a value only with its own signature. *)
Lemma unsign_Some input key v : unsign input key = Some v -> input = sign v key.
Proof. unfold unsign. case_bool_decide as H; [by intros [= <-] | done]. Qed.

Lemma substring_full r : String.substring 0 (String.length r) r = r.
Proof. induction r as [|c r IH]; simpl; [done | by rewrite IH]. Qed.

Lemma prefix_s_colon r :
  String.prefix "s:" r = true -> r = "s:" +:+ String.substring 2 (String.length r - 2) r.
Proof.
  destruct r as [|c1 [|c2 r]]; cbn [String.prefix]; [done | by destruct (Ascii.ascii_dec "s"%char c1) |].
  destruct (Ascii.ascii_dec "s"%char c1) as [<-|]; [|done].
  destruct (Ascii.ascii_dec ":"%char c2) as [<-|]; [|done].
  intros _. cbn [String.length String.substring String.append Nat.sub].
  by rewrite Nat.sub_0_r, substring_full.
Qed.

Lemma prefix_s_colon_app x : String.prefix "s:" ("s:" +:+ x) = true.
Proof. simpl. by destruct x. Qed.

Lemma slice_s_colon x : String.substring 2 (String.length ("s:" +:+ x) - 2) ("s:" +:+ x) = x.
Proof. simpl. rewrite Nat.sub_0_r. apply substring_full. Qed.

Lemma getcookie_signed k : getcookie (Some (signed_sid k)) = Some (sid_string k).
Proof.
  unfold getcookie, signed_sid. rewrite prefix_s_colon_app, slice_s_colon. apply unsign_sign.
Qed.

(** A cookie is read only when it is the [s:]-prefixed signature of its
    value under the secret. *)
Lemma getcookie_Some raw v : getcookie raw = Some v -> raw = Some ("s:" +:+ sign v secret).
Proof.
  destruct raw as [r|]; simpl; [|done].
  destruct (String.prefix "s:" r) eqn:E; [|done]. intros H%unsign_Some.
  rewrite (prefix_s_colon r E) at 1. by rewrite H.
Qed.

(** The session id a raw cookie names. *)
Lemma cookie_sid_Some raw k :
  match getcookie raw with Some v => sid_parse v | None => None end = Some k <-> raw = Some (signed_sid k).
Proof.
  split.
  - destruct (getcookie raw) as [v|] eqn:E; [|done]. intros Hp.
    apply getcookie_Some in E. rewrite E. unfold signed_sid. by rewrite <- (sid_string_parse v k Hp).
  - intros ->. by rewrite getcookie_signed, sid_parse_string.
Qed.

Context {kdf : Kdf} {prov : Provider}.

(** A browser on the wire whose jar holds the signed form of an id
    sends a request that [App.serve] sees with that id. *)
Lemma serve_http_signed s st jar :
  serve_http s st (option_map signed_sid jar) =
  (fst (serve s (step_request st jar)),
   (reply (snd (serve s (step_request st jar))),
    option_map signed_sid (set_cookie (snd (serve s (step_request st jar)))))).
Proof.
  unfold serve_http. destruct jar as [k|]; cbn [option_map];
    [rewrite getcookie_signed, sid_parse_string | cbn [getcookie]];
    by destruct (serve s _).
Qed.

Lemma jar_signed (c jar : option nat) :
  match option_map signed_sid c with Some x => Some x | None => option_map signed_sid jar end =
  option_map signed_sid (match c with Some k => Some k | None => jar end).
Proof. by destruct c. Qed.

End Lemmas.

(** ** The properties *)

Section Claims.
Context {sg : Signer} {kdf : Kdf} {prov : Provider}.

(** C38. The access gate on the wire: [GET /secrets] renders the
    protected page exactly when the raw cookie is [s:] followed by the
    signature, under the secret of line 19, of the id of a stored
    session that holds a user. A cookie that is unsigned, or signed
    with another key, or whose signature is altered, is redirected to
    /login. The secret is a literal of the source, so whoever reads it
    can sign any id: the signature adds nothing to the unguessability
    of the id. *)
Theorem http_secrets_gate s raw b q :
  fst (snd (serve_http s (mkStep GET "/secrets" b q) raw)) = Render "secrets.ejs" <->
  exists k p, raw = Some (signed_sid k) /\ store (sess s) !! k = Some (Some p).
Proof.
  unfold serve_http, step_request. cbn [s_method s_path s_body s_query].
  rewrite get_secrets_serve. cbn [fst snd reply].
  destruct (match getcookie raw with Some v => sid_parse v | None => None end) as [k|] eqn:E.
  - split.
    + destruct (store (sess s) !! k) as [[p|]|] eqn:Hs; [|done | done].
      intros _. exists k, p. split; [by apply cookie_sid_Some | done].
    + intros (k' & p & Hr & Hs). apply cookie_sid_Some in Hr. rewrite Hr in E. injection E as ->.
      by rewrite Hs.
  - split; [done|]. intros (k & p & Hr & _). apply cookie_sid_Some in Hr. congruence.
Qed.

(** C39. The wire refines the development's browser: a browser that
    sends back the raw value of the last Set-Cookie, started with the
    signed form of an id (or with no cookie), gets the replies of
    [Props.browse] started with that id, and leaves the same state,
    for every sequence of requests. The signed cookie carries the
    session id there and back unchanged. *)
Theorem browse_http_equiv s jar steps :
  fst (browse_http s (option_map signed_sid jar) steps) = fst (browse s jar steps) /\
  map fst (snd (browse_http s (option_map signed_sid jar) steps)) = replies s jar steps.
Proof.
  revert s jar. induction steps as [|st rest IH]; intros s jar; [done|].
  cbn [browse_http]. rewrite serve_http_signed. cbn [fst snd map]. rewrite jar_signed.
  destruct (IH (fst (serve s (step_request st jar)))
               (match set_cookie (snd (serve s (step_request st jar))) with
                | Some k => Some k | None => jar end)) as [H1 H2].
  rewrite H1, H2, replies_cons, browse_fst_cons. done.
Qed.

End Claims.

(** On the wire, with [demo_signer]: the cookie that a [POST /login]
    sets opens the protected page, and the same id under another
    signature does not. *)
Lemma wire_forgery_example :
  let r1 := @serve_http demo_signer demo_kdf demo_provider server0
              (mkStep POST "/login" (mkBody (Some "mallory") (Some "x") None) QNone) None in
  fst (snd (@serve_http demo_signer demo_kdf demo_provider (fst r1)
              (mkStep GET "/secrets" (mkBody None None None) QNone) (snd (snd r1)))) = Render "secrets.ejs" /\
  fst (snd (@serve_http demo_signer demo_kdf demo_provider (fst r1)
              (mkStep GET "/secrets" (mkBody None None None) QNone) (Some "s:aa.forged"))) = Redirect "/login".
Proof. vm_compute. split; reflexivity. Qed.

End Cookie.
