(* ===== verification/Interleaving.v ===== *)
(** * Concurrent requests: the handlers split at their waits

    Node runs every handler on one thread, and a handler runs without
    interruption until it waits for an asynchronous operation. The
    other requests run meanwhile. The scheduling points of a request of
    app.js are:
    - its arrival: body-parser reads the body and [express.static]
      stats [public/<path>] before anything touches the shared state;
    - the session store, [MemoryStore] of express-session: [get],
      [set] and [destroy] read or write the map of sessions when they
      are called and call back through [setImmediate];
    - MongoDB: a query or an insert takes effect when the server runs
      it, and its callback runs after it (the model puts the effect at
      the end of the wait, in the segment of the callback);
    - [crypto.randomBytes] and [crypto.pbkdf2] of passport-local-mongoose,
      which run on the thread pool;
    - the two HTTPS requests of passport-oauth2 to Google (the token and
      the userinfo endpoints), which touch no shared state and are one
      wait.
    [process.nextTick] callbacks ([serializeUser], [deserializeUser])
    and promise continuations run before the event loop takes another
    callback, so they are not scheduling points.

    Each operation of the sequential model has a resumption here,
    written from the same lines with the waits put in: [register_c],
    [setPassword_c], [verify_local_c], [findOrCreate_c],
    [local_strategy_c], [google_verify_c], [google_strategy_c],
    [regenerate_c], [logIn_c], [logOut_c], [begin_request_c],
    [authenticate_c], the handlers, [route_c] and [handle_c].

    A [World] is the server and the requests in flight. Each request
    keeps its own session context ([req.session] and the hashes of
    express-session) in its [Thread]; the store, the collection, the
    id sources and the console are shared. [wstep] starts a request,
    runs the next segment of one request in flight (its context is
    installed in the server for the segment, [with_ctx]), or changes
    the connection of the collection. A request whose callback threw
    ([crashed_thread]) ends the process: once the world is not
    [alive], no step applies and [schedule] leaves it as it is.

    Theorems:
    - every resumption run alone computes its sequential operation
      ([handle_c_runs]), so a request alone in the server goes through
      the interleaving to the response and the state of [serve]
      ([serve_alone]);
    - every request sends its response after at most ten segments of
      its own, whatever the others do ([requests_finish], C12, from
      the bounds [within] of each resumption);
    - a [GET /secrets] in flight answers from the session it loaded
      on arrival, whatever runs before its [store.get] callback: a
      logout does not stop it ([secrets_in_flight], C28);
    - on every collection with no document for a new Google profile
      and none without username, two callbacks for that profile whose
      [findOne]s both run before either [save] end with the first
      logged in, the second answered 500, and one new document
      ([concurrent_google_race], C31, on the schedule [google_race]);
    - by a rely-guarantee argument over the segments ([rsafe] of
      [Resumption]), no interleaving stores a user again under a
      session id that holds none, unless a request in flight has
      regenerated its session into that id: a logout, or the
      destruction of the presented session by a login, is not undone
      by a request that loaded the session before it
      ([logout_not_undone], C15). *)

From S2P Require Import Prelude Resumption Store Credential Session Passport App.
Import Store Credential Session Passport App.

Module Interleaving.

Section Programs.
Context {kdf : Kdf} {prov : Provider}.

Local Open Scope res_scope.

(** ** The collection *)

(** mongoose-findorcreate: [findOne], and in its callback [new
    self(conditions)] and [save]. *)
Definition findOrCreate_c (g : string) : Res Db (result MongoError Doc) :=
  found <- await (findOne (field_is googleId g)) ;;
  match found with
  | Err e => ret (Err e)
  | Ok (Some d) => ret (Ok d)
  | Ok None =>
      oid <- lift new_oid ;;
      await (save (mkDoc oid None (Some g) None None None))
  end.

(** ** passport-local-mongoose *)

(** [setPassword]: the falsy password is refused at once; then
    [randomBytes] and [pbkdf2] run on the thread pool. *)
Definition setPassword_c (d : Doc) (password : option string) : Res Accounts (result PlmError Doc) :=
  match truthy_val password with
  | None => ret (Err MissingPasswordError)
  | Some pw =>
      s <- await draw_salt ;;
      wait ;;
      ret (Ok (mkDoc (_id d) (username d) (googleId d) (Store.password d)
                     (Some s) (Some (pbkdf2 pw s))))
  end.

(** [User.register]: the document is built when it is called; the
    promise chain then waits for [findByUsername], [setPassword] and
    [save]. *)
Definition register_c (u : option string) (password : option string) : Res Accounts (result PlmError Doc) :=
  oid <- lift (zoom db_lens new_oid) ;;
  let d := mkDoc oid u None None None None in
  match truthy_val u with
  | None => ret (Err MissingUsernameError)
  | Some name =>
      existing <- await (zoom db_lens (findByUsername name)) ;;
      match existing with
      | Err e => ret (Err (DbError e))
      | Ok (Some _) => ret (Err UserExistsError)
      | Ok None =>
          r <- setPassword_c d password ;;
          match r with
          | Err e => ret (Err e)
          | Ok d' =>
              saved <- await (zoom db_lens (save d')) ;;
              match saved with
              | Ok d'' => ret (Ok d'')
              | Err e => ret (Err (DbError e))
              end
          end
      end
  end.

(** The verify function: [findByUsername], then [user.authenticate],
    which answers at once without a salt and otherwise after [pbkdf2]. *)
Definition verify_local_c (u pw : string) : Res Accounts Verified :=
  found <- await (zoom db_lens (findByUsername u)) ;;
  match found with
  | Err _ => ret VError
  | Ok None => ret (VFail IncorrectUsernameError)
  | Ok (Some d) =>
      match truthy_val (salt d) with
      | None => ret (Credential.authenticate d pw)
      | Some _ => wait ;; ret (Credential.authenticate d pw)
      end
  end.

(** ** The strategies *)

Definition local_strategy_c (b : Body) (q : Query) : Res Accounts Outcome :=
  match credential (b_username b) (q_username q), credential (b_password b) (q_password q) with
  | Some u, Some pw =>
      v <- verify_local_c u pw ;;
      ret (match v with
           | VOk d => Success d
           | VFail _ => Fail None
           | VError => Error 500
           | VThrow => Crash
           end)
  | _, _ => ret (Fail (Some 400))
  end.

Definition google_verify_c (profile_id : string) : Res Server Outcome :=
  lift (console_log (LogProfile profile_id)) ;;
  r <- res_zoom acc_lens (res_zoom db_lens (findOrCreate_c profile_id)) ;;
  ret (match r with Ok d => Success d | Err _ => Error 500 end).

(** The token exchange and the userinfo request are one wait. *)
Definition google_strategy_c (q : Query) (scope : list string) : Res Server Outcome :=
  match truthy_val (q_error q) with
  | Some e => ret (if bool_decide (e = "access_denied") then Fail None else Error (authz_status e))
  | None =>
      match truthy_val (q_code q) with
      | Some code =>
          wait ;;
          match exchange code with
          | Some profile_id => google_verify_c profile_id
          | None => ret (Error 500)
          end
      | None => ret (RedirectAuth scope)
      end
  end.

(** ** The session *)

(** [req.session.regenerate()]: [store.destroy] of the current id,
    and, in its callback, the store's [generate]. *)
Definition regenerate_c : Res Sess unit :=
  lift (c <- get_ctx ;; store_destroy (sid c))%st ;;
  wait ;;
  lift (c <- get_ctx ;;
        k <- gen_sid (cookie c) ;;
        set_ctx (mkCtx (cookie c) k None (user c) (orig_id c) (orig_data c) (saved c) false))%st.

(** [req.session.save()]: [store.set], then its callback. *)
Definition save_session_c : Res Sess unit :=
  lift save_session ;; wait.

(** [req.login] (passport 0.6 [SessionManager.logIn]): regenerate,
    then [serializeUser] (a [nextTick]), then save. *)
Definition logIn_c (u : ReqUser) (p : Payload) : Res Sess unit :=
  lift (c <- get_ctx ;; set_ctx (ctx_set_user (Some u) c))%st ;;
  regenerate_c ;;
  lift (c' <- get_ctx ;; set_ctx (ctx_set_data (Some p) c'))%st ;;
  save_session_c.

(** [req.logout] (passport 0.6 [SessionManager.logOut]): save the
    session without its user, then regenerate. *)
Definition logOut_c : Res Sess unit :=
  lift (c <- get_ctx ;; set_ctx (ctx_set_user None (ctx_set_data None c)))%st ;;
  save_session_c ;;
  regenerate_c.

(** The session middleware: with a cookie, [store.get] reads the map
    when called and calls back later; without one, a new session is
    generated at once. *)
Definition begin_request_c (ck : option nat) : Res Sess unit :=
  lift (begin_request ck) ;;
  match ck with
  | None => ret tt
  | Some _ => wait
  end.

(** ** The handlers *)

Definition authenticate_c (o : Outcome) (failureRedirect : option string)
    (next : option nat -> Res Server Reply) : Res Server Reply :=
  match o with
  | Success d => res_zoom sess_lens (logIn_c (UDoc d) (serializeUser d)) ;; next None
  | Fail st =>
      match failureRedirect with
      | Some url => ret (Redirect url)
      | None => ret (Status (default 401 st))
      end
  | Error st => next (Some st)
  | Crash => ret Crashed
  | RedirectAuth scope => ret (RedirectProvider scope)
  end.

Definition express_next_c (h : Res Server Reply) (e : option nat) : Res Server Reply :=
  match e with
  | None => h
  | Some st => ret (Status st)
  end.

Definition get_auth_google_c (q : Query) : Res Server Reply :=
  o <- google_strategy_c q ["profile"] ;;
  authenticate_c o None (express_next_c (ret (Status 404))).

Definition get_auth_google_secrets_c (q : Query) : Res Server Reply :=
  o <- google_strategy_c q [] ;;
  authenticate_c o (Some "/login") (express_next_c (ret (Redirect "/secrets"))).

Definition post_register_c (b : Body) (q : Query) : Res Server Reply :=
  r <- res_zoom acc_lens (register_c (b_username b) (b_password b)) ;;
  match r with
  | Err e =>
      lift (console_log (LogError e) ;;
            console_log (LogValue (b_password b)) ;;
            ret (Redirect "/register"))%st
  | Ok _ =>
      o <- res_zoom acc_lens (local_strategy_c b q) ;;
      authenticate_c o None (fun _ => ret (Redirect "/secrets"))
  end.

Definition post_login_c (b : Body) (q : Query) : Res Server Reply :=
  oid <- lift (zoom acc_lens (zoom db_lens new_oid)) ;;
  let u := mkDoc oid (b_username b) None (b_password b) None None in
  res_zoom sess_lens (logIn_c (UDoc u) (serializeUser u)) ;;
  o <- res_zoom acc_lens (local_strategy_c b q) ;;
  authenticate_c o None (fun _ => ret (Redirect "/secrets")).

Definition get_logout_c : Res Server Reply :=
  res_zoom sess_lens logOut_c ;;
  ret (Redirect "/").

(** The route table; the handlers that do not wait run as one segment. *)
Definition route_c (rq : Request) : Res Server Reply :=
  match method rq with
  | GET =>
      if bool_decide (path rq = "/") then lift get_root
      else if bool_decide (path rq = "/auth/google") then get_auth_google_c (query rq)
      else if bool_decide (path rq = "/auth/google/secrets") then get_auth_google_secrets_c (query rq)
      else if bool_decide (path rq = "/login") then lift get_login
      else if bool_decide (path rq = "/register") then lift get_register
      else if bool_decide (path rq = "/secrets") then lift get_secrets
      else if bool_decide (path rq = "/logout") then get_logout_c
      else if bool_decide (path rq = "/submit") then lift get_submit
      else ret (Status 404)
  | POST =>
      if bool_decide (path rq = "/register") then post_register_c (body rq) (query rq)
      else if bool_decide (path rq = "/login") then post_login_c (body rq) (query rq)
      else if bool_decide (path rq = "/submit") then lift (post_submit (body rq))
      else ret (Status 404)
  end.

(** A request after its arrival: the static middleware, the session
    middleware, the route, and the end of the response, whose
    [store.set] is made when [res.end] is called; none when the
    process exited during the route. *)
Definition handle_c (rq : Request) : Res Server Response :=
  if match method rq with GET => bool_decide (path rq ∈ public_files) | POST => false end
  then ret (mkResponse (SendFile (path rq)) None)
  else (res_zoom sess_lens (begin_request_c (req_cookie rq)) ;;
        r <- route_c rq ;;
        if is_crashed r then ret (mkResponse r None)
        else (ck <- lift (zoom sess_lens end_request) ;;
              ret (mkResponse r ck))).

End Programs.

(** ** Requests in flight *)

(** A request in flight: its session context and the rest of its
    handler. *)
Record Thread := mkThread {
  t_ctx : Ctx;
  t_node : Node Server Response
}.

Record World := mkWorld {
  w_srv : Server;
  w_threads : list Thread
}.

(** The server as a request's segment sees it: the shared state with
    the request's context. *)
Definition with_ctx (c : Ctx) (s : Server) : Server :=
  mkServer (accounts s) (mkSess (store (sess s)) (next_sid (sess s)) c) (console s).

(** The context of a request that has no session yet, as at start-up. *)
Definition ctx_new : Ctx := mkCtx None 0 None None 0 None (Some None) true.

(** A request that has arrived and waits for its body and the static
    middleware. *)
Definition arrive {kdf : Kdf} {prov : Provider} (rq : Request) : Node Server Response :=
  NWait (handle_c rq).

(** The next segment of a request in flight, if it has one. *)
Definition run_thread (t : Thread) (s : Server) : option (Thread * Server) :=
  match t_node t with
  | NDone _ => None
  | NWait m => let (n', s') := m (with_ctx (t_ctx t) s) in Some (mkThread (ctx (sess s')) n', s')
  end.

Definition finished (t : Thread) : bool :=
  match t_node t with NDone _ => true | NWait _ => false end.

(** A request during which the process exited. *)
Definition crashed_thread (t : Thread) : bool :=
  match t_node t with NDone r => is_crashed (reply r) | NWait _ => false end.

(** The process runs: no request has made it exit. *)
Definition alive (w : World) : bool :=
  forallb (fun t => negb (crashed_thread t)) (w_threads w).

(** While the process runs: a request arrives (its session middleware
    will replace its context), a request in flight runs its next
    segment, or the connection of the collection changes. *)
Inductive wstep {kdf : Kdf} {prov : Provider} : World -> World -> Prop :=
| ws_arrive w rq :
    alive w = true ->
    wstep w (mkWorld (w_srv w) (w_threads w ++ [mkThread ctx_new (arrive rq)]))
| ws_run w i t t' s' :
    alive w = true -> w_threads w !! i = Some t -> run_thread t (w_srv w) = Some (t', s') ->
    wstep w (mkWorld s' (<[i := t']> (w_threads w)))
| ws_conn w b :
    alive w = true ->
    wstep w (mkWorld (set_connected b (w_srv w)) (w_threads w)).

(** The worlds reached from either start-up. *)
Inductive wreach {kdf : Kdf} {prov : Provider} : World -> Prop :=
| wreach_init b : wreach (mkWorld (boot b) [])
| wreach_step w w' : wreach w -> wstep w w' -> wreach w'.

(** A schedule, for evaluating interleavings: a request arrives, the
    request at a position runs its next segment (nothing happens if it
    has finished), or the connection changes; nothing happens once the
    process has exited. *)
Inductive Event :=
| EArrive (rq : Request)
| ERun (i : nat)
| EConn (b : bool).

Definition wstep_ev {kdf : Kdf} {prov : Provider} (e : Event) (w : World) : World :=
  if negb (alive w) then w else
  match e with
  | EArrive rq => mkWorld (w_srv w) (w_threads w ++ [mkThread ctx_new (arrive rq)])
  | ERun i =>
      match w_threads w !! i with
      | Some t =>
          match run_thread t (w_srv w) with
          | Some (t', s') => mkWorld s' (<[i := t']> (w_threads w))
          | None => w
          end
      | None => w
      end
  | EConn b => mkWorld (set_connected b (w_srv w)) (w_threads w)
  end.

Definition schedule {kdf : Kdf} {prov : Provider} (es : list Event) (w : World) : World :=
  foldl (fun w e => wstep_ev e w) w es.

(** The reply a request in flight has sent, once it has finished. *)
Definition reply_of (t : Thread) : option Response :=
  match t_node t with NDone r => Some r | NWait _ => None end.

(** A schedule used by the examples: alice registers (her session
    id is 2), a [GET /secrets] with her cookie loads her session and
    waits, and a [GET /logout] with the same cookie runs to its end. *)
Definition logout_race : list Event :=
  [EArrive (mkRequest POST "/register" (mkBody (Some "alice") (Some "pw123") None) QNone None)] ++
  repeat (ERun 0) 12 ++
  [EArrive (mkRequest GET "/secrets" (mkBody None None None) QNone (Some 2)); ERun 1;
   EArrive (mkRequest GET "/logout" (mkBody None None None) QNone (Some 2))] ++
  repeat (ERun 2) 6.

(** Two Google callbacks with the same code and no cookie arrive, and
    their segments alternate: both [findOne]s of [findOrCreate] run
    before either [save]. *)
Definition google_race (code : string) : list Event :=
  let rq := mkRequest GET "/auth/google/secrets" (mkBody None None None) (QCode code) None in
  [EArrive rq; EArrive rq; ERun 0; ERun 1; ERun 0; ERun 1; ERun 0; ERun 1; ERun 0; ERun 1; ERun 0; ERun 0].

(** A stored session holds a user under the id [k]. *)
Definition holds_user (k : nat) (s : Server) : Prop :=
  exists p, store (sess s) !! k = Some (Some p).

(** ** The invariant of the interleaving *)

(** The ids of a context were issued, and a context whose session was
    not regenerated has no user, or holds what the store held when it
    was loaded ([savedHash] set). *)
Definition ctx_inv (n : nat) (c : Ctx) : Prop :=
  sid c < n /\ orig_id c < n /\ (sid c = orig_id c -> data c = None \/ saved c = Some (data c)).

(** The shared part: every stored id was issued. *)
Definition shared_inv (ss : Sess) : Prop :=
  0 < next_sid ss /\ map_Forall (fun k _ => k < next_sid ss) (store ss).

Definition sess_inv (ss : Sess) : Prop := shared_inv ss /\ ctx_inv (next_sid ss) (ctx ss).

(** The id [k] was issued, holds no user, and the running request has
    not regenerated its session into it. *)
Definition keeps_out (k : nat) (ss : Sess) : Prop :=
  k < next_sid ss /\ (forall p, store ss !! k <> Some (Some p)) /\
  (sid (ctx ss) = k -> orig_id (ctx ss) = k).

(** What a segment guarantees to the other requests: ids are only
    issued, and an id kept out stays so. *)
Definition sess_guar (ss ss' : Sess) : Prop :=
  next_sid ss <= next_sid ss' /\ forall k, keeps_out k ss -> keeps_out k ss'.

(** How a segment may change the context's ids: to a new id, to an
    untouched session, or not at all. *)
Definition ctx_follows (n : nat) (c c' : Ctx) : Prop :=
  sid c' = orig_id c' \/ n <= sid c' \/ (sid c' = sid c /\ orig_id c' = orig_id c).

(** The local facts a request knows between its segments: its
    session was regenerated, or it holds no user unless regenerated. *)
Definition regen (c : Ctx) : Prop := sid c <> orig_id c.
Definition clean (c : Ctx) : Prop := data c = None \/ sid c <> orig_id c.

(** The same on the server. *)
Definition sloc (s : Server) : Ctx := ctx (sess s).
Definition sinv (s : Server) : Prop := sess_inv (sess s).
Definition sguar (s s' : Server) : Prop := sess_guar (sess s) (sess s').

(** A resumption on the server all of whose segments keep the
    invariant and satisfy the guarantee, from any context. *)
Definition vsafe {A} (r : Res Server A) : Prop :=
  rsafe sloc sinv sguar (fun _ => True) r (fun _ _ => True).

Definition thread_ok (s : Server) (t : Thread) : Prop :=
  finished t = true \/
  (ctx_inv (next_sid (sess s)) (t_ctx t) /\ nsafe sloc sinv sguar (fun _ _ => True) (t_ctx t) (t_node t)).

Definition world_inv (w : World) : Prop :=
  shared_inv (sess (w_srv w)) /\ Forall (thread_ok (w_srv w)) (w_threads w).

#[export] Instance sess_guar_refl : Reflexive sess_guar.
Proof. intros ss. split; [lia|done]. Qed.

#[export] Instance sess_guar_trans : Transitive sess_guar.
Proof. intros a b c [? Hab] [? Hbc]. split; [lia|auto]. Qed.

#[export] Instance sguar_refl : Reflexive sguar.
Proof. intros s. apply sess_guar_refl. Qed.

#[export] Instance sguar_trans : Transitive sguar.
Proof. intros a b c. apply sess_guar_trans. Qed.

(** The id [k] was issued, holds no user, and no request in flight
    has regenerated its session into it. *)
Definition world_keeps (k : nat) (w : World) : Prop :=
  k < next_sid (sess (w_srv w)) /\ ~ holds_user k (w_srv w) /\
  Forall (fun t => finished t = false -> sid (t_ctx t) = k -> orig_id (t_ctx t) = k) (w_threads w).

(** ** Each resumption computes its sequential operation *)

Section Runs.
Context {kdf : Kdf} {prov : Provider}.

Lemma findOrCreate_c_runs g : runs (findOrCreate_c g) (findOrCreate g).
Proof. unfold findOrCreate_c, findOrCreate. runs_tac. Qed.

Lemma setPassword_c_runs d pw : runs (setPassword_c d pw) (setPassword d pw).
Proof. unfold setPassword_c, setPassword. runs_tac. Qed.

Lemma register_c_runs u pw : runs (register_c u pw) (register u pw).
Proof.
  unfold register_c, register. runs_tac; apply setPassword_c_runs.
Qed.

Lemma verify_local_c_runs u pw : runs (verify_local_c u pw) (verify_local u pw).
Proof. unfold verify_local_c, verify_local. runs_tac. Qed.

Lemma local_strategy_c_runs b q : runs (local_strategy_c b q) (local_strategy b q).
Proof. unfold local_strategy_c, local_strategy. runs_tac; apply verify_local_c_runs. Qed.

Lemma google_verify_c_runs pid : runs (google_verify_c pid) (google_verify pid).
Proof. unfold google_verify_c, google_verify. runs_tac. apply findOrCreate_c_runs. Qed.

Lemma google_strategy_c_runs q sc : runs (google_strategy_c q sc) (google_strategy q sc).
Proof. unfold google_strategy_c, google_strategy. runs_tac. apply google_verify_c_runs. Qed.

Lemma regenerate_c_runs : runs regenerate_c regenerate.
Proof. eapply runs_ext; [unfold regenerate_c; runs_tac|]. done. Qed.

Lemma save_session_c_runs : runs save_session_c save_session.
Proof. apply runs_seq_wait, runs_lift. Qed.

Lemma logIn_c_runs u p : runs (logIn_c u p) (logIn u p).
Proof.
  eapply runs_ext; [unfold logIn_c; runs_tac; [apply regenerate_c_runs|apply save_session_c_runs]|].
  done.
Qed.

Lemma logOut_c_runs : runs logOut_c logOut.
Proof.
  eapply runs_ext; [unfold logOut_c; runs_tac; [apply save_session_c_runs|apply regenerate_c_runs]|].
  done.
Qed.

Lemma begin_request_c_runs ck : runs (begin_request_c ck) (begin_request ck).
Proof.
  unfold begin_request_c. destruct ck; [apply runs_seq_wait|apply runs_seq_ret]; apply runs_lift.
Qed.

Lemma authenticate_c_runs o fr nc n :
  (forall e, runs (nc e) (n e)) -> runs (authenticate_c o fr nc) (authenticate o fr n).
Proof. intros Hn. unfold authenticate_c, authenticate. runs_tac; [apply logIn_c_runs|done..]. Qed.

Lemma express_next_c_runs hc h e : runs hc h -> runs (express_next_c hc e) (express_next h e).
Proof. intros Hh. destruct e; [apply runs_ret | exact Hh]. Qed.

Lemma route_c_runs rq : runs (route_c rq) (route rq).
Proof.
  unfold route_c, route, get_auth_google_c, get_auth_google, get_auth_google_secrets_c,
    get_auth_google_secrets, post_register_c, post_register, post_login_c, post_login,
    get_logout_c, get_logout.
  runs_tac; first [apply google_strategy_c_runs | apply register_c_runs | apply local_strategy_c_runs
                  | apply logIn_c_runs | apply logOut_c_runs
                  | apply authenticate_c_runs; intros e; cbv beta; try apply express_next_c_runs; runs_tac].
Qed.

Lemma handle_c_runs rq : runs (handle_c rq) (handle rq).
Proof.
  unfold handle_c, handle. runs_tac; first [apply begin_request_c_runs|apply route_c_runs].
Qed.

(** ** A request alone *)

Lemma with_ctx_same s : with_ctx (ctx (sess s)) s = s.
Proof. by destruct s as [a [st n c] co]. Qed.

Lemma begin_request_ctx ck c ss :
  begin_request ck (mkSess (store ss) (next_sid ss) c) = begin_request ck ss.
Proof.
  unfold begin_request, st_bind, st_get. cbn [store next_sid].
  destruct ck as [k|]; [destruct (store ss !! k)|]; unfold set_ctx, generate, gen_sid, st_bind; done.
Qed.

(** A request's first segment does not read the context it starts
    with. *)
Lemma handle_with_ctx rq c s : handle rq (with_ctx c s) = handle rq s.
Proof.
  unfold handle. rewrite static_miss. unfold st_bind at 1 3, zoom at 1 3. cbn [view update sess_lens with_ctx sess].
  by rewrite begin_request_ctx.
Qed.

Lemma run_alone n nd s a s' :
  run_node n nd s = (Some a, s') ->
  rtc wstep (mkWorld s [mkThread (ctx (sess s)) nd]) (mkWorld s' [mkThread (ctx (sess s')) (NDone a)]).
Proof.
  revert nd s. induction n as [|n IH]; intros [b|m] s H; cbn in H; unfold st_ret in H.
  - by simplify_eq.
  - done.
  - by simplify_eq.
  - unfold st_bind in H. destruct (m s) as [nd' s1] eqn:Em.
    eapply rtc_l; [|by apply IH].
    apply (ws_run (mkWorld s [mkThread (ctx (sess s)) (NWait m)]) 0 (mkThread (ctx (sess s)) (NWait m)) (mkThread (ctx (sess s1)) nd') s1); [done|done|].
    unfold run_thread. cbn [t_node t_ctx w_srv]. by rewrite with_ctx_same, Em.
Qed.

(** A request alone in the server, started in the interleaving
    semantics and run segment by segment with nothing in between, ends
    with the response and the server state of the sequential [serve]:
    splitting the handlers at their waits changes nothing for a
    request alone. *)
Lemma serve_alone s rq :
  rtc wstep (mkWorld s [])
    (mkWorld (fst (serve s rq)) [mkThread (ctx (sess (fst (serve s rq)))) (NDone (snd (serve s rq)))]).
Proof.
  destruct (handle_c_runs rq (with_ctx ctx_new s)) as [n Hn].
  rewrite handle_with_ctx in Hn. unfold serve. destruct (handle rq s) as [resp s'] eqn:Eh. cbn in Hn |- *.
  unfold run, st_bind in Hn. destruct (handle_c rq (with_ctx ctx_new s)) as [nd s1] eqn:Ec.
  eapply rtc_l; [by apply (ws_arrive (mkWorld s []) rq)|]. cbn [w_srv w_threads app].
  eapply rtc_l; [|by apply (run_alone n)].
  apply (ws_run (mkWorld s [mkThread ctx_new (arrive rq)]) 0 (mkThread ctx_new (arrive rq))
           (mkThread (ctx (sess s1)) nd) s1); [done|done|].
  unfold run_thread, arrive. cbn [t_node t_ctx w_srv]. by rewrite Ec.
Qed.

End Runs.

(** ** The guarantee and the invariant, operation by operation *)

Lemma ctx_inv_mono n n' c : ctx_inv n c -> n <= n' -> ctx_inv n' c.
Proof. intros (? & ? & ?) ?. split_and!; [lia|lia|done]. Qed.

(** The context changes as [ctx_follows] allows, and the store keeps
    out every id it kept out. *)
Lemma guar_intro st st' n n' c c' :
  n <= n' -> ctx_follows n c c' ->
  (forall k, k < n -> (forall p, st !! k <> Some (Some p)) -> (sid c = k -> orig_id c = k) ->
     forall p, st' !! k <> Some (Some p)) ->
  sess_guar (mkSess st n c) (mkSess st' n' c').
Proof.
  intros Hn Hf Hst. split; [done|]. intros k (Hk & Hu & Hc). unfold keeps_out. cbn in *.
  split_and!; [lia|by apply Hst|].
  destruct Hf as [E|[E|[E1 E2]]]; intros Hs.
  - by rewrite <- E.
  - lia.
  - rewrite E2. apply Hc. by rewrite <- E1.
Qed.

(** A write keeps out every id kept out when it writes no user, or
    writes under the id of a regenerated session. *)
Lemma store_insert_keeps (st : gmap nat SessData) k (v : SessData) c :
  (forall p, v = Some p -> k = sid c /\ sid c <> orig_id c) ->
  forall k', (forall p, st !! k' <> Some (Some p)) -> (sid c = k' -> orig_id c = k') ->
  forall p, <[k := v]> st !! k' <> Some (Some p).
Proof.
  intros Hv k' Hu Hc p. rewrite lookup_insert_Some. intros [[-> ->]|[_ H]]; [|by eapply Hu].
  destruct (Hv p eq_refl) as [-> Hne]. by apply Hne, eq_sym, Hc.
Qed.

Lemma store_delete_keeps (st : gmap nat SessData) k k' :
  (forall p, st !! k' <> Some (Some p)) -> forall p, delete k st !! k' <> Some (Some p).
Proof. intros Hu p. rewrite lookup_delete_Some. intros [_ H]. by eapply Hu. Qed.

Lemma shared_inv_intro st st' n n' c c' :
  n <= n' -> (forall k v, st' !! k = Some v -> st !! k = Some v \/ k < n') ->
  shared_inv (mkSess st n c) -> shared_inv (mkSess st' n' c').
Proof.
  intros Hn Hst [H0 Hm]. unfold shared_inv. cbn in *. split; [lia|]. intros k v Hk.
  destruct (Hst k v Hk) as [H|H]; [|done]. specialize (Hm k v H). cbn in Hm. lia.
Qed.

Lemma generate_post ck st n c :
  shared_inv (mkSess st n c) ->
  sess_inv (snd (generate ck (mkSess st n c))) /\ sess_guar (mkSess st n c) (snd (generate ck (mkSess st n c))).
Proof.
  intros Hsh. pose proof (next_id_ge ck n). unfold generate, gen_sid, set_ctx, st_bind. cbn. split.
  - split; [eapply shared_inv_intro; [|naive_solver|done]; lia|]. unfold ctx_inv. cbn. split_and!; [lia|lia|by left].
  - apply guar_intro; [lia|by left|naive_solver].
Qed.

(** ** The session's segments *)

Section SessSegments.
Local Notation ssafe := (rsafe ctx sess_inv sess_guar).

Lemma begin_request_safe ck : ssafe (fun _ => True) (lift (begin_request ck)) (fun _ _ => True).
Proof.
  apply rsafe_lift. intros [st n c] [Hsh Hci] _.
  unfold begin_request, st_bind, st_get. cbn [store next_sid ctx].
  destruct ck as [k|]; [destruct (st !! k) as [dat|] eqn:E|];
    try (destruct (generate_post (Some k) st n c Hsh); split_and!; done);
    try (destruct (generate_post None st n c Hsh); split_and!; done).
  destruct Hsh as [H0 Hm]. pose proof (Hm k dat E) as Hk. cbn in Hk. unfold set_ctx. cbn.
  split_and!; [split; [by split|]| |done].
  - unfold ctx_inv. cbn. split_and!; [lia|lia|by right].
  - apply guar_intro; [lia|by left|naive_solver].
Qed.

Lemma set_user_safe u :
  ssafe (fun _ => True) (lift (c <- get_ctx ;; set_ctx (ctx_set_user u c))%st) (fun _ _ => True).
Proof.
  apply rsafe_lift. intros [st n c] [Hsh Hci] _. unfold set_ctx, get_ctx, st_gets, st_bind, ctx_set_user, ctx_set_data. cbn in *.
  split_and!; [done| |done]. apply guar_intro; [lia|by right; right|naive_solver].
Qed.

Lemma clear_data_safe :
  ssafe (fun _ => True) (lift (c <- get_ctx ;; set_ctx (ctx_set_user None (ctx_set_data None c)))%st)
    (fun _ => clean).
Proof.
  apply rsafe_lift. intros [st n c] [Hsh (? & ? & ?)] _. unfold set_ctx, get_ctx, st_gets, st_bind, ctx_set_user, ctx_set_data. cbn in *.
  split_and!; [split; [done|] | |by left].
  - unfold ctx_inv. cbn. split_and!; [lia|lia|by left].
  - apply guar_intro; [lia|by right; right|naive_solver].
Qed.

Lemma set_data_safe p :
  ssafe regen (lift (c' <- get_ctx ;; set_ctx (ctx_set_data (Some p) c'))%st) (fun _ => regen).
Proof.
  apply rsafe_lift. intros [st n c] [Hsh (? & ? & ?)] Hr. unfold set_ctx, get_ctx, st_gets, st_bind, ctx_set_user, ctx_set_data. cbn in *.
  split_and!; [split; [done|] | |done].
  - unfold ctx_inv. cbn. split_and!; [lia|lia|done].
  - apply guar_intro; [lia|by right; right|naive_solver].
Qed.

Lemma destroy_safe (P : Ctx -> Prop) :
  ssafe P (lift (c <- get_ctx ;; store_destroy (sid c))%st) (fun _ => P).
Proof.
  apply rsafe_lift. intros [st n c] [Hsh Hci] HP. unfold store_destroy, get_ctx, st_gets, st_bind. cbn in *.
  split_and!; [split; [|done] | |done].
  - eapply shared_inv_intro; [done| |done]. intros k v. rewrite lookup_delete_Some. naive_solver.
  - apply guar_intro; [lia|by right; right|]. intros k _ Hu _. by apply store_delete_keeps.
Qed.

Lemma gen_safe :
  ssafe (fun _ => True)
    (lift (c <- get_ctx ;; k <- gen_sid (cookie c) ;;
           set_ctx (mkCtx (cookie c) k None (user c) (orig_id c) (orig_data c) (saved c) false))%st)
    (fun _ => regen).
Proof.
  apply rsafe_lift. intros [st n c] [Hsh (? & ? & ?)] _. pose proof (next_id_ge (cookie c) n).
  unfold set_ctx, gen_sid, get_ctx, st_gets, st_bind. cbn in *.
  split_and!; [split; [eapply shared_inv_intro; [|naive_solver|done]; lia|] | |].
  - unfold ctx_inv. cbn. split_and!; [lia|lia|by left].
  - apply guar_intro; [lia|by right; left|naive_solver].
  - unfold regen. cbn. lia.
Qed.

Lemma save_session_safe : ssafe clean (lift save_session) (fun _ => clean).
Proof.
  apply rsafe_lift. intros [st n c] [Hsh (Hs & Ho & Hd)] Hcl.
  unfold save_session, store_set, set_ctx, get_ctx, st_gets, st_bind, st_ret. cbn in Hs, Ho, Hd, Hcl |- *.
  assert (Hst : shared_inv (mkSess (<[sid c := data c]> st) n c)).
  { apply (shared_inv_intro st _ n n c c); [lia| |exact Hsh]. intros k v. rewrite lookup_insert_Some. naive_solver. }
  assert (Hg : forall c', ctx_follows n c c' -> sess_guar (mkSess st n c) (mkSess (<[sid c := data c]> st) n c')).
  { intros c' Hf. apply guar_intro; [lia|done|]. intros k _ Hu Hc. apply (store_insert_keeps _ _ _ c); [|done|done].
    intros p Hp. split; [done|]. destruct Hcl as [Hn|Hn]; [congruence|done]. }
  destruct (wrapped c); cbn; split_and!.
  - split; [done|]. unfold ctx_inv. cbn. split_and!; [lia|lia|by right].
  - apply Hg. by right; right.
  - done.
  - by split.
  - apply Hg. by right; right.
  - done.
Qed.

Lemma should_save_untouched c : orig_id c = sid c -> saved c = Some (data c) -> should_save c = false.
Proof.
  intros Ho Hs. unfold should_save, is_saved. rewrite Hs, Ho.
  rewrite (bool_decide_eq_false_2 (Some (data c) = None)) by done. cbn.
  by rewrite !bool_decide_eq_true_2.
Qed.

(** The end of the response writes a user only under a regenerated
    id: an untouched session is not saved, as [resave] is false. *)
Lemma end_request_safe : ssafe (fun _ => True) (lift end_request) (fun _ _ => True).
Proof.
  apply rsafe_lift. intros [st n c] [Hsh (Hs & Ho & Hd)] _.
  unfold end_request, store_set, get_ctx, st_gets, st_bind, st_ret. cbn in Hs, Ho, Hd |- *.
  destruct (should_save c) eqn:Ess; cbn; split_and!; [| |done|by split|reflexivity|done].
  - split; [|by split_and!]. apply (shared_inv_intro st _ n n c c); [lia| |exact Hsh].
    intros k v. rewrite lookup_insert_Some. naive_solver.
  - apply guar_intro; [lia|by right; right|]. intros k _ Hu Hc. apply (store_insert_keeps _ _ _ c); [|done|done].
    intros p Hp. split; [done|]. intros Hso. destruct (Hd Hso) as [Hn|Hsv]; [congruence|].
    by rewrite should_save_untouched in Ess.
Qed.

Lemma regenerate_c_safe (P : Ctx -> Prop) : ssafe P regenerate_c (fun _ => regen).
Proof.
  unfold regenerate_c. eapply rsafe_bind; [apply destroy_safe|intros ?].
  eapply rsafe_bind; [apply rsafe_wait|intros ?]. eapply rsafe_conseq; [apply gen_safe|done|done].
Qed.

Lemma save_session_c_safe : ssafe clean save_session_c (fun _ => clean).
Proof.
  unfold save_session_c. eapply rsafe_bind; [apply save_session_safe|intros ?]. apply rsafe_wait.
Qed.

Lemma logIn_c_safe u p : ssafe (fun _ => True) (logIn_c u p) (fun _ _ => True).
Proof.
  unfold logIn_c. eapply rsafe_bind; [apply set_user_safe|intros ?].
  eapply rsafe_bind; [apply regenerate_c_safe|intros ?].
  eapply rsafe_bind; [apply set_data_safe|intros ?].
  eapply rsafe_conseq; [apply save_session_c_safe|by right|done].
Qed.

Lemma logOut_c_safe : ssafe (fun _ => True) logOut_c (fun _ _ => True).
Proof.
  unfold logOut_c. eapply rsafe_bind; [apply clear_data_safe|intros ?].
  eapply rsafe_bind; [apply save_session_c_safe|intros ?].
  eapply rsafe_conseq; [apply regenerate_c_safe|done|done].
Qed.

Lemma begin_request_c_safe ck : ssafe (fun _ => True) (begin_request_c ck) (fun _ _ => True).
Proof.
  unfold begin_request_c. eapply rsafe_bind; [apply begin_request_safe|intros ?].
  destruct ck; [apply rsafe_wait|by apply rsafe_ret].
Qed.

End SessSegments.

(** ** The handlers' segments *)

Section ServerSegments.
Context {kdf : Kdf} {prov : Provider}.

Lemma vsafe_bind {A B} (r : Res Server A) (f : A -> Res Server B) :
  vsafe r -> (forall a, vsafe (f a)) -> vsafe (res_bind r f).
Proof. apply rsafe_bind. Qed.

Lemma vsafe_ret {A} (a : A) : vsafe (res_ret a).
Proof. by apply rsafe_ret. Qed.

Lemma vsafe_wait : vsafe wait.
Proof. apply rsafe_wait. Qed.

Lemma vsafe_acc {A} (r : Res Accounts A) : vsafe (res_zoom acc_lens r).
Proof. apply rsafe_zoom; [done|done|]. intros x t _. unfold sguar. cbn. reflexivity. Qed.

Lemma vsafe_sess {A} (r : Res Sess A) :
  rsafe ctx sess_inv sess_guar (fun _ => True) r (fun _ _ => True) -> vsafe (res_zoom sess_lens r).
Proof. apply rsafe_zoom_view; done. Qed.

(** A segment that leaves the sessions alone. *)
Lemma vsafe_lift {A} (m : St Server A) : (forall x, sess (snd (m x)) = sess x) -> vsafe (lift m).
Proof.
  intros H. apply rsafe_lift. intros x Hx _. unfold sinv, sguar. rewrite H. split_and!; [done|reflexivity|done].
Qed.

Lemma vsafe_end : vsafe (lift (zoom sess_lens end_request)).
Proof. eapply rsafe_ext; [apply vsafe_sess, end_request_safe|]. apply lift_zoom. Qed.

Ltac vsafe_tac :=
  repeat match goal with
  | |- vsafe (res_bind _ _) => apply vsafe_bind; [|intros ?]
  | |- vsafe (res_ret _) => apply vsafe_ret
  | |- vsafe wait => apply vsafe_wait
  | |- vsafe (res_zoom acc_lens _) => apply vsafe_acc
  | |- vsafe (lift (zoom sess_lens end_request)) => apply vsafe_end
  | |- vsafe (lift _) => apply vsafe_lift; intros [? ? ?]; reflexivity
  | |- vsafe (res_zoom sess_lens _) => apply vsafe_sess
  | |- vsafe _ => case_match
  end.

Lemma google_strategy_c_safe q sc : vsafe (google_strategy_c q sc).
Proof. unfold google_strategy_c, google_verify_c. vsafe_tac. Qed.

Lemma authenticate_c_safe o fr nc : (forall e, vsafe (nc e)) -> vsafe (authenticate_c o fr nc).
Proof. intros Hn. unfold authenticate_c. vsafe_tac; [apply logIn_c_safe|apply Hn..]. Qed.

Lemma get_secrets_safe : vsafe (lift get_secrets).
Proof.
  apply vsafe_lift. intros [a ss co].
  unfold get_secrets, isAuthenticated, zoom, get_ctx, st_gets, st_bind, st_ret. cbn. by case_bool_decide.
Qed.

Lemma route_c_safe rq : vsafe (route_c rq).
Proof.
  unfold route_c, get_auth_google_c, get_auth_google_secrets_c, post_register_c, post_login_c, get_logout_c.
  vsafe_tac; first [apply google_strategy_c_safe | apply get_secrets_safe | apply logIn_c_safe
                   | apply logOut_c_safe
                   | apply authenticate_c_safe; intros []; cbv beta; unfold express_next_c; vsafe_tac].
Qed.

Lemma handle_c_safe rq : vsafe (handle_c rq).
Proof. unfold handle_c. vsafe_tac; first [apply begin_request_c_safe | apply route_c_safe]. Qed.

End ServerSegments.

(** ** The interleaving keeps the invariant *)

Section Worlds.
Context {kdf : Kdf} {prov : Provider}.

Lemma arrive_safe rq : nsafe sloc sinv sguar (fun _ _ => True) ctx_new (arrive rq).
Proof. constructor; intros x Hx _; by destruct (handle_c_safe rq x Hx I) as (? & ? & ?). Qed.

Lemma thread_ok_mono s s' t :
  next_sid (sess s) <= next_sid (sess s') -> thread_ok s t -> thread_ok s' t.
Proof. intros Hn [H|[H1 H2]]; [by left|right]. split; [by eapply ctx_inv_mono|done]. Qed.

Lemma with_ctx_sess c s :
  sess (with_ctx c s) = mkSess (store (sess s)) (next_sid (sess s)) c.
Proof. done. Qed.

(** A request's segment keeps the shared invariant, satisfies the
    guarantee from the server with its context, and leaves the request
    with the new context and a safe rest. *)
Lemma run_thread_inv s t t' s' :
  shared_inv (sess s) -> thread_ok s t -> run_thread t s = Some (t', s') ->
  shared_inv (sess s') /\ sguar (with_ctx (t_ctx t) s) s' /\ t_ctx t' = ctx (sess s') /\
  thread_ok s' t' /\ finished t = false.
Proof.
  destruct t as [c [r|m]]; unfold run_thread, finished; cbn [t_node t_ctx]; [done|].
  intros Hsh [Hf|[Hci Hns]]; [done|].
  assert (Hx : sinv (with_ctx c s)).
  { unfold sinv. rewrite with_ctx_sess. split; [|done]. by destruct s as [a [st n c0] co]. }
  assert (Hl : sloc (with_ctx c s) = c) by done.
  inversion Hns as [|? ? H1 H2 H3]; subst.
  specialize (H1 _ Hx Hl). specialize (H2 _ Hx Hl). specialize (H3 _ Hx Hl).
  destruct (m (with_ctx c s)) as [nd s1]. intros [= <- <-]. cbn in *.
  destruct H1 as [Hsh1 Hci1]. split_and!; try done. right. by split.
Qed.

Lemma wstep_inv w w' : world_inv w -> wstep w w' -> world_inv w'.
Proof.
  intros [Hsh Hth] Hs. destruct Hs as [w rq _|w i t t' s' _ Hi Hr|w b _]; cbn in *.
  - split; [done|]. apply Forall_app; split; [done|]. constructor; [|done]. right. split; [|apply arrive_safe].
    destruct Hsh as [H0 _]. unfold ctx_inv. cbn. split_and!; [lia|lia|by left].
  - destruct (run_thread_inv _ _ _ _ Hsh (Forall_lookup_1 _ _ _ _ Hth Hi) Hr) as (Hsh' & [Hn _] & _ & Hok & _).
    split; [done|]. apply Forall_insert; [|done]. eapply Forall_impl; [done|].
    intros t0. apply thread_ok_mono. by rewrite with_ctx_sess in Hn.
  - split; [done|]. eapply Forall_impl; [done|]. intros t0. by apply thread_ok_mono.
Qed.

Lemma wreach_inv w : wreach w -> world_inv w.
Proof.
  induction 1 as [b|w w' _ IH Hs]; [|by eapply wstep_inv].
  split; [split; [cbn; lia|apply map_Forall_empty]|constructor].
Qed.

Lemma wstep_keeps k w w' : world_inv w -> world_keeps k w -> wstep w w' -> world_keeps k w'.
Proof.
  intros [Hsh Hth] (Hk & Hu & Hts) Hs. destruct Hs as [w rq _|w i t t' s' _ Hi Hr|w b _]; cbn in *.
  - split_and!; [done|done|]. apply Forall_app; split; [done|]. constructor; [|done]. cbn. done.
  - destruct (run_thread_inv _ _ _ _ Hsh (Forall_lookup_1 _ _ _ _ Hth Hi) Hr) as (_ & [_ Hg] & Hc & _ & Hf).
    pose proof (Forall_lookup_1 _ _ _ _ Hts Hi Hf) as Ht.
    destruct (Hg k) as (Hk' & Hu' & Hc').
    { rewrite with_ctx_sess. unfold keeps_out. cbn. split_and!; [done| |done].
      intros p Hp. apply Hu. by exists p. }
    split_and!; [done| |].
    + intros [p Hp]. by apply (Hu' p).
    + apply Forall_insert; [done|]. rewrite Hc. intros _. apply Hc'.
  - split_and!; [done|done|done].
Qed.

Lemma wstep_ev_steps e w : rtc wstep w (wstep_ev e w).
Proof.
  unfold wstep_ev. destruct (alive w) eqn:Ea; cbn [negb]; [|done].
  destruct e as [rq|i|b].
  - by apply rtc_once, ws_arrive.
  - destruct (w_threads w !! i) as [t|] eqn:Ei; [|done].
    destruct (run_thread t (w_srv w)) as [[t' s']|] eqn:Er; [|done].
    apply rtc_once. by eapply ws_run.
  - by apply rtc_once, ws_conn.
Qed.

Lemma schedule_steps es w : rtc wstep w (schedule es w).
Proof.
  revert w. induction es as [|e es IH]; intros w; [done|].
  cbn. eapply rtc_trans; [apply wstep_ev_steps|apply IH].
Qed.

Lemma schedule_wreach es b : wreach (schedule es (mkWorld (boot b) [])).
Proof.
  pose proof (schedule_steps es (mkWorld (boot b) [])) as H. remember (mkWorld (boot b) []) as w0.
  assert (wreach w0) as H0 by (subst; constructor).
  clear Heqw0. induction H as [|x y z Hxy _ IH]; [done|]. apply IH. by eapply wreach_step.
Qed.

(** C15. Once an issued session id holds no user, and no request in
    flight has regenerated its session into it, no interleaving of
    requests stores a user under it again: requests that loaded the
    session before a logout (or before a login destroyed it) cannot
    bring it back, because express-session saves a loaded session only
    when it was modified ([resave: false], app.js line 20) and every
    change of the user goes through [regenerate] to a new id. *)
Theorem logout_not_undone w w' k :
  wreach w -> k < next_sid (sess (w_srv w)) -> ~ holds_user k (w_srv w) ->
  (forall t, t ∈ w_threads w -> finished t = false -> sid (t_ctx t) = k -> orig_id (t_ctx t) = k) ->
  rtc wstep w w' -> ~ holds_user k (w_srv w').
Proof.
  intros Hr Hk Hu Ht Hs.
  assert (H : world_inv w /\ world_keeps k w).
  { split; [by apply wreach_inv|]. split_and!; [done|done|]. by apply Forall_forall. }
  clear Hr Hk Hu Ht. induction Hs as [w|w1 w2 w3 H12 _ IH]; [apply H|].
  destruct H as [Hi Hk]. apply IH. split; [by eapply wstep_inv|by eapply wstep_keeps].
Qed.

End Worlds.

(** ** Every request finishes after a bounded number of segments *)

Section Bounds.
Context {kdf : Kdf} {prov : Provider}.

Lemma findOrCreate_c_within g : rwithin 2 (findOrCreate_c g).
Proof. unfold findOrCreate_c. repeat within_step. Qed.
#[local] Hint Resolve findOrCreate_c_within : within.

Lemma setPassword_c_within d pw : rwithin 2 (setPassword_c d pw).
Proof. unfold setPassword_c. repeat within_step. Qed.
#[local] Hint Resolve setPassword_c_within : within.

Lemma register_c_within u pw : rwithin 4 (register_c u pw).
Proof. unfold register_c. repeat within_step. Qed.
#[local] Hint Resolve register_c_within : within.

Lemma verify_local_c_within u pw : rwithin 2 (verify_local_c u pw).
Proof. unfold verify_local_c. repeat within_step. Qed.
#[local] Hint Resolve verify_local_c_within : within.

Lemma local_strategy_c_within b q : rwithin 2 (local_strategy_c b q).
Proof. unfold local_strategy_c. repeat within_step. Qed.
#[local] Hint Resolve local_strategy_c_within : within.

Lemma google_strategy_c_within q sc : rwithin 3 (google_strategy_c q sc).
Proof. unfold google_strategy_c, google_verify_c. repeat within_step. Qed.
#[local] Hint Resolve google_strategy_c_within : within.

Lemma regenerate_c_within : rwithin 1 regenerate_c.
Proof. unfold regenerate_c. repeat within_step. Qed.
#[local] Hint Resolve regenerate_c_within : within.

Lemma save_session_c_within : rwithin 1 save_session_c.
Proof. unfold save_session_c. repeat within_step. Qed.
#[local] Hint Resolve save_session_c_within : within.

Lemma logIn_c_within u p : rwithin 2 (logIn_c u p).
Proof. unfold logIn_c. repeat within_step. Qed.
#[local] Hint Resolve logIn_c_within : within.

Lemma logOut_c_within : rwithin 2 logOut_c.
Proof. unfold logOut_c. repeat within_step. Qed.
#[local] Hint Resolve logOut_c_within : within.

Lemma begin_request_c_within ck : rwithin 1 (begin_request_c ck).
Proof. unfold begin_request_c. repeat within_step. Qed.
#[local] Hint Resolve begin_request_c_within : within.

Lemma authenticate_c_within o fr nc n :
  (forall e, rwithin n (nc e)) -> rwithin (2 + n) (authenticate_c o fr nc).
Proof.
  intros Hn. unfold authenticate_c. destruct o; [|destruct fr|..]; try (apply rwithin_ret).
  - apply rwithin_bind; [apply rwithin_zoom, logIn_c_within | intros; apply Hn].
  - eapply rwithin_mono; [apply Hn | lia].
Qed.

Lemma express_next_c_within h n e : rwithin n h -> rwithin n (express_next_c h e).
Proof. intros Hh. destruct e; [apply rwithin_ret | exact Hh]. Qed.

Lemma route_c_within rq : rwithin 8 (route_c rq).
Proof.
  unfold route_c, get_auth_google_c, get_auth_google_secrets_c, post_register_c, post_login_c, get_logout_c.
  repeat within_step.
  all: eapply rwithin_mono; [apply (authenticate_c_within _ _ _ 0); intros e | lia].
  all: try apply express_next_c_within; apply rwithin_ret.
Qed.
#[local] Hint Resolve route_c_within : within.


End Bounds.

(** ** A request in flight across a logout *)

Section InFlight.
Context {kdf : Kdf} {prov : Provider}.

Lemma route_c_get_secrets b q ck : route_c (mkRequest GET "/secrets" b q ck) = lift get_secrets.
Proof. reflexivity. Qed.

(** C28. A [GET /secrets] in flight answers from the session its
    session middleware loaded when it arrived. The middleware reads
    the store at once and waits for [store.get]'s callback; whatever
    the other requests do to the shared state before that callback
    runs ([s2] is any state: a logout of the same session, a login,
    a change of the connection), the request renders secrets.ejs
    exactly when the store held a user under its cookie on arrival,
    and otherwise redirects to /login; it sends no cookie and changes
    no stored session. A logout does not stop a request that loaded
    the session before it. *)
Theorem secrets_in_flight b q k s1 s2 :
  match run_thread (mkThread ctx_new (arrive (mkRequest GET "/secrets" b q (Some k)))) s1 with
  | Some (t1, _) =>
      match run_thread t1 s2 with
      | Some (t2, s2') =>
          reply_of t2 = Some (mkResponse (match store (sess s1) !! k with
                                          | Some (Some _) => Render "secrets.ejs"
                                          | _ => Redirect "/login"
                                          end) None) /\
          store (sess s2') = store (sess s2)
      | None => False
      end
  | None => False
  end.
Proof.
  unfold run_thread, arrive. cbn [t_node t_ctx]. unfold handle_c. rewrite static_miss, route_c_get_secrets.
  cbv beta iota zeta delta [res_bind st_bind lift wait res_ret res_zoom node_zoom node_bind begin_request_c with_ctx].
  cbn [view update sess_lens sess req_cookie]. rewrite (begin_request_ctx (Some k) ctx_new (sess s1)).
  pose proof (begin_request_untouched (Some k) (sess s1)) as Hu.
  pose proof (begin_request_eq (Some k) (sess s1)) as Hb.
  destruct (begin_request (Some k) (sess s1)) as [[] ss1]. cbn -[end_request get_secrets].
  rewrite get_secrets_eq. cbn [sess ctx]. case_bool_decide as Hus; cbn -[end_request];
    rewrite zoom_sess_eq; cbn [sess]; rewrite end_request_untouched by exact Hu; cbn;
    destruct (store (sess s1) !! k) as [[p|]|]; injection Hb as ->; cbn in *;
    first [done | by destruct Hus | exfalso; apply Hus; eauto].
Qed.

End InFlight.


(** ** The schedule [logout_race] *)

(** The claim at the state of [logout_race]: alice's session 2 is gone
    while the [GET /secrets] that loaded it is in flight, and it stays
    gone when that request ends. *)
Lemma logout_not_undone_witness :
  let w := @schedule demo_kdf demo_provider logout_race (mkWorld (boot true) []) in
  let w' := @schedule demo_kdf demo_provider [ERun 1] w in
  (2 < next_sid (sess (w_srv w)) /\ ~ holds_user 2 (w_srv w)) /\ ~ holds_user 2 (w_srv w').
Proof.
  intros w w'.
  assert (Hu : ~ holds_user 2 (w_srv w)) by (intros [p Hp]; vm_compute in Hp; discriminate).
  split; [split; [vm_compute; lia|exact Hu]|].
  apply (@logout_not_undone demo_kdf demo_provider w w' 2).
  - apply schedule_wreach.
  - vm_compute. lia.
  - exact Hu.
  - rewrite <- Forall_forall. vm_compute. repeat constructor; intros; first [done|discriminate].
  - apply schedule_steps.
Defined.

(** The request that loaded the session before the logout still
    renders the protected page: it is ordered before the logout. *)
Lemma logout_race_example :
  map reply_of (w_threads (@schedule demo_kdf demo_provider (logout_race ++ [ERun 1]) (mkWorld (boot true) []))) =
  [Some (mkResponse (Redirect "/secrets") (Some 2)); Some (mkResponse (Render "secrets.ejs") None);
   Some (mkResponse (Redirect "/") (Some 3))].
Proof. vm_compute. reflexivity. Qed.

(** ** Two Google callbacks for one new profile *)

Lemma schedule_step {kdf : Kdf} {prov : Provider} e es w w' :
  wstep_ev e w = w' -> schedule (e :: es) w = schedule es w'.
Proof. by intros <-. Qed.

Lemma route_c_google_cb {kdf : Kdf} {prov : Provider} b q ck :
  route_c (mkRequest GET "/auth/google/secrets" b q ck) = get_auth_google_secrets_c q.
Proof. reflexivity. Qed.

(** The two documents the callbacks build: the first is new to every
    index; the second has the first one's [googleId]. *)
Lemma race_dup_keys db g :
  db_wf db -> List.find (field_is googleId g) (docs db) = None -> Forall (fun e => is_Some (username e)) (docs db) ->
  dup_key (mkDoc (next_oid db) None (Some g) None None None) (docs db) = None /\
  dup_key (mkDoc (S (next_oid db)) None (Some g) None None None)
          (docs db ++ [mkDoc (next_oid db) None (Some g) None None None]) = Some "googleId_1".
Proof.
  intros Hwf Hf Hu. split.
  - apply dup_key_None. split_and!; [by apply fresh_oid_notin | by apply find_none_field |].
    cbn. intros Hin. apply list_elem_of_fmap in Hin as [e [He Hin]]. rewrite Forall_forall in Hu.
    destruct (Hu e Hin). congruence.
  - unfold dup_key. rewrite (proj2 (key_taken_false _ _ _)).
    + cbn. unfold key_taken. rewrite existsb_app. cbn. rewrite bool_decide_eq_true_2 by done.
      by rewrite orb_true_r.
    + rewrite map_app, elem_of_app. cbn. intros [Hin|Hin].
      * destruct Hwf as (_ & _ & _ & H4). apply list_elem_of_fmap in Hin as [e [He Hin]].
        rewrite Forall_forall in H4. specialize (H4 e Hin). lia.
      * apply list_elem_of_singleton in Hin. lia.
Qed.

(** Evaluate one segment of a Google callback on a symbolic state. *)
Ltac seg_unfold :=
  cbv beta iota zeta delta [wstep_ev run_thread arrive handle_c get_auth_google_secrets_c google_strategy_c
    google_verify_c findOrCreate_c authenticate_c express_next_c logIn_c regenerate_c save_session_c
    begin_request_c res_bind st_bind lift wait await res_ret res_zoom node_zoom node_bind with_ctx alive
    forallb crashed_thread negb is_crashed].

Ltac race_rw :=
  first [ rewrite truthy_val_None | rewrite Session.next_id_None
        | match goal with
          | H : exchange ?c = _ |- context [exchange ?c] => rewrite H
          | H : ?c <> "" |- context [truthy_val (Some ?c)] => rewrite (truthy_val_nonempty c H)
          | H : List.find ?p ?l = _ |- context [List.find ?p ?l] => rewrite H
          | |- context [findOne ?cond ?db] => rewrite (findOne_up cond db) by (cbn; assumption)
          | |- context [zoom sess_lens end_request ?x] =>
              rewrite (zoom_sess_eq end_request x);
              first [rewrite end_request_untouched
                       by (cbn; unfold ctx_untouched; cbn; split; [done|split; [done|right; split; [done|congruence]]])
                    | rewrite end_request_regenerated by (cbn; unfold ctx_regenerated; cbn; split; [lia|congruence])]
          | |- context [save ?d ?db] =>
              first [rewrite (save_ok d db) by (cbn; assumption)
                    | rewrite (save_err d db "googleId_1") by (cbn; assumption)]
          end ].

Ltac race_seg :=
  seg_unfold; try rewrite static_miss, route_c_google_cb; seg_unfold; cbn; repeat (race_rw; cbn); reflexivity.

(** C31. The race of [findOrCreate] (app.js lines 77-79), which is a
    [findOne] followed by a [save], not an atomic upsert: on any
    collection that is reachable, has no document with the profile's
    [googleId] and lets a document without [username] in, two
    callbacks for the same new Google profile whose [findOne]s both
    run before either [save] end with the first redirected to /secrets
    and the second answered with a 500 (its [save] fails with E11000 on
    [googleId_1], the verify callback passes the error to passport,
    and Express's final handler answers with its status), and with
    exactly one new document for the profile. *)
Theorem concurrent_google_race {kdf : Kdf} {prov : Provider} s code g :
  db_wf (acc_db (accounts s)) -> connected (acc_db (accounts s)) = true ->
  code <> "" -> exchange code = Some g ->
  List.find (field_is googleId g) (docs (acc_db (accounts s))) = None ->
  Forall (fun e => is_Some (username e)) (docs (acc_db (accounts s))) ->
  let w := schedule (google_race code) (mkWorld s []) in
  map (fun t => option_map reply (reply_of t)) (w_threads w) = [Some (Redirect "/secrets"); Some (Status 500)] /\
  docs (acc_db (accounts (w_srv w))) =
    docs (acc_db (accounts s)) ++ [mkDoc (next_oid (acc_db (accounts s))) None (Some g) None None None].
Proof.
  intros Hwf Hcn Hc Hex Hf Hu w. subst w. unfold google_race. cbv zeta.
  destruct (race_dup_keys _ g Hwf Hf Hu) as [HA HB].
  do 2 (erewrite schedule_step; [|reflexivity]).
  do 10 (erewrite schedule_step; [|race_seg]).
  cbn. split; reflexivity.
Qed.

Lemma concurrent_google_race_witness :
  db_wf (acc_db (accounts (boot true))) /\
  @exchange demo_provider "c" = Some "c" /\
  (let w := @schedule demo_kdf demo_provider (google_race "c") (mkWorld (boot true) []) in
   map (fun t => option_map reply (reply_of t)) (w_threads w) = [Some (Redirect "/secrets"); Some (Status 500)]).
Proof.
  assert (Hwf : db_wf (acc_db (accounts (boot true)))) by (split_and!; constructor).
  split_and!; [exact Hwf | reflexivity |].
  exact (proj1 (@concurrent_google_race demo_kdf demo_provider (boot true) "c" "c" Hwf eq_refl
                  ltac:(discriminate) eq_refl eq_refl (List.Forall_nil _))).
Defined.

(** The bound of [requests_finish] is reached: a [POST /register]
    with a cookie, for a new username, runs ten segments. *)
Lemma register_takes_ten :
  let rq := mkRequest POST "/register" (mkBody (Some "alice") (Some "pw123") None) QNone (Some 7) in
  map finished (w_threads (@schedule demo_kdf demo_provider (EArrive rq :: repeat (ERun 0) 9)
                             (mkWorld (boot true) []))) = [false] /\
  map finished (w_threads (@schedule demo_kdf demo_provider (EArrive rq :: repeat (ERun 0) 10)
                             (mkWorld (boot true) []))) = [true].
Proof. vm_compute. split; reflexivity. Qed.

End Interleaving.
